(** * SublimeLinter colour-scheme generation (lint/scheme.py)

    A shallow embedding of [lint/scheme.py]: the two scheme engines
    ([XmlScheme], [JsonScheme]), the scope differ, the node assembler, the
    stale-rule purge and the preference switch, with the properties of the
    specification stated over them.

    Conventions of the embedding.
    - A Python [str] is a Rocq [string]; each [ascii] stands for the code
      point of the same number, so the strings covered are those whose code
      points are below 256.  The character classes below ([\w], [\d], [\s],
      [str.split]'s separators) are Python's, restricted to that range.
    - A Python [dict] is a [gmap]; iterating it ([.values()], [.items()],
      [for k in d]) enumerates [map_to_list].
    - Code that can raise runs in the monad [M]: a state transformer over
      the [world] (files, host preferences, log) whose outcome is [Ok] or
      [Raised].
    - The debugging [print(...)] calls write to stdout only and are not part
      of the model; [util.printf] is recorded in the log.
    - Path resolution ([get_settings], [get_original_theme]) talks to the
      host only; the engines' passes are stated on its results, the
      [PathSet] and the resource [sublime.load_resource] returned for the
      original theme, and [generate] runs the resolution and the pass
      together. *)

From Stdlib Require Import NArith Ascii String.
From stdpp Require Import base option list gmap strings fin_maps.

Local Open Scope string_scope.
Set Warnings "-clear-no-such-hyp".

(** ** Python string operations *)

Module Str.

Definition chars (s : string) : list ascii := list_ascii_of_string s.
Definition of_chars (l : list ascii) : string := string_of_list_ascii l.

Definition code (c : ascii) : N := N_of_ascii c.

Definition between (lo hi : N) (c : ascii) : bool :=
  ((lo <=? code c) && (code c <=? hi))%N.

(** [str.isspace] on one character; also the separators of [str.split()]
    and the class [\s]. *)
Definition isspace (c : ascii) : bool :=
  between 9 13 c || between 28 32 c || (code c =? 133)%N || (code c =? 160)%N.

(** The class [\d]. *)
Definition isdigit (c : ascii) : bool := between 48 57 c.

(** The class [\w] of a [str] pattern: alphanumerics and the underscore. *)
Definition isword (c : ascii) : bool :=
  between 48 57 c || between 65 90 c || (code c =? 95)%N || between 97 122 c
  || (code c =? 170)%N || between 178 179 c || (code c =? 181)%N
  || between 185 186 c || between 188 190 c || between 192 214 c
  || between 216 246 c || between 248 255 c.

(** [s.split()]: maximal runs of non-space characters. *)
Fixpoint split_go (cur : list ascii) (s : list ascii) : list string :=
  match s with
  | [] => match cur with [] => [] | _ => [of_chars cur] end
  | c :: s' =>
      if isspace c
      then match cur with
           | [] => split_go [] s'
           | _ => of_chars cur :: split_go [] s'
           end
      else split_go (cur ++ [c]) s'
  end.

Definition split (s : string) : list string := split_go [] (chars s).

(** [sep.join(l)] *)
Fixpoint join (sep : string) (l : list string) : string :=
  match l with
  | [] => ""
  | [x] => x
  | x :: l' => x +:+ sep +:+ join sep l'
  end.

Definition startswith (s p : string) : bool :=
  bool_decide (chars p `prefix_of` chars s).

Definition endswith (s p : string) : bool :=
  bool_decide (chars p `suffix_of` chars s).

(** [s.upper()].  The two characters of the range whose upper case lies
    outside it (181 and 255) are left as they are. *)
Definition upper_char (c : ascii) : list ascii :=
  if between 97 122 c || between 224 246 c || between 248 254 c
  then [ascii_of_N (code c - 32)]
  else if (code c =? 223)%N then chars "SS"
  else [c].

Definition upper (s : string) : string :=
  of_chars (concat (map upper_char (chars s))).

(** Truth value of a string: non-empty. *)
Definition truthy (s : string) : bool :=
  match s with "" => false | _ => true end.

End Str.

(** ** [os.path] (POSIX flavour) *)

Module Path.

(** [os.path.join(a, b)] *)
Definition join (a b : string) : string :=
  if Str.startswith b "/" then b
  else if negb (Str.truthy a) || Str.endswith a "/" then a +:+ b
  else a +:+ "/" +:+ b.

(** the part of [p] after its last ["/"] *)
Fixpoint basename_go (cur : list ascii) (p : list ascii) : list ascii :=
  match p with
  | [] => cur
  | c :: p' =>
      if Ascii.eqb c "/"%char then basename_go [] p'
      else basename_go (cur ++ [c]) p'
  end.

(** [os.path.basename(p)] *)
Definition basename (p : string) : string :=
  Str.of_chars (basename_go [] (Str.chars p)).

End Path.

(** ** Regular expressions ([re])

    Patterns are matched by Brzozowski derivatives.  Only the existence of a
    match is used by the module ([re.match] and [re.search] results are
    tested for truth), so greedy and lazy quantifiers coincide. *)

Module Re.

Inductive regex : Type :=
| Void : regex
| Eps : regex
| Class (p : ascii → bool) : regex
| Cat (r1 r2 : regex) : regex
| Alt (r1 r2 : regex) : regex
| Star (r : regex) : regex.

(** the words of a pattern *)
Inductive lang : regex → list ascii → Prop :=
| lang_eps : lang Eps []
| lang_class p c : p c = true → lang (Class p) [c]
| lang_cat r1 r2 s1 s2 : lang r1 s1 → lang r2 s2 → lang (Cat r1 r2) (s1 ++ s2)
| lang_alt_l r1 r2 s : lang r1 s → lang (Alt r1 r2) s
| lang_alt_r r1 r2 s : lang r2 s → lang (Alt r1 r2) s
| lang_star_nil r : lang (Star r) []
| lang_star_cons r s1 s2 :
    lang r s1 → lang (Star r) s2 → lang (Star r) (s1 ++ s2).

Fixpoint nullable (r : regex) : bool :=
  match r with
  | Void => false
  | Eps => true
  | Class _ => false
  | Cat r1 r2 => nullable r1 && nullable r2
  | Alt r1 r2 => nullable r1 || nullable r2
  | Star _ => true
  end.

Fixpoint deriv (c : ascii) (r : regex) : regex :=
  match r with
  | Void => Void
  | Eps => Void
  | Class p => if p c then Eps else Void
  | Cat r1 r2 =>
      if nullable r1
      then Alt (Cat (deriv c r1) r2) (deriv c r2)
      else Cat (deriv c r1) r2
  | Alt r1 r2 => Alt (deriv c r1) (deriv c r2)
  | Star r1 => Cat (deriv c r1) (Star r1)
  end.

(** [r] matches the whole of [s] *)
Fixpoint matches (r : regex) (s : list ascii) : bool :=
  match s with
  | [] => nullable r
  | c :: s' => matches (deriv c r) s'
  end.

(** pattern syntax *)
Definition chr (c : ascii) : regex := Class (Ascii.eqb c).
Definition any : regex := Class (λ _, true).
(** [.] without DOTALL: anything but a newline *)
Definition dot : regex := Class (λ c, negb (Ascii.eqb c "010"%char)).
Definition opt (r : regex) : regex := Alt r Eps.
Definition plus (r : regex) : regex := Cat r (Star r).
(** [r{3,}] *)
Definition three_or_more (r : regex) : regex := Cat r (Cat r (Cat r (Star r))).

Fixpoint lit_chars (l : list ascii) : regex :=
  match l with
  | [] => Eps
  | c :: l' => Cat (chr c) (lit_chars l')
  end.

(** a literal string; also [re.escape(s)] inside a pattern *)
Definition lit (s : string) : regex := lit_chars (Str.chars s).

Fixpoint seq (rs : list regex) : regex :=
  match rs with
  | [] => Eps
  | r :: rs' => Cat r (seq rs')
  end.

(** [re.match(pat, s)] is not [None]: some prefix of [s] is matched *)
Definition re_match (pat : regex) (s : string) : bool :=
  matches (Cat pat (Star any)) (Str.chars s).

(** [re.search(pat, s)] is not [None]: some substring of [s] is matched *)
Definition re_search (pat : regex) (s : string) : bool :=
  matches (Cat (Star any) (Cat pat (Star any))) (Str.chars s).

End Re.

(** [MARK_COLOR_RE.format(re.escape(scope))] *)
Definition MARK_COLOR_RE (scope : string) : Re.regex :=
  let ws := Re.Star (Re.Class Str.isspace) in
  let nl := Re.Cat (Re.opt (Re.chr "013")) (Re.chr "010") in
  Re.seq
    [ ws; Re.lit "<string>sublimelinter."; Re.lit scope; Re.lit "</string>"; ws; nl;
      ws; Re.lit "<key>settings</key>"; ws; nl;
      ws; Re.lit "<dict>"; ws; nl;
      Re.Star (Re.seq
        [ ws; Re.lit "<key>";
          Re.Alt (Re.lit "background") (Re.lit "fontStyle");
          Re.lit "</key>"; ws; nl;
          ws; Re.lit "<string>"; Re.Star Re.dot; Re.lit "</string>"; nl ]);
      ws; Re.lit "<key>foreground</key>"; ws; nl;
      ws; Re.lit "<string>";
      Re.lit "#"; Re.plus Re.dot; Re.lit "</string>"; ws; nl ].

(** the double-quote character *)
Definition dq : string := String "034"%char "".

Definition COLOR_SCHEME_PREAMBLE : string :=
  "<?xml version=" +:+ dq +:+ "1.0" +:+ dq +:+ " encoding=" +:+ dq +:+ "UTF-8" +:+ dq +:+ "?>
<!DOCTYPE plist PUBLIC " +:+ dq +:+ "-//Apple//DTD PLIST 1.0//EN" +:+ dq +:+ " "
  +:+ dq +:+ "http://www.apple.com/DTDs/PropertyList-1.0.dtd" +:+ dq +:+ ">
".

(** [DYN_PAT = re.compile("sublimelinter\.\w+?\.style_\d{3,}")] *)
Definition DYN_PAT : Re.regex :=
  Re.seq
    [ Re.lit "sublimelinter"; Re.chr "."; Re.plus (Re.Class Str.isword);
      Re.chr "."; Re.lit "style_"; Re.three_or_more (Re.Class Str.isdigit) ].


(** ** Data model *)

(** A rule of a JSON scheme (a ThemeNode of the JSON engine): a [dict] with
    string values, among them ["scope"] and ["name"]. *)
Abbreviation rule := (gmap string string).

(** An [ElementTree.Element]: tag, text and children (a ThemeNode of the XML
    engine is one of these). *)
#[warnings="-register-all"] Inductive element : Type :=
| Element (tag : string) (text : option string) (children : list element).

Definition tag (e : element) : string := let 'Element t _ _ := e in t.
Definition children (e : element) : list element := let 'Element _ _ cs := e in cs.

(** A parsed JSON scheme document: its ["rules"] array when the key is
    there, and its other top-level keys (values kept as they are). *)
Record theme : Type := Theme {
  rules : option (list rule);
  other_keys : gmap string string
}.

(** What a file holds.  [json.dumps(theme, indent=4, sort_keys=True)] and
    [ElementTree.tostring] are functions of the value they serialise, so a
    file is recorded as that value. *)
Inductive content : Type :=
| JsonFile (t : theme)
| XmlFile (preamble : string) (plist : element).

(** What [sublime.load_resource] hands over for the original theme: raw
    text for a tmTheme, together with what [ElementTree.XML] makes of that
    text ([None] when it does not parse), or the parsed structure of a
    .sublime-color-scheme. *)
Inductive resource : Type :=
| TextResource (text : string) (xml : option element)
| JsonResource (doc : theme).

Inductive event : Type :=
| Printf (msg : string)             (* util.printf(msg) *)
| PrefSet (key value : string)      (* prefs.set(key, value) *)
| SaveSettings (name : string)      (* sublime.save_settings(name) *)
| FileWrite (path : string).        (* open(path, "w") ... f.write *)

Record world : Type := World {
  files : gmap string content;
  prefs : gmap string string;
  log : list event
}.

Inductive exn : Type :=
| Exception | KeyError | AttributeError | TypeError | ValueError
| ParseError | FileNotFoundError | IOError.

(** [self.paths] once [update_paths] and [get_settings] have run *)
Record PathSet : Type := Paths {
  usr_dir : string;
  usr_dir_rel : string;
  usr_dir_abs : string;
  scheme_orig : string;
  scheme_name : string;
  ext : string
}.

(** The fields of a [Scheme] instance; [node] is the engine's ThemeNode. *)
Record Scheme (node : Type) : Type := MkScheme {
  static_nodes : gmap string node;
  dynamic_nodes : gmap string node;
  scheme : string;
  paths : PathSet
}.
Arguments MkScheme {node}.
Arguments static_nodes {node}.
Arguments dynamic_nodes {node}.
Arguments scheme {node}.
Arguments paths {node}.

(** [Scheme.__init__]: empty registries; [scheme] and [paths] are what
    [get_settings] and [update_paths] then store for the pass. *)
Definition Scheme_init {node} (scheme : string) (paths : PathSet) : Scheme node :=
  MkScheme ∅ ∅ scheme paths.

(** [d.values()] and the keys [d] iterates over *)
Definition values {A} (d : gmap string A) : list A := (map_to_list d).*2.
Definition keys {A} (d : gmap string A) : list string := (map_to_list d).*1.

(** ** The monad of a pass *)

Inductive result (A : Type) : Type :=
| Return (a : A)
| Raise (e : exn).
Arguments Return {A}.
Arguments Raise {A}.

Inductive outcome (A : Type) : Type :=
| Ok (a : A) (w : world)
| Raised (e : exn) (w : world).
Arguments Ok {A}.
Arguments Raised {A}.

Definition M (A : Type) : Type := world → outcome A.

#[global] Instance M_ret : MRet M := λ A a w, Ok a w.
#[global] Instance M_bind : MBind M := λ A B f c w,
  match c w with
  | Ok a w' => f a w'
  | Raised e w' => Raised e w'
  end.

Definition raise {A} (e : exn) : M A := λ w, Raised e w.

Definition lift {A} (r : result A) : M A :=
  match r with Return a => mret a | Raise e => raise e end.

Definition world_of {A} (o : outcome A) : world :=
  match o with Ok _ w => w | Raised _ w => w end.

Definition emit (e : event) : M unit :=
  λ w, Ok tt (World (files w) (prefs w) (log w ++ [e])).

Definition printf (msg : string) : M unit := emit (Printf msg).

(** [os.path.exists(path)] *)
Definition path_exists (path : string) : M bool :=
  λ w, Ok (bool_decide (is_Some (files w !! path))) w.

(** [with open(path, "r") as f: json.load(f)] *)
Definition json_load (path : string) : M theme :=
  λ w, match files w !! path with
       | Some (JsonFile t) => Ok t w
       | Some (XmlFile _ _) => Raised ValueError w
       | None => Raised FileNotFoundError w
       end.

(** [with open(path, "w") as f: f.write(...)].  The directory of [path] is
    taken to exist and to be writable: an [OSError] of [open] or [write] is
    not part of the model. *)
Definition write_file (path : string) (c : content) : M unit :=
  λ w, Ok tt (World (<[path := c]> (files w)) (prefs w) (log w ++ [FileWrite path])).

(** [self.prefs.set(key, value)] *)
Definition prefs_set (key value : string) : M unit :=
  λ w, Ok tt (World (files w) (<[key := value]> (prefs w)) (log w ++ [PrefSet key value])).

(** [sublime.save_settings(name)] *)
Definition save_settings (name : string) : M unit := emit (SaveSettings name).

(** ** Scheme (base class) *)

(** [Scheme.parse_scheme_xml]; [nodes] are the scopes in iteration order *)
Definition parse_scheme_xml (nodes : list string) (text : string) : list string :=
  filter (λ scope, Re.re_search (MARK_COLOR_RE scope) text = false) nodes.

(** [Scheme.set_scheme_path] *)
Definition set_scheme_path {node} (self : Scheme node) (path : string) : M unit :=
  if decide (path ≠ scheme self) then
    printf "New scheme path detected. Updating.";;
    prefs_set "color_scheme" path;;
    save_settings "Preferences.sublime-settings"
  else
    printf "Old scheme path detected. Pass.".

(** [Scheme.unfound_scopes_dialogue] *)
Definition unfound_scopes_dialogue (unfound : list string) : M unit :=
  printf ("The following scopes have not been found in the color scheme:
" +:+ Str.join "
" unfound).


(** ** XmlScheme *)

Definition kv (first second : string) : list element :=
  [Element "key" (Some first) []; Element "string" (Some second) []].

(** the [name] a node gets: [scope] unless a non-empty [name] is given *)
Definition node_name (scope : string) (name : option string) : string :=
  match name with
  | Some n => if Str.truthy n then n else scope
  | None => scope
  end.

(** [append_kv(key, f(input_dict.get(field)), d)] when the field is set and
    not empty *)
Definition setting (input_dict : gmap string string) (field key : string)
    (f : string → string) : list element :=
  match input_dict !! field with
  | Some v => if Str.truthy v then kv key (f v) else []
  | None => []
  end.

(** the element [XmlScheme.assemble_node] builds *)
Definition xml_node (scope : string) (input_dict : gmap string string)
    (name : option string) : element :=
  let d := Element "dict" None
             (setting input_dict "foreground" "foreground" Str.upper
              ++ setting input_dict "background" "background" Str.upper
              ++ setting input_dict "font_style" "fontStyle" id) in
  Element "dict" None
    (kv "name" (node_name scope name) ++ kv "scope" scope
     ++ [Element "key" (Some "settings") []; d]).

(** registering a node under its scope, shared by both engines:
    [if re.match(DYN_PAT, scope): self.dynamic_nodes[scope] = n
     else: self.static_nodes[scope] = n] *)
Definition record_node {node} (self : Scheme node) (scope : string) (n : node)
    : Scheme node :=
  if Re.re_match DYN_PAT scope
  then MkScheme (static_nodes self) (<[scope := n]> (dynamic_nodes self))
         (scheme self) (paths self)
  else MkScheme (<[scope := n]> (static_nodes self)) (dynamic_nodes self)
         (scheme self) (paths self).

(** [XmlScheme.assemble_node] *)
Definition xml_assemble_node (self : Scheme element) (scope : string)
    (input_dict : gmap string string) (name : option string) : Scheme element :=
  record_node self scope (xml_node scope input_dict name).

(** Modelled from the spec: [util.get_path_components] (module [util] is not
    among the sources).  [packages_relative_path] "converts platform path
    separators to '/'" through it, so it splits a path into its components
    at the separator, the root of an absolute path being a component. *)
Fixpoint components_go (cur : list ascii) (p : list ascii) : list string :=
  match p with
  | [] => match cur with [] => [] | _ => [Str.of_chars cur] end
  | c :: p' =>
      if Ascii.eqb c "/"%char
      then match cur with
           | [] => components_go [] p'
           | _ => Str.of_chars cur :: components_go [] p'
           end
      else components_go (cur ++ [c]) p'
  end.

Definition get_path_components (path : string) : list string :=
  (if Str.startswith path "/" then ["/"] else [])
  ++ components_go [] (Str.chars path).

(** [XmlScheme.packages_relative_path(path)], with [prefix_packages=True] *)
Definition packages_relative_path (path : string) : string :=
  let components := get_path_components path in
  let components :=
    match components with
    | c0 :: _ => if decide (c0 ≠ "Packages") then "Packages" :: components
                 else components
    | [] => components
    end in
  Str.join "/" components.

(** Rewrites the first element of [l] on which [f] is defined. *)
Fixpoint update_first {A} (f : A → option A) (l : list A) : option (list A) :=
  match l with
  | [] => None
  | x :: l' =>
      match f x with
      | Some y => Some (y :: l')
      | None => cons x <$> update_first f l'
      end
  end.

(** [styles = plist.find('./dict/array'); styles.extend(nodes)]: the first
    [array] child of a [dict] child of the root gets [nodes] appended;
    [None] when there is no such element ([find] returns [None]). *)
Definition extend_styles (plist : element) (nodes : list element) : option element :=
  let 'Element t tx cs := plist in
  Element t tx <$>
    update_first (λ d,
      let 'Element td txd csd := d in
      if String.eqb td "dict" then
        Element td txd <$>
          update_first (λ a,
            let 'Element ta txa csa := a in
            if String.eqb ta "array" then Some (Element ta txa (csa ++ nodes))
            else None) csd
      else None) cs.

(** [mod_scheme_path] of [XmlScheme.generate_color_scheme_async] *)
Definition mod_scheme_path {node} (self : Scheme node) : string :=
  let mod_name := scheme_name (paths self) +:+ " (SL)" in
  Path.join (usr_dir_abs (paths self)) (mod_name +:+ ".hidden-tmTheme").

(** [XmlScheme.generate_color_scheme_async]; [scheme_text] is what
    [sublime.load_resource(self.paths["scheme_orig"])] returned. *)
Definition xml_generate_color_scheme_async (self : Scheme element)
    (scheme_text : resource) : M unit :=
  '(text, plist) ← match scheme_text with
                   | TextResource text (Some plist) => mret (text, plist)
                   | TextResource _ None => raise ParseError
                   | JsonResource _ => raise TypeError
                   end;
  plist ← match extend_styles plist (values (dynamic_nodes self)) with
          | Some plist' => mret plist'
          | None => raise AttributeError
          end;
  let unfound := parse_scheme_xml (keys (static_nodes self)) text in
  (if bool_decide (unfound ≠ []) then unfound_scopes_dialogue unfound else mret tt);;
  write_file (mod_scheme_path self) (XmlFile COLOR_SCHEME_PREAMBLE plist);;
  let scheme_path_rel :=
    packages_relative_path
      (Path.join (usr_dir_rel (paths self)) (Path.basename (mod_scheme_path self))) in
  set_scheme_path self scheme_path_rel.

(** ** JsonScheme *)

(** What [parse_scheme_json] is given as [nodes]: a dict scope -> node, or
    the list of scopes [parse_scheme_xml] returned. *)
Inductive scopes : Type :=
| ScopeDict (d : gmap string rule)
| ScopeList (l : list string).

(** [set(nodes)] *)
Definition scope_set (nodes : scopes) : gset string :=
  match nodes with
  | ScopeDict d => dom d
  | ScopeList l => list_to_set l
  end.

(** truth value of [nodes] *)
Definition scopes_truthy (nodes : scopes) : bool :=
  match nodes with
  | ScopeDict d => bool_decide (d ≠ ∅)
  | ScopeList l => bool_decide (l ≠ [])
  end.

(** [node.get("scope", "").split()] *)
Definition def_scopes (node : rule) : list string :=
  Str.split (default "" (node !! "scope")).

(** The loop of [parse_scheme_json]; [None] is its early [return {}]. *)
Fixpoint parse_loop (unfound_keys : gset string) (rules : list rule)
    : option (gset string) :=
  match rules with
  | [] => Some unfound_keys
  | node :: rules' =>
      let unfound_keys := unfound_keys ∖ list_to_set (def_scopes node) in
      if decide (unfound_keys = ∅) then None
      else parse_loop unfound_keys rules'
  end.

(** [JsonScheme.parse_scheme_json(nodes, rules=rules)] *)
Definition parse_scheme_json (nodes : scopes) (rules : list rule)
    : result (gmap string rule) :=
  match parse_loop (scope_set nodes) rules with
  | None => Return ∅
  | Some unfound_keys =>
      match nodes with
      | ScopeDict d => Return (filter (λ kv, kv.1 ∈ unfound_keys) d)
      | ScopeList _ => Raise AttributeError   (* a list has no [items] *)
      end
  end.

Definition used_keys : list string := ["foreground"; "background"; "font_style"].

(** the dict [JsonScheme.assemble_node] builds *)
Definition husk (scope : string) (input_dict : gmap string string)
    (name : option string) : rule :=
  map_fold (λ k v husk, if bool_decide (k ∈ used_keys) then <[k := v]> husk else husk)
    (<["name" := node_name scope name]> (<["scope" := scope]> ∅))
    input_dict.

(** [JsonScheme.assemble_node] *)
Definition json_assemble_node (self : Scheme rule) (scope : string)
    (input_dict : gmap string string) (name : option string) : Scheme rule :=
  record_node self scope (husk scope input_dict name).

(** ["scope" in r and not re.search(DYN_PAT, r["scope"])] *)
Definition keeps (r : rule) : bool :=
  match r !! "scope" with
  | Some s => negb (Re.re_search DYN_PAT s)
  | None => false
  end.

(** [JsonScheme.remove_dyn_rules] *)
Fixpoint remove_dyn_rules (rules : list rule) : list rule :=
  match rules with
  | [] => []
  | r :: rules' =>
      if keeps r then r :: remove_dyn_rules rules' else remove_dyn_rules rules'
  end.

(** the scopes a notice lists, for the dict [parse_scheme_json] returned *)
Definition notice (unfound : gmap string rule) : M unit :=
  if bool_decide (unfound ≠ ∅) then unfound_scopes_dialogue (keys unfound)
  else mret tt.

(** The [if os.path.exists(new_scheme_path):] block of
    [JsonScheme.generate_color_scheme_async]: the rules kept from the
    document already on disk. *)
Definition reload_theme (new_scheme_path : string) (unfound : scopes) : M theme :=
  theme ← json_load new_scheme_path;
  let old_rules := rules theme in
  (* theme["rules"].clear() *)
  match old_rules with
  | None => raise KeyError
  | Some old_rules =>
      (if bool_decide (old_rules ≠ []) then
         (if scopes_truthy unfound then
            unfound ← lift (parse_scheme_json unfound old_rules);
            notice unfound
          else mret tt);;
         mret (Theme (Some (remove_dyn_rules old_rules)) (other_keys theme))
       else mret (Theme (Some []) (other_keys theme)))
  end.

(** The [if self.paths["ext"] == ...] block of
    [JsonScheme.generate_color_scheme_async]: the first value of
    [unfound]. *)
Definition find_unfound (self : Scheme rule) (scheme_text : resource) : result scopes :=
  if String.eqb (ext (paths self)) ".sublime-color-scheme" then
    match scheme_text with
    | JsonResource doc =>
        (* scheme_text.get("rules", {}) *)
        match parse_scheme_json (ScopeDict (static_nodes self))
                (default [] (rules doc)) with
        | Return d => Return (ScopeDict d)
        | Raise e => Raise e
        end
    | TextResource _ _ => Raise AttributeError   (* a str has no [get] *)
    end
  else if Str.endswith (ext (paths self)) "tmTheme" then
    match scheme_text with
    | TextResource text _ =>
        Return (ScopeList (parse_scheme_xml (keys (static_nodes self)) text))
    | JsonResource _ => Raise TypeError
    end
  else Raise Exception.

(** [new_scheme_path] of [JsonScheme.generate_color_scheme_async] *)
Definition new_scheme_path {node} (self : Scheme node) : string :=
  Path.join (usr_dir (paths self))
    (scheme_name (paths self) +:+ ".sublime-color-scheme").

(** [JsonScheme.generate_color_scheme_async]; [scheme_text] is what
    [sublime.load_resource(self.get_original_theme(self.scheme))]
    returned. *)
Definition json_generate_color_scheme_async (self : Scheme rule)
    (scheme_text : resource) : M unit :=
  unfound ← lift (find_unfound self scheme_text);
  if negb (scopes_truthy unfound) && bool_decide (dynamic_nodes self = ∅) then
    mret tt
  else
    found ← path_exists (new_scheme_path self);
    theme ← (if found : bool then reload_theme (new_scheme_path self) unfound
             else mret (Theme (Some []) ∅)) : M theme;
    let theme :=
      Theme (Some (default [] (rules theme) ++ values (dynamic_nodes self))%list)
        (other_keys theme) in
    write_file (new_scheme_path self) (JsonFile theme);;
    set_scheme_path self (scheme_orig (paths self)).

(** ** The factory *)

Inductive engine : Type := JsonEngine | XmlEngine.

(** [init_scheme(force_xml_scheme)], [version] being [int(sublime.version())] *)
Definition init_scheme (version : N) (force_xml_scheme : bool) : engine :=
  if (3149 <=? version)%N && negb force_xml_scheme then JsonEngine else XmlEngine.

(** ** Statements of the specification *)

(** A scope of the form [sublimelinter.<word>.style_<n>], [n] of three
    digits or more, possibly followed by more text (what [re.match] with
    [DYN_PAT] accepts). *)
Definition dynamic_scope (scope : string) : Prop :=
  ∃ word n rest : string,
    scope = "sublimelinter." +:+ word +:+ ".style_" +:+ n +:+ rest
    ∧ word ≠ ""
    ∧ Forall (λ c, Str.isword c = true) (Str.chars word)
    ∧ (3 ≤ String.length n)%nat
    ∧ Forall (λ c, Str.isdigit c = true) (Str.chars n).

(** The scopes the rules of a document declare: each rule's ["scope"]
    field, split at white space. *)
Definition scopes_declared_in (D : list rule) : gset string :=
  ⋃ ((λ node, list_to_set (def_scopes node)) <$> D).

(** A rule [remove_dyn_rules] is said to preserve: it has a ["scope"] key
    and the value does not contain the dynamic pattern. *)
Definition preserved (r : rule) : Prop :=
  ∃ s, r !! "scope" = Some s ∧ Re.re_search DYN_PAT s = false.

#[global] Instance preserved_dec r : Decision (preserved r).
Proof.
  unfold preserved. destruct (r !! "scope") as [s|].
  - destruct (Re.re_search DYN_PAT s) eqn:E.
    + right. intros (s' & [= <-] & H). congruence.
    + left. eauto.
  - right. intros (s' & [=] & _).
Defined.

(** A rule whose scope contains the dynamic pattern. *)
Definition dynamic_rule (r : rule) : Prop :=
  ∃ s, r !! "scope" = Some s ∧ Re.re_search DYN_PAT s = true.

(** What a computation added to the log. *)
Definition new_events (w w' : world) : list event := drop (length (log w)) (log w').

(** The computation wrote the file [path]. *)
Definition wrote (w w' : world) (path : string) : Prop :=
  FileWrite path ∈ new_events w w'.

(** ** The passes in normal form

    The outcome of each pass written as one case analysis on its inputs;
    [json_generate_unfold] and [xml_generate_unfold] show these are the
    passes above. *)

(** the log entry of [unfound_scopes_dialogue] *)
Definition notice_event (unfound : list string) : event :=
  Printf ("The following scopes have not been found in the color scheme:
" +:+ Str.join "
" unfound).

(** the end of a JSON pass that writes: the notices so far, the document
    with the kept rules followed by the dynamic nodes, the switch *)
Definition json_finish (self : Scheme rule) (notes : list event)
    (kept : list rule) (other : gmap string string) : M unit :=
  λ w, set_scheme_path self (scheme_orig (paths self))
         (World
            (<[new_scheme_path self :=
                 JsonFile (Theme (Some (kept ++ values (dynamic_nodes self))%list) other)]>
               (files w))
            (prefs w)
            (log w ++ notes ++ [FileWrite (new_scheme_path self)])%list).

Definition json_outcome (self : Scheme rule) (scheme_text : resource) : M unit :=
  λ w,
  match find_unfound self scheme_text with
  | Raise e => Raised e w
  | Return unfound =>
      if negb (scopes_truthy unfound) && bool_decide (dynamic_nodes self = ∅)
      then Ok tt w
      else
        match files w !! new_scheme_path self with
        | None => json_finish self [] [] ∅ w
        | Some (XmlFile _ _) => Raised ValueError w
        | Some (JsonFile (Theme None _)) => Raised KeyError w
        | Some (JsonFile (Theme (Some old_rules) other)) =>
            if bool_decide (old_rules ≠ []) && scopes_truthy unfound then
              match parse_scheme_json unfound old_rules with
              | Raise e => Raised e w
              | Return unfound' =>
                  json_finish self
                    (if bool_decide (unfound' ≠ ∅) then [notice_event (keys unfound')]
                     else [])
                    (remove_dyn_rules old_rules) other w
              end
            else json_finish self [] (remove_dyn_rules old_rules) other w
        end
  end.

(** the end of an XML pass: the notice, the document, the switch *)
Definition xml_finish (self : Scheme element) (notes : list event)
    (plist : element) : M unit :=
  λ w, set_scheme_path self
         (packages_relative_path
            (Path.join (usr_dir_rel (paths self))
               (Path.basename (mod_scheme_path self))))
         (World
            (<[mod_scheme_path self := XmlFile COLOR_SCHEME_PREAMBLE plist]> (files w))
            (prefs w)
            (log w ++ notes ++ [FileWrite (mod_scheme_path self)])%list).

Definition xml_outcome (self : Scheme element) (scheme_text : resource) : M unit :=
  λ w,
  match scheme_text with
  | JsonResource _ => Raised TypeError w
  | TextResource _ None => Raised ParseError w
  | TextResource text (Some plist) =>
      match extend_styles plist (values (dynamic_nodes self)) with
      | None => Raised AttributeError w
      | Some plist' =>
          let unfound := parse_scheme_xml (keys (static_nodes self)) text in
          xml_finish self
            (if bool_decide (unfound ≠ []) then [notice_event unfound] else [])
            plist' w
      end
  end.

(** Registries as a pass finds them: built from the empty ones of
    [Scheme.__init__] by calls of [assemble_node]. *)
Inductive assembled : Scheme rule → Prop :=
| assembled_empty scheme paths : assembled (Scheme_init scheme paths)
| assembled_node self scope input_dict name :
    assembled self → assembled (json_assemble_node self scope input_dict name).

(** No rule of the derived document on disk has a dynamic scope unless it
    is one of the current dynamic nodes. *)
Definition no_stale_dynamic_rule (self : Scheme rule) (w' : world) : Prop :=
  ∀ t rs r,
    files w' !! new_scheme_path self = Some (JsonFile t) →
    rules t = Some rs → r ∈ rs → dynamic_rule r →
    r ∈ values (dynamic_nodes self).

(** The preference [pref] (a path under [Packages/]) names the file
    [file]: the file's path ends with the part of [pref] after
    [Packages]. *)
Definition points_at (pref file : string) : Prop :=
  ∃ rel, pref = "Packages/" +:+ rel ∧ Str.endswith file ("/" +:+ rel) = true.

(** After the pass, [color_scheme] names every file the pass wrote. *)
Definition switched_to_written (w w' : world) : Prop :=
  ∀ path, wrote w w' path →
    ∃ v, prefs w' !! "color_scheme" = Some v ∧ points_at v path.

(** The file name [<name> (SL).<suffix>]. *)
Definition sl_marked (name file : string) : Prop :=
  ∃ suffix, Path.basename file = name +:+ " (SL)." +:+ suffix.

(** Nothing new to add: no missing static scope and no dynamic node. *)
Definition nothing_to_add (self : Scheme rule) (scheme_text : resource) : Prop :=
  ∃ unfound, find_unfound self scheme_text = Return unfound
             ∧ scopes_truthy unfound = false
             ∧ dynamic_nodes self = ∅.

(** Something new to add: a missing static scope or a dynamic node. *)
Definition something_to_add (self : Scheme rule) (scheme_text : resource) : Prop :=
  dynamic_nodes self ≠ ∅
  ∨ ∃ unfound, find_unfound self scheme_text = Return unfound
               ∧ scopes_truthy unfound = true.

(** The fast path as the specification words it: the write is skipped when
    there is nothing to add and no prior derived file; conversely, with
    something to add, the write is performed. *)
Definition fast_path_as_worded (self : Scheme rule)
    (scheme_text : resource) (w : world) : Prop :=
  let o := json_generate_color_scheme_async self scheme_text w in
  (nothing_to_add self scheme_text ∧ files w !! new_scheme_path self = None →
     o = Ok tt w)
  ∧ (something_to_add self scheme_text →
     wrote w (world_of o) (new_scheme_path self)).

(** Neither the JSON scheme extension nor a tmTheme extension. *)
Definition unrecognized (e : string) : Prop :=
  e ≠ ".sublime-color-scheme" ∧ Str.endswith e "tmTheme" = false.

Definition raises {A} (o : outcome A) : Prop := ∃ e w, o = Raised e w.

(** ** Sample inputs *)

Definition ex_paths : PathSet :=
  Paths "/st/Packages/User" "User/SublimeLinter" "/st/Packages/User/SublimeLinter"
    "Packages/Color Scheme - Default/Monokai.sublime-color-scheme"
    "Monokai" ".sublime-color-scheme".

(** the original scheme: it declares the static scope of the examples *)
Definition ex_original : resource :=
  JsonResource
    (Theme (Some [ {[ "scope" := "comment"; "foreground" := "#75715E" ]};
                   {[ "scope" := "sublimelinter.mark.error";
                      "foreground" := "#FF0000" ]} ]) ∅).

(** an original scheme without the static scope *)
Definition ex_original_bare : resource :=
  JsonResource (Theme (Some [ {[ "scope" := "comment"; "foreground" := "#75715E" ]} ]) ∅).

(** a registry with one static node *)
Definition ex_static_only : Scheme rule :=
  json_assemble_node (Scheme_init (scheme_orig ex_paths) ex_paths)
    "sublimelinter.mark.error" {[ "foreground" := "#FF0000" ]} None.

(** a registry with one static and one dynamic node *)
Definition ex_dynamic : Scheme rule :=
  json_assemble_node ex_static_only
    "sublimelinter.gutter.style_001" {[ "foreground" := "#00FF00" ]} None.

(** a dynamic rule of an earlier pass *)
Definition ex_stale_rule : rule :=
  husk "sublimelinter.gutter.style_007" {[ "foreground" := "#0000FF" ]} None.

Definition ex_user_rule : rule :=
  {[ "scope" := "string"; "foreground" := "#E6DB74" ]}.

Definition ex_prefs : gmap string string :=
  {[ "color_scheme" := scheme_orig ex_paths ]}.

(** no derived file yet *)
Definition ex_world : world := World ∅ ex_prefs [].

(** a derived document of an earlier pass on disk *)
Definition ex_derived_world : world :=
  World {[ "/st/Packages/User/Monokai.sublime-color-scheme" :=
             JsonFile (Theme (Some [ex_user_rule; ex_stale_rule]) ∅) ]}
    ex_prefs [].

(** a colour scheme the user keeps where the JSON engine writes its derived
    document: it sets variables and has no rules *)
Definition ex_foreign_world : world :=
  World {[ "/st/Packages/User/Monokai.sublime-color-scheme" :=
             JsonFile (Theme None {[ "variables" := "{}" ]}) ]}
    ex_prefs [].

(** a theme of an extension the engines do not know *)
Definition ex_paths_txt : PathSet :=
  Paths "/st/Packages/User" "User/SublimeLinter" "/st/Packages/User/SublimeLinter"
    "Packages/Themes/Plain.txt" "Plain" ".txt".

Definition ex_plist : element :=
  Element "plist" None
    [Element "dict" None
       [Element "key" (Some "name") []; Element "string" (Some "Plain") [];
        Element "key" (Some "settings") []; Element "array" None []]].

(** the text of a theme and the tree [ElementTree.XML] makes of it *)
Definition ex_text_resource : resource :=
  TextResource
    "<plist><dict><key>name</key><string>Plain</string><key>settings</key><array /></dict></plist>"
    (Some ex_plist).

Definition ex_xml_txt : Scheme element :=
  xml_assemble_node (Scheme_init (scheme_orig ex_paths_txt) ex_paths_txt)
    "sublimelinter.gutter.style_001" {[ "foreground" := "#00ff00" ]} None.

Definition ex_json_txt : Scheme rule :=
  json_assemble_node (Scheme_init (scheme_orig ex_paths_txt) ex_paths_txt)
    "sublimelinter.gutter.style_001" {[ "foreground" := "#00ff00" ]} None.

Definition ex_world_txt : world :=
  World ∅ {[ "color_scheme" := scheme_orig ex_paths_txt ]} [].

Definition ex_paths_tm : PathSet :=
  Paths "/st/Packages/User" "User/SublimeLinter" "/st/Packages/User/SublimeLinter"
    "Packages/Color Scheme - Legacy/Monokai.tmTheme" "Monokai" ".tmTheme".

Definition ex_xml : Scheme element :=
  xml_assemble_node (Scheme_init (scheme_orig ex_paths_tm) ex_paths_tm)
    "sublimelinter.gutter.style_001" {[ "foreground" := "#00ff00" ]} None.

Definition ex_world_tm : world :=
  World ∅ {[ "color_scheme" := scheme_orig ex_paths_tm ]} [].

(** the document an XML pass writes: the original tree with the dynamic
    nodes appended to its style array, when there is one *)
Definition xml_document (self : Scheme element) (scheme_text : resource)
    : option element :=
  match scheme_text with
  | TextResource _ (Some plist) => extend_styles plist (values (dynamic_nodes self))
  | _ => None
  end.

(** * More of the module *)

(** ** ElementPath *)

(** [plist.find('./dict/array')]: the first [array] child of a [dict] child
    of the root, in document order. *)
Definition find_dict_array (plist : element) : option element :=
  head (mbind (λ d, filter (λ a, tag a = "array") (children d))
          (filter (λ d, tag d = "dict") (children plist))).

(** [text] has [s] as a substring *)
Definition contains (text s : string) : Prop :=
  ∃ pre post, Str.chars text = (pre ++ Str.chars s ++ post)%list.

(** a registry of the JSON engine for a tmTheme original: one static and
    one dynamic node *)
Definition ex_json_tm : Scheme rule :=
  json_assemble_node
    (json_assemble_node (Scheme_init (scheme_orig ex_paths_tm) ex_paths_tm)
       "sublimelinter.mark.error" {[ "foreground" := "#FF0000" ]} None)
    "sublimelinter.gutter.style_001" {[ "foreground" := "#00FF00" ]} None.

(** a tmTheme text without any SublimeLinter entry *)
Definition ex_tm_text : string := "<plist><dict><key>settings</key><array/></dict></plist>".

(** the tree [ElementTree.XML] makes of [ex_tm_text] *)
Definition ex_tm_plist : element :=
  Element "plist" None
    [Element "dict" None
       [Element "key" (Some "settings") []; Element "array" None []]].

Definition ex_tm_resource : resource := TextResource ex_tm_text (Some ex_tm_plist).

(** the derived document a first pass of [ex_json_tm] leaves *)
Definition ex_world_after_first_pass : world :=
  World {[ new_scheme_path ex_json_tm :=
             JsonFile (Theme (Some (values (dynamic_nodes ex_json_tm))) ∅) ]}
    {[ "color_scheme" := scheme_orig ex_paths_tm ]} [].

Definition text_of (e : element) : option string := let 'Element _ tx _ := e in tx.

(** [e.extend(nodes)] *)
Definition extended (e : element) (nodes : list element) : element :=
  Element (tag e) (text_of e) (children e ++ nodes)%list.

(** [a], the [j]-th child of [d], itself the [i]-th child of the root, is
    the first [array] child of the first [dict] child that has one. *)
Definition first_dict_array (plist : element) (i j : nat) (d a : element) : Prop :=
  children plist !! i = Some d ∧ tag d = "dict"
  ∧ children d !! j = Some a ∧ tag a = "array"
  ∧ (∀ i' d' a', (i' < i)%nat → children plist !! i' = Some d' → tag d' = "dict" →
                 a' ∈ children d' → tag a' ≠ "array")
  ∧ (∀ j' a', (j' < j)%nat → children d !! j' = Some a' → tag a' ≠ "array").

(** the tree [plist] with the [j]-th child of its [i]-th child [d] replaced
    by [a'], everything else as it was *)
Definition replace_at (plist : element) (i j : nat) (d a' : element) : element :=
  Element (tag plist) (text_of plist)
    (<[i := Element (tag d) (text_of d) (<[j := a']> (children d))]> (children plist)).

(** the [array] children among [cs] *)
Definition arrays_of (cs : list element) : list element :=
  filter (λ a, tag a = "array") cs.

(** Registries built from the empty ones by [assemble_node], for either
    engine. *)
Inductive recorded {node : Type} : Scheme node → Prop :=
| recorded_empty scheme paths : recorded (Scheme_init scheme paths)
| recorded_node self scope n : recorded self → recorded (record_node self scope n).

(** the line feed *)
Definition lf : string := String "010"%char "".

(** A settings block of a tmTheme as [MARK_COLOR_RE] expects it: the string
    element with [sublimelinter.] before the scope, the settings key, and a
    dict that starts with a foreground colour. *)
Definition mark_block (scope colour : string) : string :=
  "<string>sublimelinter." +:+ scope +:+ "</string>" +:+ lf
  +:+ "<key>settings</key>" +:+ lf
  +:+ "<dict>" +:+ lf
  +:+ "<key>foreground</key>" +:+ lf
  +:+ "<string>#" +:+ colour +:+ "</string>" +:+ lf.

(** ** [re.sub] with an empty replacement

    Unlike a test for a match, a substitution depends on which match the
    engine takes.  [pmatch] follows the backtracking order of [re] for
    patterns whose quantifiers are greedy: the left branch of an alternative
    first, one more iteration of a repetition first.  It returns what is
    left of the input after the match the engine takes at the start of [s].
    An iteration of a repetition has to consume input. *)

Module ReSub.
Import Re.

Fixpoint pmatch (fuel : nat) : regex → list ascii →
    (list ascii → option (list ascii)) → option (list ascii) :=
  fix go (r : regex) (s : list ascii) (k : list ascii → option (list ascii))
      {struct r} : option (list ascii) :=
    match r with
    | Void => None
    | Eps => k s
    | Class p =>
        match s with
        | c :: s' => if p c then k s' else None
        | [] => None
        end
    | Cat r1 r2 => go r1 s (λ s1, go r2 s1 k)
    | Alt r1 r2 =>
        match go r1 s k with
        | Some rest => Some rest
        | None => go r2 s k
        end
    | Star r1 =>
        match fuel with
        | 0 => k s
        | S fuel' =>
            match go r1 s (λ s1, if (length s1 <? length s)%nat
                                 then pmatch fuel' (Star r1) s1 k else None) with
            | Some rest => Some rest
            | None => k s
            end
        end
    end.

(** the length of the match the engine takes at the start of [s] *)
Definition match_length (pat : regex) (s : list ascii) : option nat :=
  match pmatch (S (length s)) pat s Some with
  | Some rest => Some (length s - length rest)
  | None => None
  end.

(** [skip] characters of a match are still to be dropped *)
Fixpoint delete_go (pat : regex) (skip : nat) (s : list ascii) : list ascii :=
  match s with
  | [] => []
  | c :: s' =>
      match skip with
      | S n => delete_go pat n s'
      | 0 =>
          match match_length pat s with
          | Some (S n) => delete_go pat n s'
          | _ => c :: delete_go pat 0 s'   (* no match here, or an empty one *)
          end
      end
  end.

(** [re.sub(pat, "", s)] *)
Definition re_delete (pat : regex) (s : string) : string :=
  Str.of_chars (delete_go pat 0 (Str.chars s)).

End ReSub.

(** the pattern [r" ?\(SL\) ?|hidden-"] of [get_original_theme] *)
Definition MARKERS : Re.regex :=
  Re.Alt (Re.seq [Re.opt (Re.chr " "); Re.lit "(SL)"; Re.opt (Re.chr " ")])
    (Re.lit "hidden-").

(** ** PathResolver *)

(** [sub in s] *)
Fixpoint isin_go (sub s : list ascii) : bool :=
  bool_decide (sub `prefix_of` s)
  || match s with
     | [] => false
     | _ :: s' => isin_go sub s'
     end.

Definition isin (sub s : string) : bool := isin_go (Str.chars sub) (Str.chars s).

(** [Scheme.get_original_theme]; [find_resources] is
    [sublime.find_resources].  [current_scheme_path.split("/")[-1]] is the
    part after the last ["/"], which is what [Path.basename] computes. *)
Definition get_original_theme (find_resources : string → list string)
    (current_scheme_path : string) : string :=
  let current_scheme_file := Path.basename current_scheme_path in
  let pattern := ReSub.re_delete MARKERS current_scheme_file in
  let theme_list := find_resources pattern in
  let theme_list := filter (λ t, isin "Packages/User/" t = false) theme_list in
  match theme_list with
  | [] => current_scheme_path
  | t :: _ => t
  end.

(** [s.rfind(c)] on the characters: the index of the last [c] *)
Fixpoint rfind_go (c : ascii) (i : nat) (found : option nat) (s : list ascii)
    : option nat :=
  match s with
  | [] => found
  | x :: s' => rfind_go c (S i) (if Ascii.eqb x c then Some i else found) s'
  end.

Definition rfind (c : ascii) (s : list ascii) : option nat := rfind_go c 0 None s.

(** [os.path.splitext(p)]: the extension starts at the last dot, unless
    that dot is not after the last separator or only dots come before it in
    the file name. *)
Definition splitext (p : string) : string * string :=
  let l := Str.chars p in
  match rfind "." l with
  | None => (p, "")
  | Some dotIndex =>
      let filenameIndex := match rfind "/" l with Some sepIndex => S sepIndex | None => 0 end in
      if (filenameIndex <=? dotIndex)%nat
         && existsb (λ c, negb (Ascii.eqb c "."))
              (take (dotIndex - filenameIndex) (drop filenameIndex l))
      then (Str.of_chars (take dotIndex l), Str.of_chars (drop dotIndex l))
      else (p, "")
  end.

(** the host as [get_settings] sees it *)
Record host : Type := Host {
  packages_path : string;                    (* sublime.packages_path() *)
  find_resources : string → list string;     (* sublime.find_resources *)
  (* Preferences.sublime-settings in the user directory: [None] when there
     is no such file, otherwise whether [sublime.decode_value] accepts it *)
  preferences_file : option bool
}.

(** [Scheme.update_paths] *)
Definition update_paths {node} (h : host) (self : Scheme node) : Scheme node :=
  let p := paths self in
  MkScheme (static_nodes self) (dynamic_nodes self) (scheme self)
    (Paths (Path.join (packages_path h) "User") (usr_dir_rel p) (usr_dir_abs p)
       (scheme_orig p) (scheme_name p) (ext p)).

(** [Scheme.get_settings]: with an invalid preferences file it logs and
    returns, the instance untouched; otherwise it stores the [color_scheme]
    preference and the paths derived from it.  Without a [color_scheme]
    preference [self.scheme] is [None] and [get_original_theme] raises on
    [None.split]; the exception carries the world only, not the instance,
    whose [prefs] and [scheme] l.95-96 have overwritten by then. *)
Definition get_settings {node} (h : host) (self : Scheme node) : M (Scheme node) :=
  match preferences_file h with
  | Some false =>
      printf "generate_color_scheme: Preferences.sublime-settings invalid, aborting";;
      mret self
  | _ =>
      λ w,
      match prefs w !! "color_scheme" with
      | None => Raised AttributeError w
      | Some scheme =>
          let scheme_orig := get_original_theme (find_resources h) scheme in
          let scheme_base := Path.basename scheme_orig in
          let '(scheme_name, ext) := splitext scheme_base in
          let usr_dir_rel := Path.join "User" "SublimeLinter" in
          let usr_dir_abs := Path.join (packages_path h) usr_dir_rel in
          Ok (MkScheme (static_nodes self) (dynamic_nodes self) scheme
                (Paths (usr_dir (paths self)) usr_dir_rel usr_dir_abs
                   scheme_orig scheme_name ext)) w
      end
  end.

(** none of the markers [get_original_theme] removes starts at the head of
    [s] *)
Definition no_marker_at (s : list ascii) : Prop :=
  ¬ Str.chars "(SL)" `prefix_of` s
  ∧ ¬ Str.chars " (SL)" `prefix_of` s
  ∧ ¬ Str.chars "hidden-" `prefix_of` s.

(** no marker starts inside [name] when [tail] follows it *)
Definition marker_free (name tail : string) : Prop :=
  Forall (λ i, no_marker_at (drop i (Str.chars (name +:+ tail))))
    (seq 0 (String.length name)).

#[global] Instance no_marker_at_dec s : Decision (no_marker_at s).
Proof. unfold no_marker_at. apply _. Defined.

#[global] Instance marker_free_dec name tail : Decision (marker_free name tail).
Proof. unfold marker_free. apply _. Defined.

(** the resources of a search that are not in the user directory *)
Definition not_user (theme_list : list string) : list string :=
  filter (λ t, isin "Packages/User/" t = false) theme_list.

(** what [set_scheme_path(target)] adds to the log *)
Definition switch_events {node} (self : Scheme node) (target : string) : list event :=
  if decide (target = scheme self)
  then [Printf "Old scheme path detected. Pass."]
  else [Printf "New scheme path detected. Updating.";
        PrefSet "color_scheme" target;
        SaveSettings "Preferences.sublime-settings"].

(** the path an XML pass hands to [set_scheme_path] *)
Definition scheme_path_rel (self : Scheme element) : string :=
  packages_relative_path
    (Path.join (usr_dir_rel (paths self)) (Path.basename (mod_scheme_path self))).

(** ** [ElementTree.tostring] *)

(** [_escape_cdata] on one character *)
Definition escape_char (c : ascii) : list ascii :=
  if Ascii.eqb c "&" then Str.chars "&amp;"
  else if Ascii.eqb c "<" then Str.chars "&lt;"
  else if Ascii.eqb c ">" then Str.chars "&gt;"
  else [c].

Definition escape_cdata (s : string) : string :=
  Str.of_chars (concat (map escape_char (Str.chars s))).

(** [ElementTree.tostring(e, encoding='unicode')] of an element without
    attributes and tails: an element with neither text nor children is
    written [<tag />]. *)
Fixpoint tostring (e : element) : string :=
  let 'Element t tx cs := e in
  let text := default "" tx in
  if Str.truthy text || match cs with [] => false | _ => true end then
    "<" +:+ t +:+ ">" +:+ escape_cdata text
    +:+ (fix go (cs : list element) : string :=
           match cs with
           | [] => ""
           | c :: cs' => tostring c +:+ go cs'
           end) cs
    +:+ "</" +:+ t +:+ ">"
  else "<" +:+ t +:+ " />".

(** ** The pass as the host runs it *)

(** What the host hands over for a file a pass wrote: its text is the
    serialisation of the value written, and parsing that text gives the
    value back. *)
Definition resource_of (c : content) : resource :=
  match c with
  | XmlFile preamble plist => TextResource (preamble +:+ tostring plist) (Some plist)
  | JsonFile t => JsonResource t
  end.

(** [sublime.load_resource] as a function of the files and the name;
    [None] where the host has no such resource. *)
Definition loader : Type := world → string → option resource.

(** [sublime.load_resource(name)] raises [IOError] for a resource the host
    does not have. *)
Definition load_resource (l : loader) (name : string) : M resource :=
  λ w, match l w name with
       | Some r => Ok r w
       | None => Raised IOError w
       end.

(** [XmlScheme.generate_color_scheme_async] with its own
    [sublime.load_resource(self.paths["scheme_orig"])] (l.196) *)
Definition xml_pass (l : loader) (self : Scheme element) : M unit :=
  scheme_text ← load_resource l (scheme_orig (paths self));
  xml_generate_color_scheme_async self scheme_text.

(** [JsonScheme.generate_color_scheme_async] with its own
    [sublime.load_resource(self.get_original_theme(self.scheme))]
    (l.282-283) *)
Definition json_pass (h : host) (l : loader) (self : Scheme rule) : M unit :=
  let original_scheme := get_original_theme (find_resources h) (scheme self) in
  scheme_text ← load_resource l original_scheme;
  json_generate_color_scheme_async self scheme_text.

(** [Scheme.generate], as far as this module goes: [update_paths], then
    [get_settings], then the engine's pass unless [self.prefs and
    self.scheme] is false.  The host runs the pass from its queue
    ([set_timeout_async]); here it runs at once.  The style parser and the
    observer of the preferences belong to the modules [style] and [persist],
    which are not among the sources: the registries are the ones
    [assemble_node] has filled.  [self.prefs] is the empty dict only as long
    as [get_settings] has never got to l.95, and then [self.scheme] is still
    the empty string, so the guard of l.60 is the truth value of
    [self.scheme]. *)
Definition generate {node} (pass : Scheme node → M unit) (h : host)
    (self : Scheme node) : M (Scheme node) :=
  self ← get_settings h (update_paths h self);
  if Str.truthy (scheme self) then pass self;; mret self else mret self.

Definition xml_generate (h : host) (l : loader) : Scheme element → M (Scheme element) :=
  generate (xml_pass l) h.

Definition json_generate (h : host) (l : loader) : Scheme rule → M (Scheme rule) :=
  generate (json_pass h l) h.

(** C4 as the specification words it: after a pass, a second pass with the
    same registries leaves the derived files as the first pass left
    them. *)
Definition second_pass_same_output {node} (pass : Scheme node → M (Scheme node))
    (self : Scheme node) (w : world) : Prop :=
  ∀ self1 w1, pass self w = Ok self1 w1 →
    files (world_of (pass self1 w1)) = files w1.

(** C6 as the specification words it, on repeated passes: what a second
    pass writes is the file the first pass wrote. *)
Definition passes_overwrite_one_file {node} (pass : Scheme node → M (Scheme node))
    (self : Scheme node) (w : world) : Prop :=
  ∀ self1 w1 p1 p2,
    pass self w = Ok self1 w1 →
    wrote w w1 p1 → wrote w1 (world_of (pass self1 w1)) p2 → p2 = p1.

(** the resources named like [path] that the host lists outside the user
    directory start with [original] *)
Definition found_first (h : host) (file original : string) : Prop :=
  head (not_user (find_resources h file)) = Some original.

(** *** A theme of the user directory *)

(** a host whose resources are the files of its packages directory:
    [Packages/<rel>] is the file [<packages_path>/<rel>] *)
Definition disk_loader (packages_path : string) : loader :=
  λ w name,
    if Str.startswith name "Packages/" then
      resource_of <$>
        files w !! (packages_path +:+ "/" +:+ Str.of_chars (drop 9 (Str.chars name)))
    else None.

(** the only theme called [My.tmTheme] is the user's own *)
Definition ex_user_host : host :=
  Host "/st/Packages"
    (λ pattern, if String.eqb pattern "My.tmTheme" then ["Packages/User/My.tmTheme"]
                else [])
    None.

Definition ex_user_world : world :=
  World {[ "/st/Packages/User/My.tmTheme" := XmlFile COLOR_SCHEME_PREAMBLE ex_tm_plist ]}
    {[ "color_scheme" := "Packages/User/My.tmTheme" ]} [].

(** an instance as [__init__] leaves it *)
Definition no_paths : PathSet := Paths "" "" "" "" "" "".

(** the XML engine with one dynamic node *)
Definition ex_fresh_xml : Scheme element :=
  xml_assemble_node (Scheme_init "" no_paths)
    "sublimelinter.gutter.style_001" {[ "foreground" := "#00ff00" ]} None.

(** the node of [ex_fresh_xml] *)
Definition ex_node : element :=
  xml_node "sublimelinter.gutter.style_001" {[ "foreground" := "#00ff00" ]} None.

(** a theme of a package, for both engines *)
Definition ex_package_host : host :=
  Host "/st/Packages"
    (λ pattern,
       if String.eqb pattern "Monokai.tmTheme"
       then ["Packages/Color Scheme - Legacy/Monokai.tmTheme"]
       else if String.eqb pattern "Monokai.sublime-color-scheme"
       then ["Packages/Color Scheme - Default/Monokai.sublime-color-scheme";
             "Packages/User/Monokai.sublime-color-scheme"]
       else [])
    (Some true).

(** the resources of the packages, whatever the files *)
Definition ex_package_loader : loader :=
  λ _ name,
    if String.eqb name "Packages/Color Scheme - Legacy/Monokai.tmTheme"
    then Some ex_tm_resource
    else if String.eqb name "Packages/Color Scheme - Default/Monokai.sublime-color-scheme"
    then Some ex_original_bare
    else None.

Definition ex_fresh_json : Scheme rule :=
  json_assemble_node
    (json_assemble_node (Scheme_init "" no_paths)
       "sublimelinter.mark.error" {[ "foreground" := "#FF0000" ]} None)
    "sublimelinter.gutter.style_001" {[ "foreground" := "#00FF00" ]} None.

Definition ex_tm_prefs_world : world :=
  World ∅ {[ "color_scheme" := "Packages/Color Scheme - Legacy/Monokai.tmTheme" ]} [].

(** the paths [update_paths] and [get_settings] store when the
    [color_scheme] preference is [scheme] *)
Definition settings_of (h : host) (scheme : string) : PathSet :=
  let scheme_orig := get_original_theme (find_resources h) scheme in
  let '(scheme_name, ext) := splitext (Path.basename scheme_orig) in
  Paths (Path.join (packages_path h) "User") (Path.join "User" "SublimeLinter")
    (Path.join (packages_path h) (Path.join "User" "SublimeLinter"))
    scheme_orig scheme_name ext.

(** * Properties *)

Local Open Scope list_scope.

(** ** Strings *)

Lemma chars_of_chars l : Str.chars (Str.of_chars l) = l.
Proof. apply list_ascii_of_string_of_list_ascii. Qed.

Lemma of_chars_chars s : Str.of_chars (Str.chars s) = s.
Proof. apply string_of_list_ascii_of_string. Qed.

Lemma chars_inj s1 s2 : Str.chars s1 = Str.chars s2 → s1 = s2.
Proof.
  intros H. rewrite <- (of_chars_chars s1), <- (of_chars_chars s2). by rewrite H.
Qed.

Lemma chars_app s1 s2 : Str.chars (s1 +:+ s2) = (Str.chars s1 ++ Str.chars s2)%list.
Proof. induction s1 as [|c s1 IH]; simpl; [done | by rewrite <- IH]. Qed.

(** ** The derivative matcher decides the language of a pattern *)

Module ReFacts.
Import Re.

Lemma nullable_lang r : nullable r = true ↔ lang r [].
Proof.
  split.
  - induction r; simpl; intros H; try discriminate.
    + constructor.
    + apply andb_true_iff in H as [H1 H2].
      change (@nil ascii) with (@nil ascii ++ [])%list. constructor; auto.
    + apply orb_true_iff in H as [H|H]; [apply lang_alt_l | apply lang_alt_r]; auto.
    + constructor.
  - intros H. remember (@nil ascii) as s eqn:Hs.
    induction H; simpl; try discriminate; auto.
    + apply app_eq_nil in Hs as [-> ->]. rewrite IHlang1, IHlang2; auto.
    + rewrite IHlang; auto.
    + rewrite IHlang; auto. apply orb_true_r.
Qed.

Lemma lang_cat_inv r1 r2 s :
  lang (Cat r1 r2) s → ∃ s1 s2, s = (s1 ++ s2)%list ∧ lang r1 s1 ∧ lang r2 s2.
Proof. inversion 1; subst; eauto. Qed.

Lemma lang_alt_inv r1 r2 s : lang (Alt r1 r2) s → lang r1 s ∨ lang r2 s.
Proof. inversion 1; subst; eauto. Qed.

Lemma lang_class_inv p s : lang (Class p) s → ∃ c, s = [c] ∧ p c = true.
Proof. inversion 1; subst; eauto. Qed.

Lemma lang_cat_cons r1 r2 c s1 s2 :
  lang r1 (c :: s1) → lang r2 s2 → lang (Cat r1 r2) (c :: s1 ++ s2).
Proof. intros H1 H2. apply (lang_cat _ _ (c :: s1) s2 H1 H2). Qed.

Lemma lang_cat_nil r1 r2 s : lang r1 [] → lang r2 s → lang (Cat r1 r2) s.
Proof. intros H1 H2. apply (lang_cat _ _ [] s H1 H2). Qed.

Lemma star_cons_inv r c s :
  lang (Star r) (c :: s) →
  ∃ s1 s2, s = (s1 ++ s2)%list ∧ lang r (c :: s1) ∧ lang (Star r) s2.
Proof.
  intros H. remember (Star r) as r' eqn:Hr. remember (c :: s) as cs eqn:Hcs.
  revert s Hcs.
  induction H; intros s' Hcs; try discriminate.
  injection Hr as ->.
  destruct s1 as [|c1 s1]; simpl in Hcs.
  - subst s2. by apply IHlang2.
  - injection Hcs as Hc Hs. subst. eauto.
Qed.

Lemma deriv_lang c r : ∀ s, lang (deriv c r) s ↔ lang r (c :: s).
Proof.
  induction r as [| |p|r1 IH1 r2 IH2|r1 IH1 r2 IH2|r IH]; intros s; simpl.
  - split; inversion 1.
  - split; inversion 1.
  - destruct (p c) eqn:Hp; split; intros H.
    + inversion H; subst. by constructor.
    + apply lang_class_inv in H as (c' & Heq & _). simplify_eq. constructor.
    + inversion H.
    + apply lang_class_inv in H as (c' & Heq & H). simplify_eq. congruence.
  - assert (Hinv : lang (Cat r1 r2) (c :: s) →
              (∃ s1 s2, s = (s1 ++ s2)%list ∧ lang (deriv c r1) s1 ∧ lang r2 s2)
              ∨ (lang r1 [] ∧ lang (deriv c r2) s)).
    { intros H. apply lang_cat_inv in H as (s1 & s2 & Heq & H1 & H2).
      destruct s1 as [|c1 s1]; simpl in Heq.
      - right. split; [done|]. apply IH2. by subst.
      - injection Heq as Hc Hs. subst. left. exists s1, s2.
        split_and!; [done| |done]. by apply IH1. }
    destruct (nullable r1) eqn:Hn.
    + split.
      * intros H. apply lang_alt_inv in H as [H|H].
        -- apply lang_cat_inv in H as (s1 & s2 & -> & H1 & H2).
           apply lang_cat_cons; [by apply IH1 | done].
        -- apply lang_cat_nil; [by apply nullable_lang | by apply IH2].
      * intros H. destruct (Hinv H) as [(s1 & s2 & -> & H1 & H2)|[_ H2]].
        -- apply lang_alt_l. by constructor.
        -- by apply lang_alt_r.
    + split.
      * intros H. apply lang_cat_inv in H as (s1 & s2 & -> & H1 & H2).
        apply lang_cat_cons; [by apply IH1 | done].
      * intros H. destruct (Hinv H) as [(s1 & s2 & -> & H1 & H2)|[H1 _]].
        -- by constructor.
        -- apply nullable_lang in H1. congruence.
  - split; intros H; apply lang_alt_inv in H as [H|H].
    + apply lang_alt_l. by apply IH1.
    + apply lang_alt_r. by apply IH2.
    + apply lang_alt_l. by apply IH1.
    + apply lang_alt_r. by apply IH2.
  - split.
    + intros H. apply lang_cat_inv in H as (s1 & s2 & -> & H1 & H2).
      apply IH in H1.
      apply (lang_star_cons _ (c :: s1) s2 H1 H2).
    + intros H. apply star_cons_inv in H as (s1 & s2 & -> & H1 & H2).
      constructor; [by apply IH | done].
Qed.

Lemma matches_lang s : ∀ r, matches r s = true ↔ lang r s.
Proof.
  induction s as [|c s IH]; intros r; simpl.
  - apply nullable_lang.
  - rewrite IH. apply deriv_lang.
Qed.

Lemma lang_star_any s : lang (Star any) s.
Proof.
  induction s as [|c s IH]; [constructor|].
  change (c :: s) with ([c] ++ s)%list. constructor; [|done]. by constructor.
Qed.

(** [re.match] succeeds iff a prefix is a word of the pattern *)
Lemma re_match_lang pat s :
  re_match pat s = true ↔ ∃ x rest, Str.chars s = (x ++ rest)%list ∧ lang pat x.
Proof.
  unfold re_match. rewrite matches_lang. split.
  - intros H. apply lang_cat_inv in H as (x & rest & Hs & H & _). eauto.
  - intros (x & rest & -> & H). constructor; [done | apply lang_star_any].
Qed.

(** [re.search] succeeds iff a substring is a word of the pattern *)
Lemma re_search_lang pat s :
  re_search pat s = true ↔
  ∃ pre x rest, Str.chars s = (pre ++ x ++ rest)%list ∧ lang pat x.
Proof.
  unfold re_search. rewrite matches_lang. split.
  - intros H. apply lang_cat_inv in H as (pre & s2 & Hs & _ & H).
    apply lang_cat_inv in H as (x & rest & -> & H & _). eauto.
  - intros (pre & x & rest & -> & H).
    constructor; [apply lang_star_any|]. constructor; [done | apply lang_star_any].
Qed.

(** whatever [re.match] finds, [re.search] finds *)
Lemma re_match_search pat s : re_match pat s = true → re_search pat s = true.
Proof.
  rewrite re_match_lang, re_search_lang. intros (x & rest & Hs & H).
  by exists [], x, rest.
Qed.

Lemma lang_chr c s : lang (chr c) s ↔ s = [c].
Proof.
  unfold chr. split.
  - intros H. apply lang_class_inv in H as (c' & -> & H).
    apply Ascii.eqb_eq in H. by subst.
  - intros ->. constructor. apply Ascii.eqb_refl.
Qed.

Lemma lang_lit_chars l s : lang (lit_chars l) s ↔ s = l.
Proof.
  revert s. induction l as [|c l IH]; intros s; simpl.
  - split; [by inversion 1 | intros ->; constructor].
  - split.
    + intros H. apply lang_cat_inv in H as (s1 & s2 & -> & H1 & H2).
      apply lang_chr in H1 as ->. apply IH in H2 as ->. done.
    + intros ->. change (c :: l) with ([c] ++ l)%list.
      constructor; [by apply lang_chr | by apply IH].
Qed.

Lemma lang_star_class p s : lang (Star (Class p)) s ↔ Forall (λ c, p c = true) s.
Proof.
  split.
  - intros H. remember (Star (Class p)) as r eqn:Hr.
    induction H; try discriminate; [constructor|].
    injection Hr as ->. apply lang_class_inv in H as (c & -> & H).
    constructor; auto.
  - induction 1 as [|c s Hc _ IH]; [constructor|].
    change (c :: s) with ([c] ++ s)%list. constructor; [by constructor | done].
Qed.

End ReFacts.

(** ** The dynamic-scope pattern *)

Lemma lang_plus_class p s :
  Re.lang (Re.plus (Re.Class p)) s ↔ s ≠ [] ∧ Forall (λ c, p c = true) s.
Proof.
  unfold Re.plus. split.
  - intros H. apply ReFacts.lang_cat_inv in H as (s1 & s2 & -> & H1 & H2).
    apply ReFacts.lang_class_inv in H1 as (c & -> & Hc).
    apply ReFacts.lang_star_class in H2. split; [done|]. by constructor.
  - intros [Hne H]. destruct H as [|c s Hc H]; [done|].
    apply (Re.lang_cat _ _ [c] s); [by constructor|].
    by apply ReFacts.lang_star_class.
Qed.

Lemma lang_three_or_more_class p s :
  Re.lang (Re.three_or_more (Re.Class p)) s ↔
  (3 ≤ length s)%nat ∧ Forall (λ c, p c = true) s.
Proof.
  unfold Re.three_or_more. split.
  - intros H.
    apply ReFacts.lang_cat_inv in H as (s1 & t1 & -> & H1 & H).
    apply ReFacts.lang_cat_inv in H as (s2 & t2 & -> & H2 & H).
    apply ReFacts.lang_cat_inv in H as (s3 & t3 & -> & H3 & H).
    apply ReFacts.lang_class_inv in H1 as (c1 & -> & Hc1).
    apply ReFacts.lang_class_inv in H2 as (c2 & -> & Hc2).
    apply ReFacts.lang_class_inv in H3 as (c3 & -> & Hc3).
    apply ReFacts.lang_star_class in H. simpl. split; [lia|].
    by repeat constructor.
  - intros [Hlen H].
    destruct H as [|c1 s Hc1 H]; [simpl in Hlen; lia|].
    destruct H as [|c2 s Hc2 H]; [simpl in Hlen; lia|].
    destruct H as [|c3 s Hc3 H]; [simpl in Hlen; lia|].
    apply (Re.lang_cat _ _ [c1] (c2 :: c3 :: s)); [by constructor|].
    apply (Re.lang_cat _ _ [c2] (c3 :: s)); [by constructor|].
    apply (Re.lang_cat _ _ [c3] s); [by constructor|].
    by apply ReFacts.lang_star_class.
Qed.

Lemma length_chars s : length (Str.chars s) = String.length s.
Proof. induction s; simpl; auto. Qed.

(** [re.match(DYN_PAT, scope)] accepts exactly the scopes of the dynamic
    form. *)
Lemma DYN_PAT_match scope :
  Re.re_match DYN_PAT scope = true ↔ dynamic_scope scope.
Proof.
  rewrite ReFacts.re_match_lang. unfold DYN_PAT, dynamic_scope. simpl Re.seq. split.
  - intros (x & rest & Hs & H).
    apply ReFacts.lang_cat_inv in H as (x1 & y1 & -> & H1 & H).
    apply ReFacts.lang_cat_inv in H as (x2 & y2 & -> & H2 & H).
    apply ReFacts.lang_cat_inv in H as (w & y3 & -> & Hw & H).
    apply ReFacts.lang_cat_inv in H as (x3 & y4 & -> & H3 & H).
    apply ReFacts.lang_cat_inv in H as (x4 & y5 & -> & H4 & H).
    apply ReFacts.lang_cat_inv in H as (n & y6 & -> & Hn & H).
    apply ReFacts.lang_lit_chars in H1 as ->, H4 as ->.
    apply ReFacts.lang_chr in H2 as ->, H3 as ->.
    apply lang_plus_class in Hw as [Hw1 Hw2].
    apply lang_three_or_more_class in Hn as [Hn1 Hn2].
    inversion H; subst.
    exists (Str.of_chars w), (Str.of_chars n), (Str.of_chars rest).
    rewrite !chars_of_chars. split_and!; try done.
    + apply chars_inj. rewrite !chars_app, !chars_of_chars, Hs.
      rewrite app_nil_r. simpl. rewrite <- ?app_assoc. simpl.
      by rewrite <- ?app_assoc.
    + intros Hnil. apply Hw1. by rewrite <- (chars_of_chars w), Hnil.
    + by rewrite <- length_chars, chars_of_chars.
  - intros (word & n & rest & -> & Hne & Hw & Hlen & Hn).
    exists (Str.chars ("sublimelinter." +:+ word +:+ ".style_" +:+ n)), (Str.chars rest).
    split.
    + rewrite !chars_app. by rewrite <- !app_assoc.
    + rewrite !chars_app.
      apply (Re.lang_cat _ _ (Str.chars "sublimelinter")
               ("."%char :: Str.chars word ++ Str.chars ".style_" ++ Str.chars n));
        [by apply ReFacts.lang_lit_chars|].
      apply (Re.lang_cat _ _ ["."%char]); [by apply ReFacts.lang_chr|].
      apply Re.lang_cat.
      { apply lang_plus_class. split; [|done].
        destruct word; [done | discriminate]. }
      apply (Re.lang_cat _ _ ["."%char] (Str.chars "style_" ++ Str.chars n));
        [by apply ReFacts.lang_chr|].
      apply Re.lang_cat; [by apply ReFacts.lang_lit_chars|].
      rewrite <- (app_nil_r (Str.chars n)).
      apply Re.lang_cat; [|constructor].
      apply lang_three_or_more_class. by rewrite length_chars.
Qed.

(** ** NodeAssembler *)

Lemma record_node_dynamic {node} (self : Scheme node) scope (n : node) :
  Re.re_match DYN_PAT scope = true →
  dynamic_nodes (record_node self scope n) = <[scope := n]> (dynamic_nodes self)
  ∧ static_nodes (record_node self scope n) = static_nodes self.
Proof. intros H. unfold record_node. by rewrite H. Qed.

Lemma record_node_static {node} (self : Scheme node) scope (n : node) :
  Re.re_match DYN_PAT scope = false →
  static_nodes (record_node self scope n) = <[scope := n]> (static_nodes self)
  ∧ dynamic_nodes (record_node self scope n) = dynamic_nodes self.
Proof. intros H. unfold record_node. by rewrite H. Qed.

(** C3.  A scope that matches [sublimelinter.<word>.style_<n>], [n] of at
    least three digits (matched as [re.match] does, from the start of the
    scope), is recorded by [assemble_node] in [dynamic_nodes] under that
    scope and leaves [static_nodes] alone; every other scope is recorded in
    [static_nodes] and leaves [dynamic_nodes] alone.  This holds for the
    JSON engine and for the XML engine. *)
Theorem assemble_node_classifies
    (jself : Scheme rule) (xself : Scheme element)
    (scope : string) (input_dict : gmap string string) (name : option string) :
  let j := json_assemble_node jself scope input_dict name in
  let x := xml_assemble_node xself scope input_dict name in
  (dynamic_scope scope →
     (dynamic_nodes j = <[scope := husk scope input_dict name]> (dynamic_nodes jself)
      ∧ static_nodes j = static_nodes jself)
     ∧ (dynamic_nodes x = <[scope := xml_node scope input_dict name]> (dynamic_nodes xself)
        ∧ static_nodes x = static_nodes xself))
  ∧ (¬ dynamic_scope scope →
     (static_nodes j = <[scope := husk scope input_dict name]> (static_nodes jself)
      ∧ dynamic_nodes j = dynamic_nodes jself)
     ∧ (static_nodes x = <[scope := xml_node scope input_dict name]> (static_nodes xself)
        ∧ dynamic_nodes x = dynamic_nodes xself)).
Proof.
  intros j x. subst j x. unfold json_assemble_node, xml_assemble_node. split.
  - intros H%DYN_PAT_match. split; by apply record_node_dynamic.
  - intros H. assert (Re.re_match DYN_PAT scope = false) as Hf.
    { destruct (Re.re_match DYN_PAT scope) eqn:E; [|done].
      by apply DYN_PAT_match in E. }
    split; by apply record_node_static.
Qed.

(** ** ActiveThemeSwitcher *)

(** unfolds the operations of the monad *)
Ltac run_M :=
  unfold mbind, M_bind, mret, M_ret, printf, save_settings, emit, prefs_set,
    write_file, raise in *;
  simpl in *.

Lemma new_events_app w l fs ps :
  new_events w (World fs ps (log w ++ l)) = l.
Proof. unfold new_events. simpl. by rewrite drop_app_length. Qed.

(** C9.  [set_scheme_path(new_path)] neither writes the preference nor
    persists the settings when [new_path] is the active scheme path (it only
    logs); when the two differ it sets [color_scheme] to [new_path] and
    persists.  The files are untouched either way. *)
Theorem set_scheme_path_only_if_different {node}
    (self : Scheme node) (new_path : string) (w : world) :
  let w' := world_of (set_scheme_path self new_path w) in
  files w' = files w
  ∧ (new_path = scheme self →
       prefs w' = prefs w
       ∧ new_events w w' = [Printf "Old scheme path detected. Pass."])
  ∧ (new_path ≠ scheme self →
       prefs w' = <["color_scheme" := new_path]> (prefs w)
       ∧ new_events w w' =
           [Printf "New scheme path detected. Updating.";
            PrefSet "color_scheme" new_path;
            SaveSettings "Preferences.sublime-settings"]).
Proof.
  unfold set_scheme_path. destruct (decide (new_path ≠ scheme self)) as [Hne|Heq].
  - run_M. split_and!; [done|done|]. intros _. split; [done|].
    unfold new_events. simpl. rewrite <- !app_assoc. by rewrite drop_app_length.
  - run_M. split_and!; [done| |done]. intros _. split; [done|].
    unfold new_events. simpl. by rewrite drop_app_length.
Qed.

(** ** ScopeDiffer, structured variant *)

Lemma scopes_declared_in_cons node D :
  scopes_declared_in (node :: D) = list_to_set (def_scopes node) ∪ scopes_declared_in D.
Proof. done. Qed.

Lemma scopes_declared_in_app D1 D2 :
  scopes_declared_in (D1 ++ D2) = scopes_declared_in D1 ∪ scopes_declared_in D2.
Proof.
  unfold scopes_declared_in. rewrite fmap_app. apply leibniz_equiv, union_list_app.
Qed.

Lemma parse_loop_Some D : ∀ U U',
  parse_loop U D = Some U' → U' = U ∖ scopes_declared_in D.
Proof.
  induction D as [|node D IH]; intros U U'; simpl.
  - intros [= <-]. unfold scopes_declared_in. simpl. set_solver.
  - case_decide as Hd; [done|]. intros HU%IH. rewrite scopes_declared_in_cons. set_solver.
Qed.

Lemma parse_loop_None D : ∀ U,
  parse_loop U D = None → D ≠ [] ∧ U ∖ scopes_declared_in D = ∅.
Proof.
  induction D as [|node D IH]; intros U; simpl; [done|].
  rewrite scopes_declared_in_cons. case_decide as Hd.
  - intros _. split; [done|]. set_solver.
  - intros [_ H]%IH. split; [done|]. set_solver.
Qed.

(** the early return: once a non-empty prefix of the rules covers the
    required scopes, the loop stops there *)
Lemma parse_loop_covered D1 D2 : ∀ U,
  D1 ≠ [] → U ⊆ scopes_declared_in D1 → parse_loop U (D1 ++ D2) = None.
Proof.
  induction D1 as [|node D1 IH]; intros U Hne Hsub; [done|].
  simpl. case_decide as Hd; [done|].
  rewrite scopes_declared_in_cons in Hsub.
  apply IH; [|set_solver].
  intros ->. apply Hd. unfold scopes_declared_in in Hsub. simpl in Hsub. set_solver.
Qed.

Lemma parse_scheme_json_restrict (R : gmap string rule) (D : list rule) :
  parse_scheme_json (ScopeDict R) D
    = Return (filter (λ kv, kv.1 ∉ scopes_declared_in D) R).
Proof.
  unfold parse_scheme_json. simpl.
  destruct (parse_loop (dom R) D) as [U'|] eqn:E.
  - apply parse_loop_Some in E as ->. f_equal.
    apply map_filter_ext. intros i x Hix. simpl.
    apply (elem_of_dom_2 (D := gset string)) in Hix. set_solver.
  - apply parse_loop_None in E as [_ E]. f_equal. symmetry.
    apply map_empty_filter. intros i x Hix. simpl.
    apply (elem_of_dom_2 (D := gset string)) in Hix. set_solver.
Qed.

(** C1.  For a required mapping [R] and rules [D], [parse_scheme_json]
    returns the restriction of [R] to the scopes no rule of [D] declares:
    its keys are [dom R ∖ scopes_declared_in D]; the result depends on [D]
    only through the set of declared scopes, however they are grouped into
    rules; and as soon as a non-empty prefix of the rules covers every
    required scope the empty mapping is returned, whatever follows. *)
Theorem parse_scheme_json_diff (R : gmap string rule) (D : list rule) :
  parse_scheme_json (ScopeDict R) D
    = Return (filter (λ kv, kv.1 ∉ scopes_declared_in D) R)
  ∧ dom (filter (λ kv : string * rule, kv.1 ∉ scopes_declared_in D) R)
      = dom R ∖ scopes_declared_in D
  ∧ (∀ D', scopes_declared_in D' = scopes_declared_in D →
       parse_scheme_json (ScopeDict R) D' = parse_scheme_json (ScopeDict R) D)
  ∧ (∀ D2, D ≠ [] → dom R ⊆ scopes_declared_in D →
       parse_scheme_json (ScopeDict R) (D ++ D2) = Return ∅).
Proof.
  pose proof (parse_scheme_json_restrict R) as Hmain.
  split_and!.
  - apply Hmain.
  - apply set_eq. intros i. rewrite elem_of_difference, !elem_of_dom.
    unfold is_Some. setoid_rewrite map_lookup_filter_Some. simpl. naive_solver.
  - intros D' HD'. rewrite !Hmain. by rewrite HD'.
  - intros D2 Hne Hsub. unfold parse_scheme_json. simpl.
    by rewrite parse_loop_covered.
Qed.

(** ** Purging stale dynamic rules *)

Lemma remove_dyn_rules_filter rules :
  remove_dyn_rules rules = filter preserved rules.
Proof.
  induction rules as [|r rules IH]; [done|]. simpl.
  assert (keeps r = true ↔ preserved r) as Hk.
  { unfold keeps, preserved. destruct (r !! "scope") as [s|].
    - rewrite negb_true_iff. naive_solver.
    - naive_solver. }
  rewrite IH. destruct (keeps r).
  - rewrite filter_cons_True; [done | by apply Hk].
  - rewrite filter_cons_False; [done|]. intros H%Hk. done.
Qed.

(** ** The passes in normal form *)

Lemma json_generate_unfold self scheme_text w :
  json_generate_color_scheme_async self scheme_text w = json_outcome self scheme_text w.
Proof.
  unfold json_generate_color_scheme_async, json_outcome, json_finish.
  unfold mbind at 1. unfold M_bind at 1.
  destruct (find_unfound self scheme_text) as [unfound|e]; simpl; [|done].
  unfold mret at 1. unfold M_ret at 1.
  destruct (negb (scopes_truthy unfound) && bool_decide (dynamic_nodes self = ∅));
    [done|].
  unfold path_exists, reload_theme, json_load, notice, unfound_scopes_dialogue, lift.
  unfold mbind, M_bind, mret, M_ret.
  destruct (files w !! new_scheme_path self) as [[[[old|] other]|pre plist]|] eqn:Hf.
  - cbn [bool_decide decide_rel rules other_keys].
    rewrite bool_decide_eq_true_2 by eauto. rewrite Hf. cbn [rules other_keys].
    destruct (bool_decide (old ≠ [])) eqn:Hold; cbn [andb].
    + destruct (scopes_truthy unfound).
      * destruct (parse_scheme_json unfound old) as [u'|e]; [|done].
        destruct (bool_decide (u' ≠ ∅)); run_M; [|done].
        by rewrite <- !app_assoc.
      * run_M. done.
    + apply bool_decide_eq_false in Hold. apply dec_stable in Hold as ->.
      run_M. done.
  - rewrite bool_decide_eq_true_2 by eauto. by rewrite Hf.
  - rewrite bool_decide_eq_true_2 by eauto. by rewrite Hf.
  - rewrite bool_decide_eq_false_2 by (by intros [? ?]). run_M. done.
Qed.

Lemma xml_generate_unfold self scheme_text w :
  xml_generate_color_scheme_async self scheme_text w = xml_outcome self scheme_text w.
Proof.
  unfold xml_generate_color_scheme_async, xml_outcome, xml_finish.
  destruct scheme_text as [text [plist|]|doc]; [|done|done].
  unfold mbind at 1. unfold M_bind at 1. unfold mret at 1. unfold M_ret at 1.
  destruct (extend_styles plist (values (dynamic_nodes self))) as [plist'|]; [|done].
  unfold unfound_scopes_dialogue, notice_event.
  destruct (bool_decide (parse_scheme_xml (keys (static_nodes self)) text ≠ []));
    run_M; [|done].
  by rewrite <- !app_assoc.
Qed.

(** [set_scheme_path] always returns, leaves the files alone and only adds
    to the log *)
Lemma set_scheme_path_Ok {node} (self : Scheme node) path w :
  ∃ w', set_scheme_path self path w = Ok tt w'
        ∧ files w' = files w
        ∧ (∃ l, log w' = (log w ++ l)%list)
        ∧ (∀ p, FileWrite p ∉ new_events w w')
        ∧ (prefs w !! "color_scheme" = Some (scheme self) →
           prefs w' !! "color_scheme" = Some path).
Proof.
  unfold set_scheme_path. destruct (decide (path ≠ scheme self)) as [Hne|Heq]; run_M.
  - eexists. split; [done|]. simpl. rewrite <- !app_assoc. simpl. split_and!.
    + done.
    + by eexists.
    + intros p. rewrite new_events_app. rewrite !elem_of_cons. set_solver.
    + intros _. by rewrite lookup_insert_eq.
  - eexists. split; [done|]. simpl. split_and!.
    + done.
    + by eexists.
    + intros p. rewrite new_events_app. rewrite !elem_of_cons. set_solver.
    + apply dec_stable in Heq as ->. done.
Qed.

Lemma new_events_app_l w w' l :
  log w' = (log w ++ l)%list → new_events w w' = l.
Proof. intros H. unfold new_events. rewrite H. by rewrite drop_app_length. Qed.

(** what the end of a pass does: the file is written, nothing else is, and
    the preference is switched to [target] *)
Lemma finish_spec {node} (self : Scheme node) target path c notes w :
  (∀ p, FileWrite p ∉ notes) →
  ∃ w', set_scheme_path self target
          (World (<[path := c]> (files w)) (prefs w)
             (log w ++ notes ++ [FileWrite path])%list) = Ok tt w'
        ∧ files w' = <[path := c]> (files w)
        ∧ wrote w w' path
        ∧ (∀ p, wrote w w' p → p = path)
        ∧ (prefs w !! "color_scheme" = Some (scheme self) →
           prefs w' !! "color_scheme" = Some target).
Proof.
  intros Hnotes.
  set (w1 := World (<[path := c]> (files w)) (prefs w)
               (log w ++ notes ++ [FileWrite path])%list).
  destruct (set_scheme_path_Ok self target w1) as (w' & E & Hf & [l Hl] & Hnw & Hp).
  exists w'. split; [done|]. split; [done|].
  assert (new_events w1 w' = l) as Hl1 by by apply new_events_app_l.
  assert (new_events w w' = (notes ++ [FileWrite path] ++ l)%list) as Hev.
  { apply new_events_app_l. rewrite Hl. subst w1. simpl.
    by rewrite <- !app_assoc. }
  unfold wrote. rewrite Hev. split_and!.
  - rewrite !elem_of_app, list_elem_of_singleton. auto.
  - intros p. rewrite !elem_of_app, list_elem_of_singleton.
    intros [H|[H|H]]; [by apply Hnotes in H | congruence |].
    rewrite <- Hl1 in H. by apply Hnw in H.
  - apply Hp.
Qed.

Lemma notes_no_write (b : bool) (l : list string) p :
  FileWrite p ∉ (if b then [notice_event l] else []).
Proof. destruct b; [|by apply not_elem_of_nil]. by rewrite list_elem_of_singleton. Qed.

Lemma new_events_refl w : new_events w w = [].
Proof. unfold new_events. by rewrite drop_all. Qed.

(** ** Paths *)

Lemma basename_go_nosep l : ∀ cur,
  "/"%char ∉ l → Path.basename_go cur l = (cur ++ l)%list.
Proof.
  induction l as [|c l IH]; intros cur Hl; simpl; [by rewrite app_nil_r|].
  apply not_elem_of_cons in Hl as [Hc Hl].
  destruct (Ascii.eqb c "/") eqn:E; [apply Ascii.eqb_eq in E; congruence|].
  rewrite IH by done. by rewrite <- app_assoc.
Qed.

Lemma basename_go_sep a l : ∀ cur,
  "/"%char ∉ l → Path.basename_go cur (a ++ "/"%char :: l) = l.
Proof.
  induction a as [|c a IH]; intros cur Hl; simpl.
  - by rewrite basename_go_nosep.
  - destruct (Ascii.eqb c "/"); by apply IH.
Qed.

(** the base name of [dir/file] is [file] *)
Lemma basename_join dir file :
  "/"%char ∉ Str.chars file → Path.basename (Path.join dir file) = file.
Proof.
  intros Hf. unfold Path.basename, Path.join, Str.startswith, Str.endswith.
  case_bool_decide as Hs.
  { destruct Hs as [k Hk]. rewrite Hk in Hf. simpl in Hf. set_solver. }
  destruct (negb (Str.truthy dir) || bool_decide (Str.chars "/" `suffix_of` Str.chars dir))
    eqn:E.
  - apply orb_true_iff in E as [E|E].
    + destruct dir; [|done]. simpl. rewrite basename_go_nosep by done.
      apply of_chars_chars.
    + apply bool_decide_eq_true in E as [k Hk].
      rewrite chars_app, Hk. simpl. rewrite <- app_assoc. simpl.
      rewrite basename_go_sep by done. apply of_chars_chars.
  - rewrite !chars_app. simpl. rewrite basename_go_sep by done.
    apply of_chars_chars.
Qed.

Lemma components_go_nosep l : ∀ cur,
  "/"%char ∉ l → (cur ++ l)%list ≠ [] →
  components_go cur l = [Str.of_chars (cur ++ l)].
Proof.
  induction l as [|c l IH]; intros cur Hl Hne; simpl.
  - rewrite app_nil_r in *. by destruct cur.
  - apply not_elem_of_cons in Hl as [Hc Hl].
    destruct (Ascii.eqb c "/") eqn:E; [apply Ascii.eqb_eq in E; congruence|].
    rewrite IH; [by rewrite <- app_assoc | done |].
    rewrite <- app_assoc. simpl. by destruct cur.
Qed.

(** ** Facts about the purge and the registries *)

Lemma keeps_preserved r : keeps r = true ↔ preserved r.
Proof.
  unfold keeps, preserved. destruct (r !! "scope") as [s|].
  - rewrite negb_true_iff. naive_solver.
  - naive_solver.
Qed.

Lemma keeps_dynamic r : dynamic_rule r → keeps r = false.
Proof. intros (s & Hs & H). unfold keeps. by rewrite Hs, H. Qed.

Lemma preserved_not_dynamic r : preserved r → ¬ dynamic_rule r.
Proof. intros (s & Hs & H) (s' & Hs' & H'). congruence. Qed.

Lemma elem_of_remove_dyn_rules rules r :
  r ∈ remove_dyn_rules rules ↔ r ∈ rules ∧ preserved r.
Proof. rewrite remove_dyn_rules_filter, list_elem_of_filter. tauto. Qed.

Lemma remove_dyn_rules_app l1 l2 :
  remove_dyn_rules (l1 ++ l2) = (remove_dyn_rules l1 ++ remove_dyn_rules l2)%list.
Proof.
  induction l1 as [|r l1 IH]; [done|]. simpl. destruct (keeps r); simpl; by rewrite IH.
Qed.

Lemma remove_dyn_rules_idemp l :
  remove_dyn_rules (remove_dyn_rules l) = remove_dyn_rules l.
Proof.
  induction l as [|r l IH]; [done|]. simpl. destruct (keeps r) eqn:E; simpl.
  - by rewrite E, IH.
  - done.
Qed.

Lemma remove_dyn_rules_all_dynamic l :
  (∀ r, r ∈ l → dynamic_rule r) → remove_dyn_rules l = [].
Proof.
  induction l as [|r l IH]; intros H; [done|]. simpl.
  rewrite keeps_dynamic by (apply H; left). apply IH. intros r' Hr'. apply H. by right.
Qed.

Lemma husk_scope scope input_dict name :
  husk scope input_dict name !! "scope" = Some scope.
Proof.
  unfold husk.
  apply (map_fold_weak_ind (λ (r : rule) (_ : gmap string string),
                              r !! "scope" = Some scope)).
  - by rewrite lookup_insert_ne, lookup_insert_eq.
  - intros i x m r _ IH. case_bool_decide as Hi; [|done].
    rewrite lookup_insert_ne; [done|]. intros ->.
    unfold used_keys in Hi. rewrite !elem_of_cons, elem_of_nil in Hi.
    naive_solver.
Qed.

(** every node of an assembled dynamic registry carries its own key as
    scope, and that key begins with the dynamic pattern *)
Lemma assembled_dynamic self :
  assembled self →
  ∀ k v, dynamic_nodes self !! k = Some v →
         v !! "scope" = Some k ∧ Re.re_match DYN_PAT k = true.
Proof.
  induction 1 as [|self scope input_dict name _ IH]; intros k v; simpl.
  - by rewrite lookup_empty.
  - unfold json_assemble_node, record_node.
    destruct (Re.re_match DYN_PAT scope) eqn:E; simpl; [|apply IH].
    destruct (decide (scope = k)) as [->|Hne].
    + rewrite lookup_insert_eq. intros [= <-]. split; [apply husk_scope | done].
    + rewrite lookup_insert_ne by done. apply IH.
Qed.

Lemma assembled_values_dynamic self r :
  assembled self → r ∈ values (dynamic_nodes self) → dynamic_rule r.
Proof.
  intros Ha. unfold values. rewrite list_elem_of_fmap.
  intros ([k v] & -> & Hkv%elem_of_map_to_list). simpl.
  destruct (assembled_dynamic _ Ha _ _ Hkv) as [Hs Hm].
  exists k. split; [done|]. by apply ReFacts.re_match_search.
Qed.

Lemma remove_dyn_rules_values self :
  assembled self → remove_dyn_rules (values (dynamic_nodes self)) = [].
Proof.
  intros Ha. apply remove_dyn_rules_all_dynamic. intros r. by apply assembled_values_dynamic.
Qed.

Lemma values_empty_iff {A} (m : gmap string A) : values m = [] ↔ m = ∅.
Proof.
  unfold values. split.
  - intros H. apply fmap_nil_inv in H. by apply map_to_list_empty_iff.
  - intros ->. by rewrite map_to_list_empty.
Qed.

(** what a pass of the JSON engine writes over a document on disk *)
Lemma json_rewrite_rules self scheme_text w old other w' :
  files w !! new_scheme_path self = Some (JsonFile (Theme (Some old) other)) →
  json_generate_color_scheme_async self scheme_text w = Ok tt w' →
  wrote w w' (new_scheme_path self) →
  files w' !! new_scheme_path self
    = Some (JsonFile (Theme (Some (remove_dyn_rules old
                                   ++ values (dynamic_nodes self))%list) other)).
Proof.
  intros Hf. rewrite json_generate_unfold.
  unfold json_outcome. rewrite Hf.
  destruct (find_unfound self scheme_text) as [unfound|e]; [|done].
  destruct (negb (scopes_truthy unfound) && bool_decide (dynamic_nodes self = ∅)).
  { intros [= <-]. unfold wrote. by rewrite new_events_refl, elem_of_nil. }
  destruct (bool_decide (old ≠ []) && scopes_truthy unfound).
  + destruct (parse_scheme_json unfound old) as [u'|e]; [|done].
    unfold json_finish.
    edestruct (finish_spec self) as (w1 & -> & Hw1 & _); [apply notes_no_write|].
    intros [= <-] _. by rewrite Hw1, lookup_insert_eq.
  + unfold json_finish.
    edestruct (finish_spec self) as (w1 & -> & Hw1 & _);
      [intros p; apply not_elem_of_nil|].
    intros [= <-] _. by rewrite Hw1, lookup_insert_eq.
Qed.

(** C10.  [remove_dyn_rules] keeps, in order, exactly the rules that have a
    ["scope"] key whose value does not contain the dynamic pattern; a rule
    without a ["scope"] key is dropped although it is not dynamic, and so it
    is missing from the document a pass of the JSON engine writes over the
    previous one. *)
Theorem remove_dyn_rules_drops_scopeless (rules0 : list rule) :
  remove_dyn_rules rules0 = filter preserved rules0
  ∧ (∀ r, r ∈ remove_dyn_rules rules0 ↔
          r ∈ rules0 ∧ ∃ s, r !! "scope" = Some s ∧ Re.re_search DYN_PAT s = false)
  ∧ (∀ r, r !! "scope" = None → ¬ dynamic_rule r ∧ r ∉ remove_dyn_rules rules0)
  ∧ (∀ self scheme_text w other w',
       files w !! new_scheme_path self = Some (JsonFile (Theme (Some rules0) other)) →
       json_generate_color_scheme_async self scheme_text w = Ok tt w' →
       wrote w w' (new_scheme_path self) →
       files w' !! new_scheme_path self
         = Some (JsonFile (Theme (Some (filter preserved rules0
                                         ++ values (dynamic_nodes self))%list) other))).
Proof.
  split_and!.
  - apply remove_dyn_rules_filter.
  - intros r. apply elem_of_remove_dyn_rules.
  - intros r Hr. split.
    + intros (s & Hs & _). congruence.
    + rewrite elem_of_remove_dyn_rules. intros [_ (s & Hs & _)]. congruence.
  - intros self scheme_text w other w' Hf Hrun Hwrote.
    rewrite <- remove_dyn_rules_filter.
    by apply (json_rewrite_rules self scheme_text w).
Qed.

(** ** The JSON pass *)

(** a JSON pass either raises and leaves the world alone, or skips and
    leaves the world alone, or writes the one derived document *)
Lemma json_pass_cases self scheme_text w :
  (∃ e, json_generate_color_scheme_async self scheme_text w = Raised e w)
  ∨ (json_generate_color_scheme_async self scheme_text w = Ok tt w
     ∧ nothing_to_add self scheme_text)
  ∨ (∃ w' kept other,
       json_generate_color_scheme_async self scheme_text w = Ok tt w'
       ∧ ¬ nothing_to_add self scheme_text
       ∧ match files w !! new_scheme_path self with
         | None => kept = [] ∧ other = ∅
         | Some c => ∃ old, c = JsonFile (Theme (Some old) other)
                            ∧ kept = remove_dyn_rules old
         end
       ∧ files w' = <[new_scheme_path self :=
                        JsonFile (Theme (Some (kept ++ values (dynamic_nodes self))%list)
                                    other)]> (files w)
       ∧ wrote w w' (new_scheme_path self)
       ∧ (∀ p, wrote w w' p → p = new_scheme_path self)
       ∧ (prefs w !! "color_scheme" = Some (scheme self) →
          prefs w' !! "color_scheme" = Some (scheme_orig (paths self)))).
Proof.
  rewrite json_generate_unfold. unfold json_outcome.
  destruct (find_unfound self scheme_text) as [unfound|e] eqn:Eu; [|left; eauto].
  destruct (negb (scopes_truthy unfound) && bool_decide (dynamic_nodes self = ∅))
    eqn:Eskip.
  { right. left. split; [done|]. exists unfound.
    apply andb_true_iff in Eskip as [H1%negb_true_iff H2%bool_decide_eq_true]. done. }
  assert (¬ nothing_to_add self scheme_text) as Hadd.
  { intros (u & Hu & Ht & Hd). rewrite Eu in Hu. injection Hu as <-.
    rewrite Ht in Eskip. simpl in Eskip. by apply bool_decide_eq_false in Eskip. }
  assert (∀ notes kept other,
            (∀ p, FileWrite p ∉ notes) →
            ∃ w',
              json_finish self notes kept other w = Ok tt w'
              ∧ files w' = <[new_scheme_path self :=
                        JsonFile (Theme (Some (kept ++ values (dynamic_nodes self))%list)
                                    other)]> (files w)
              ∧ wrote w w' (new_scheme_path self)
              ∧ (∀ p, wrote w w' p → p = new_scheme_path self)
              ∧ (prefs w !! "color_scheme" = Some (scheme self) →
                 prefs w' !! "color_scheme" = Some (scheme_orig (paths self)))) as Hfin.
  { intros notes kept other Hnotes. unfold json_finish.
    edestruct (finish_spec self) as (w1 & E & Hw1 & Hwr & Honly & Hp); [done|].
    exists w1. split_and!; [apply E|done..]. }
  destruct (files w !! new_scheme_path self) as [[[[old|] other]|pre plist]|] eqn:Hf.
  - destruct (bool_decide (old ≠ []) && scopes_truthy unfound).
    + destruct (parse_scheme_json unfound old) as [u'|e]; [|left; eauto].
      right. right.
      edestruct Hfin as (w' & E & ? & ? & ? & ?); [apply notes_no_write|].
      exists w', (remove_dyn_rules old), other. rewrite E. split_and!; eauto.
    + right. right.
      edestruct Hfin as (w' & E & ? & ? & ? & ?); [intros p; apply not_elem_of_nil|].
      exists w', (remove_dyn_rules old), other. rewrite E. split_and!; eauto.
  - left. eauto.
  - left. eauto.
  - right. right.
    edestruct Hfin as (w' & E & ? & ? & ? & ?); [intros p; apply not_elem_of_nil|].
    exists w', [], ∅. rewrite E. split_and!; eauto.
Qed.

Lemma not_wrote_refl w p : ¬ wrote w w p.
Proof. unfold wrote. rewrite new_events_refl. apply not_elem_of_nil. Qed.

(** with a .sublime-color-scheme original, a dynamic node and a document
    with rules on disk, the pass does write *)
Lemma json_pass_writes self doc w old other :
  ext (paths self) = ".sublime-color-scheme" →
  files w !! new_scheme_path self = Some (JsonFile (Theme (Some old) other)) →
  scopes_truthy (ScopeDict (filter (λ kv, kv.1 ∉ scopes_declared_in (default [] (rules doc)))
                              (static_nodes self))) = true
    ∨ dynamic_nodes self ≠ ∅ →
  ∃ w', json_generate_color_scheme_async self (JsonResource doc) w = Ok tt w'
        ∧ wrote w w' (new_scheme_path self)
        ∧ files w' = <[new_scheme_path self :=
                         JsonFile (Theme (Some (remove_dyn_rules old
                                                ++ values (dynamic_nodes self))%list)
                                     other)]> (files w).
Proof.
  intros Hext Hf Hadd. rewrite json_generate_unfold. unfold json_outcome, find_unfound.
  rewrite Hext. simpl String.eqb.
  rewrite parse_scheme_json_restrict.
  set (u := filter _ (static_nodes self)) in *.
  replace (negb (scopes_truthy (ScopeDict u)) && bool_decide (dynamic_nodes self = ∅))
    with false.
  2:{ symmetry. apply andb_false_iff. destruct Hadd as [->|H]; [by left|].
      right. by apply bool_decide_eq_false. }
  rewrite Hf.
  assert (∀ notes, (∀ p, FileWrite p ∉ notes) →
            ∃ w', json_finish self notes (remove_dyn_rules old) other w = Ok tt w'
                  ∧ wrote w w' (new_scheme_path self)
                  ∧ files w' = <[new_scheme_path self :=
                         JsonFile (Theme (Some (remove_dyn_rules old
                                                ++ values (dynamic_nodes self))%list)
                                     other)]> (files w)) as Hfin.
  { intros notes Hnotes. unfold json_finish.
    edestruct (finish_spec self) as (w1 & -> & Hw1 & Hwr & _); [done|]. eauto. }
  destruct (bool_decide (old ≠ []) && scopes_truthy (ScopeDict u)).
  - subst u. rewrite parse_scheme_json_restrict.
    apply Hfin, notes_no_write.
  - apply Hfin. intros p. apply not_elem_of_nil.
Qed.

(** C2, amended.  When a pass of the JSON engine rewrites a derived
    document that is on disk, it writes the rules [remove_dyn_rules] keeps
    from the old document, none of which has a scope containing the dynamic
    pattern, followed by the current dynamic nodes: of an assembled registry,
    no stale dynamic rule survives the write.  The pass does rewrite the
    document when the original is a .sublime-color-scheme and there is a
    dynamic node; with nothing to add it returns without writing and the
    document stays as it is. *)
Theorem stale_dynamic_rules_purged_on_write
    (self : Scheme rule) (scheme_text : resource) (w : world)
    (old : list rule) (other : gmap string string) :
  files w !! new_scheme_path self = Some (JsonFile (Theme (Some old) other)) →
  (∀ w', json_generate_color_scheme_async self scheme_text w = Ok tt w' →
         wrote w w' (new_scheme_path self) →
         files w' !! new_scheme_path self
           = Some (JsonFile (Theme (Some (remove_dyn_rules old
                                          ++ values (dynamic_nodes self))%list) other))
         ∧ (∀ r, r ∈ remove_dyn_rules old → r ∈ old ∧ ¬ dynamic_rule r)
         ∧ no_stale_dynamic_rule self w')
  ∧ (∀ doc, ext (paths self) = ".sublime-color-scheme" →
            scheme_text = JsonResource doc →
            dynamic_nodes self ≠ ∅ →
            ∃ w', json_generate_color_scheme_async self scheme_text w = Ok tt w'
                  ∧ wrote w w' (new_scheme_path self))
  ∧ (nothing_to_add self scheme_text →
       json_generate_color_scheme_async self scheme_text w = Ok tt w).
Proof.
  intros Hf. split_and!.
  - intros w' Hrun Hwrote.
    pose proof (json_rewrite_rules self scheme_text w old other w' Hf Hrun Hwrote)
      as Hnew.
    split; [done|]. split.
    + intros r [Hr Hp]%elem_of_remove_dyn_rules. split; [done|].
      by apply preserved_not_dynamic.
    + intros t rs r Ht Hrs Hr Hdyn. rewrite Hnew in Ht. injection Ht as <-.
      simpl in Hrs. injection Hrs as <-.
      apply elem_of_app in Hr as [Hr|Hr]; [|done].
      apply elem_of_remove_dyn_rules in Hr as [_ Hp].
      by apply preserved_not_dynamic in Hp.
  - intros doc Hext -> Hdyn.
    destruct (json_pass_writes self doc w old other Hext Hf) as (w' & ? & ? & _); eauto.
  - intros Hnothing.
    destruct (json_pass_cases self scheme_text w) as [[e He]|[[? _]|(w' & k & o & _ & Hadd & _)]];
      [|done|done].
    exfalso. destruct Hnothing as (u & Hu & Ht & Hd).
    rewrite json_generate_unfold in He. unfold json_outcome in He.
    rewrite Hu, Ht, Hd in He. simpl in He. by rewrite bool_decide_eq_true_2 in He.
Qed.

Lemma json_pass_nothing_to_add self scheme_text w :
  nothing_to_add self scheme_text →
  json_generate_color_scheme_async self scheme_text w = Ok tt w.
Proof.
  intros (u & Hu & Ht & Hd). rewrite json_generate_unfold. unfold json_outcome.
  rewrite Hu, Ht, Hd. simpl. by rewrite bool_decide_eq_true_2.
Qed.

(** without a prior derived file, a pass with something to add writes the
    dynamic nodes as the whole document *)
Lemma json_pass_first_write self scheme_text w unfound :
  find_unfound self scheme_text = Return unfound →
  scopes_truthy unfound = true ∨ dynamic_nodes self ≠ ∅ →
  files w !! new_scheme_path self = None →
  ∃ w', json_generate_color_scheme_async self scheme_text w = Ok tt w'
        ∧ wrote w w' (new_scheme_path self)
        ∧ files w' = <[new_scheme_path self :=
                         JsonFile (Theme (Some (values (dynamic_nodes self))) ∅)]>
                       (files w).
Proof.
  intros Hu Hadd Hf. rewrite json_generate_unfold. unfold json_outcome.
  rewrite Hu.
  replace (negb (scopes_truthy unfound) && bool_decide (dynamic_nodes self = ∅))
    with false.
  2:{ symmetry. apply andb_false_iff. destruct Hadd as [->|H]; [by left|].
      right. by apply bool_decide_eq_false. }
  rewrite Hf. unfold json_finish.
  edestruct (finish_spec self) as (w1 & -> & Hw1 & Hwr & _);
    [intros p; apply not_elem_of_nil|].
  exists w1. split_and!; [done|apply Hwr|apply Hw1].
Qed.

(** C7, amended.  In the JSON engine a pass with nothing new to add (no
    missing static scope, no dynamic node) skips the write and leaves the
    world as it is, whether a prior derived file exists or not.  Conversely,
    when the first [unfound] was computed (the extension is recognised) and
    there is a missing static scope or a dynamic node, the write is
    performed if no prior derived file exists, and also over a prior
    document with a rules list when the original is a
    .sublime-color-scheme. *)
Theorem json_fast_path
    (self : Scheme rule) (scheme_text : resource) (w : world) :
  (nothing_to_add self scheme_text →
     json_generate_color_scheme_async self scheme_text w = Ok tt w)
  ∧ (∀ unfound,
       find_unfound self scheme_text = Return unfound →
       scopes_truthy unfound = true ∨ dynamic_nodes self ≠ ∅ →
       files w !! new_scheme_path self = None →
       ∃ w', json_generate_color_scheme_async self scheme_text w = Ok tt w'
             ∧ wrote w w' (new_scheme_path self)
             ∧ files w' = <[new_scheme_path self :=
                              JsonFile (Theme (Some (values (dynamic_nodes self))) ∅)]>
                            (files w))
  ∧ (∀ doc unfound old other,
       ext (paths self) = ".sublime-color-scheme" →
       scheme_text = JsonResource doc →
       find_unfound self scheme_text = Return unfound →
       scopes_truthy unfound = true ∨ dynamic_nodes self ≠ ∅ →
       files w !! new_scheme_path self = Some (JsonFile (Theme (Some old) other)) →
       ∃ w', json_generate_color_scheme_async self scheme_text w = Ok tt w'
             ∧ wrote w w' (new_scheme_path self)).
Proof.
  split_and!.
  - apply json_pass_nothing_to_add.
  - apply json_pass_first_write.
  - intros doc unfound old other Hext -> Hu Hadd Hf.
    destruct (json_pass_writes self doc w old other Hext Hf) as (w' & ? & ? & _); eauto.
    unfold find_unfound in Hu. rewrite Hext in Hu. simpl in Hu.
    rewrite parse_scheme_json_restrict in Hu. injection Hu as <-. done.
Qed.

(** C8, amended.  In the JSON engine an extension that is neither
    .sublime-color-scheme nor one ending in tmTheme makes the pass raise
    [Exception] before anything is written, logged or switched. *)
Theorem json_unrecognized_extension_raises
    (self : Scheme rule) (scheme_text : resource) (w : world) :
  unrecognized (ext (paths self)) →
  json_generate_color_scheme_async self scheme_text w = Raised Exception w.
Proof.
  intros [Hne Hend]. rewrite json_generate_unfold. unfold json_outcome, find_unfound.
  rewrite Hend. destruct (String.eqb_spec (ext (paths self)) ".sublime-color-scheme");
    done.
Qed.

(** ** The XML pass *)

(** an XML pass raises and leaves the world alone when the original has no
    style array to extend, and otherwise writes the one derived document *)
Lemma xml_pass_cases self scheme_text w :
  match xml_document self scheme_text with
  | None => ∃ e, xml_generate_color_scheme_async self scheme_text w = Raised e w
  | Some doc =>
      ∃ w', xml_generate_color_scheme_async self scheme_text w = Ok tt w'
            ∧ files w' = <[mod_scheme_path self := XmlFile COLOR_SCHEME_PREAMBLE doc]>
                           (files w)
            ∧ wrote w w' (mod_scheme_path self)
            ∧ (∀ p, wrote w w' p → p = mod_scheme_path self)
            ∧ (prefs w !! "color_scheme" = Some (scheme self) →
               prefs w' !! "color_scheme"
                 = Some (packages_relative_path
                           (Path.join (usr_dir_rel (paths self))
                              (Path.basename (mod_scheme_path self)))))
  end.
Proof.
  rewrite xml_generate_unfold. unfold xml_outcome, xml_document.
  destruct scheme_text as [text [plist|]|doc]; [|eauto..].
  destruct (extend_styles plist (values (dynamic_nodes self))) as [plist'|]; [|eauto].
  unfold xml_finish.
  edestruct (finish_spec self) as (w1 & -> & Hw1 & Hwr & Honly & Hp);
    [apply notes_no_write|].
  exists w1. split_and!; done.
Qed.

(** ** Idempotence *)

Lemma json_second_pass self scheme_text unfound w1 kept other :
  assembled self →
  find_unfound self scheme_text = Return unfound →
  negb (scopes_truthy unfound) && bool_decide (dynamic_nodes self = ∅) = false →
  files w1 !! new_scheme_path self
    = Some (JsonFile (Theme (Some (kept ++ values (dynamic_nodes self))%list) other)) →
  remove_dyn_rules kept = kept →
  files (world_of (json_generate_color_scheme_async self scheme_text w1)) = files w1
  ∧ ((∃ d, unfound = ScopeDict d) →
     ∃ w2, json_generate_color_scheme_async self scheme_text w1 = Ok tt w2).
Proof.
  intros Ha Hu Hskip Hf Hkept. rewrite json_generate_unfold. unfold json_outcome.
  rewrite Hu, Hskip, Hf.
  assert (∀ notes, (∀ p, FileWrite p ∉ notes) →
            ∃ w2, json_finish self notes
                    (remove_dyn_rules (kept ++ values (dynamic_nodes self))) other w1
                  = Ok tt w2 ∧ files w2 = files w1) as Hfin.
  { intros notes Hnotes. unfold json_finish.
    edestruct (finish_spec self) as (w2 & -> & Hw2 & _); [done|].
    exists w2. split; [done|]. rewrite Hw2.
    rewrite remove_dyn_rules_app, Hkept, remove_dyn_rules_values, app_nil_r by done.
    by apply insert_id. }
  destruct (bool_decide (kept ++ values (dynamic_nodes self) ≠ [])
            && scopes_truthy unfound).
  - destruct (parse_scheme_json unfound (kept ++ values (dynamic_nodes self)))
      as [u'|e] eqn:Ep.
    + destruct (Hfin _ (notes_no_write (bool_decide (u' ≠ ∅)) (keys u')))
        as (w2 & -> & Hw2).
      split; [done | eauto].
    + split; [done|]. intros [d ->]. rewrite parse_scheme_json_restrict in Ep. done.
  - destruct (Hfin [] (λ p, not_elem_of_nil _)) as (w2 & -> & Hw2).
    split; [done | eauto].
Qed.

Lemma find_unfound_json_ext self scheme_text unfound :
  ext (paths self) = ".sublime-color-scheme" →
  find_unfound self scheme_text = Return unfound → ∃ d, unfound = ScopeDict d.
Proof.
  intros Hext. unfold find_unfound. rewrite Hext. simpl.
  destruct scheme_text as [|doc]; [done|].
  rewrite parse_scheme_json_restrict. intros [= <-]. eauto.
Qed.

Lemma json_pass_idempotent self scheme_text w :
  assembled self →
  let j1 := json_generate_color_scheme_async self scheme_text w in
  let j2 := json_generate_color_scheme_async self scheme_text (world_of j1) in
  files (world_of j2) = files (world_of j1)
  ∧ (ext (paths self) = ".sublime-color-scheme" →
     ∀ w1, j1 = Ok tt w1 → ∃ w2, j2 = Ok tt w2).
Proof.
  intros Ha j1 j2. subst j2.
  destruct (json_pass_cases self scheme_text w)
    as [[e He]|[[He _]|(w' & kept & other & He & Hadd & Hprior & Hfiles & _)]];
    subst j1; rewrite He; simpl.
  - rewrite He. simpl. split; [done|]. intros _ w1. done.
  - rewrite He. simpl. split; [done|]. intros _ w1 [= <-]. eauto.
  - destruct (find_unfound self scheme_text) as [unfound|e] eqn:Hu.
    2:{ rewrite json_generate_unfold in He. unfold json_outcome in He.
        by rewrite Hu in He. }
    assert (negb (scopes_truthy unfound) && bool_decide (dynamic_nodes self = ∅) = false)
      as Hskip.
    { destruct (negb _ && _) eqn:E; [|done]. exfalso. apply Hadd. exists unfound.
      apply andb_true_iff in E as [H1%negb_true_iff H2%bool_decide_eq_true]. done. }
    assert (remove_dyn_rules kept = kept) as Hkept.
    { destruct (files w !! new_scheme_path self) as [c|].
      - destruct Hprior as (old & _ & ->). apply remove_dyn_rules_idemp.
      - by destruct Hprior as [-> _]. }
    destruct (json_second_pass self scheme_text unfound w' kept other Ha Hu Hskip)
      as [Hsame Hok]; [by rewrite Hfiles, lookup_insert_eq | done |].
    split; [done|]. intros Hext w1 _. apply Hok.
    by apply (find_unfound_json_ext self scheme_text).
Qed.

Lemma xml_pass_idempotent self scheme_text w :
  let x1 := xml_generate_color_scheme_async self scheme_text w in
  let x2 := xml_generate_color_scheme_async self scheme_text (world_of x1) in
  files (world_of x2) = files (world_of x1)
  ∧ (∀ w1, x1 = Ok tt w1 → ∃ w2, x2 = Ok tt w2).
Proof.
  intros x1 x2. subst x2.
  pose proof (xml_pass_cases self scheme_text w) as H1.
  pose proof (xml_pass_cases self scheme_text (world_of x1)) as H2.
  destruct (xml_document self scheme_text) as [doc|].
  - destruct H1 as (w1 & E1 & Hf1 & _). destruct H2 as (w2 & E2 & Hf2 & _).
    subst x1. rewrite E1 in *. simpl in *. rewrite E2. simpl. split; [|eauto].
    rewrite Hf2, Hf1. apply insert_insert_eq.
  - destruct H1 as (e1 & E1). subst x1. rewrite E1 in *. simpl in *.
    destruct H2 as (e2 & E2). rewrite E2. simpl. split; [done|]. done.
Qed.

(** ** Names of the derived files *)

Lemma not_startswith_sep s : "/"%char ∉ Str.chars s → Str.startswith s "/" = false.
Proof.
  intros Hs. unfold Str.startswith. apply bool_decide_eq_false. intros [k Hk].
  rewrite Hk in Hs. simpl in Hs. set_solver.
Qed.

Lemma join_plain a b :
  a ≠ "" → Str.endswith a "/" = false → Str.startswith b "/" = false →
  Path.join a b = a +:+ "/" +:+ b.
Proof.
  intros Ha He Hs. unfold Path.join. rewrite Hs, He. by destruct a.
Qed.

Lemma xml_file_nosep name :
  "/"%char ∉ Str.chars name →
  "/"%char ∉ Str.chars ((name +:+ " (SL)") +:+ ".hidden-tmTheme").
Proof.
  intros H. rewrite !chars_app, !elem_of_app. intros [[?|Hc]|Hc]; [done| |];
    vm_compute in Hc; repeat (apply elem_of_cons in Hc as [Hc|Hc]; [discriminate|]);
    by apply elem_of_nil in Hc.
Qed.

Lemma json_file_nosep name :
  "/"%char ∉ Str.chars name →
  "/"%char ∉ Str.chars (name +:+ ".sublime-color-scheme").
Proof.
  intros H. rewrite !chars_app, !elem_of_app. intros [?|Hc]; [done|];
    vm_compute in Hc; repeat (apply elem_of_cons in Hc as [Hc|Hc]; [discriminate|]);
    by apply elem_of_nil in Hc.
Qed.

Lemma app_string_assoc a b c : (a +:+ b) +:+ c = a +:+ (b +:+ c).
Proof. apply chars_inj. rewrite !chars_app. by rewrite app_assoc. Qed.

Lemma mod_scheme_path_basename {node} (self : Scheme node) :
  "/"%char ∉ Str.chars (scheme_name (paths self)) →
  Path.basename (mod_scheme_path self)
    = scheme_name (paths self) +:+ " (SL).hidden-tmTheme".
Proof.
  intros H. unfold mod_scheme_path. rewrite basename_join by by apply xml_file_nosep.
  by rewrite app_string_assoc.
Qed.

Lemma new_scheme_path_basename {node} (self : Scheme node) :
  "/"%char ∉ Str.chars (scheme_name (paths self)) →
  Path.basename (new_scheme_path self)
    = scheme_name (paths self) +:+ ".sublime-color-scheme".
Proof.
  intros H. unfold new_scheme_path. by rewrite basename_join by by apply json_file_nosep.
Qed.

Lemma json_pass_wrote_only self scheme_text w w' p :
  json_generate_color_scheme_async self scheme_text w = Ok tt w' →
  wrote w w' p → p = new_scheme_path self.
Proof.
  intros E Hp.
  destruct (json_pass_cases self scheme_text w)
    as [[e He]|[[He _]|(w1 & kept & other & He & _ & _ & _ & _ & Honly & _)]];
    rewrite He in E; [done| |].
  - injection E as <-. by apply not_wrote_refl in Hp.
  - injection E as <-. by apply Honly.
Qed.

Lemma xml_pass_wrote_only self scheme_text w w' p :
  xml_generate_color_scheme_async self scheme_text w = Ok tt w' →
  wrote w w' p → p = mod_scheme_path self.
Proof.
  intros E Hp. pose proof (xml_pass_cases self scheme_text w) as H.
  destruct (xml_document self scheme_text).
  - destruct H as (w1 & He & _ & _ & Honly & _). rewrite He in E.
    injection E as <-. by apply Honly.
  - destruct H as (e & He). by rewrite He in E.
Qed.

(** C6, amended.  The derived file name is a function of the original
    theme's base name alone: [<name> (SL).hidden-tmTheme] for the XML engine
    and [<name>.sublime-color-scheme], without the [(SL)] mark, for the JSON
    engine.  A pass writes no other file, so passes that resolve the same
    base name and user directory overwrite that one file. *)
Theorem derived_file_names (jself : Scheme rule) (xself : Scheme element) :
  "/"%char ∉ Str.chars (scheme_name (paths xself)) →
  "/"%char ∉ Str.chars (scheme_name (paths jself)) →
  (Path.basename (mod_scheme_path xself)
     = scheme_name (paths xself) +:+ " (SL).hidden-tmTheme"
   ∧ sl_marked (scheme_name (paths xself)) (mod_scheme_path xself))
  ∧ Path.basename (new_scheme_path jself)
      = scheme_name (paths jself) +:+ ".sublime-color-scheme"
  ∧ (∀ text w w' p,
       xml_generate_color_scheme_async xself text w = Ok tt w' →
       wrote w w' p → p = mod_scheme_path xself)
  ∧ (∀ text w w' p,
       json_generate_color_scheme_async jself text w = Ok tt w' →
       wrote w w' p → p = new_scheme_path jself)
  ∧ (∀ (xself' : Scheme element) text text' w w' w'' p p',
       scheme_name (paths xself') = scheme_name (paths xself) →
       usr_dir_abs (paths xself') = usr_dir_abs (paths xself) →
       xml_generate_color_scheme_async xself text w = Ok tt w' →
       xml_generate_color_scheme_async xself' text' w' = Ok tt w'' →
       wrote w w' p → wrote w' w'' p' → p' = p)
  ∧ (∀ (jself' : Scheme rule) text text' w w' w'' p p',
       scheme_name (paths jself') = scheme_name (paths jself) →
       usr_dir (paths jself') = usr_dir (paths jself) →
       json_generate_color_scheme_async jself text w = Ok tt w' →
       json_generate_color_scheme_async jself' text' w' = Ok tt w'' →
       wrote w w' p → wrote w' w'' p' → p' = p).
Proof.
  intros Hx Hj. split_and!.
  - by apply mod_scheme_path_basename.
  - exists "hidden-tmTheme". by rewrite mod_scheme_path_basename.
  - by apply new_scheme_path_basename.
  - intros text w w' p. apply xml_pass_wrote_only.
  - intros text w w' p. apply json_pass_wrote_only.
  - intros xself' text text' w w' w'' p p' Hn Hd E1 E2 Hp Hp'.
    rewrite (xml_pass_wrote_only _ _ _ _ _ E1 Hp), (xml_pass_wrote_only _ _ _ _ _ E2 Hp').
    unfold mod_scheme_path. by rewrite Hn, Hd.
  - intros jself' text text' w w' w'' p p' Hn Hd E1 E2 Hp Hp'.
    rewrite (json_pass_wrote_only _ _ _ _ _ E1 Hp), (json_pass_wrote_only _ _ _ _ _ E2 Hp').
    unfold new_scheme_path. by rewrite Hn, Hd.
Qed.

(** ** The preference after a pass *)

(** the Packages-relative path of a file of [User/SublimeLinter] *)
Lemma packages_relative_path_user base :
  "/"%char ∉ Str.chars base → base ≠ "" →
  packages_relative_path (Path.join "User/SublimeLinter" base)
    = "Packages/User/SublimeLinter/" +:+ base.
Proof.
  intros Hb Hne.
  rewrite join_plain; [|done|by vm_compute|by apply not_startswith_sep].
  unfold packages_relative_path, get_path_components.
  replace (Str.startswith ("User/SublimeLinter" +:+ "/" +:+ base) "/") with false.
  2:{ symmetry. apply bool_decide_eq_false. intros [k Hk]. discriminate. }
  replace (components_go [] (Str.chars ("User/SublimeLinter" +:+ "/" +:+ base)))
    with ["User"; "SublimeLinter"; base].
  2:{ rewrite (chars_app "User/SublimeLinter"). simpl.
      rewrite components_go_nosep; [|done|].
      - simpl. by rewrite of_chars_chars.
      - simpl. destruct base; [done | discriminate]. }
  cbn [app]. destruct (decide ("User" ≠ "Packages")) as [_|H]; [|by destruct H].
  reflexivity.
Qed.

(** C5, amended.  After an XML pass has written the derived file, the
    [color_scheme] preference names that file: it is the Packages-relative
    path [Packages/User/SublimeLinter/<name> (SL).hidden-tmTheme] of the
    file written under the packages directory.  After a JSON pass has
    written the derived file [<name>.sublime-color-scheme] of the user
    directory, the preference is the path of the original theme
    ([paths["scheme_orig"]]), not that of the file written. *)
Theorem active_scheme_after_write
    (jself : Scheme rule) (xself : Scheme element)
    (jtext xtext : resource) (w : world) (pck : string) :
  pck ≠ "" → Str.endswith pck "/" = false →
  usr_dir_rel (paths xself) = "User/SublimeLinter" →
  usr_dir_abs (paths xself) = Path.join pck (usr_dir_rel (paths xself)) →
  "/"%char ∉ Str.chars (scheme_name (paths xself)) →
  (prefs w !! "color_scheme" = Some (scheme xself) →
   ∀ w', xml_generate_color_scheme_async xself xtext w = Ok tt w' →
     let base := scheme_name (paths xself) +:+ " (SL).hidden-tmTheme" in
     wrote w w' (pck +:+ "/User/SublimeLinter/" +:+ base)
     ∧ prefs w' !! "color_scheme" = Some ("Packages/User/SublimeLinter/" +:+ base)
     ∧ switched_to_written w w')
  ∧ (prefs w !! "color_scheme" = Some (scheme jself) →
     ∀ w', json_generate_color_scheme_async jself jtext w = Ok tt w' →
       wrote w w' (new_scheme_path jself) →
       prefs w' !! "color_scheme" = Some (scheme_orig (paths jself))).
Proof.
  intros Hpck Hend Hrel Habs Hname. split.
  - intros Hpref w' E base.
    assert (mod_scheme_path xself = pck +:+ "/User/SublimeLinter/" +:+ base) as Hpath.
    { unfold mod_scheme_path. rewrite Habs, Hrel.
      rewrite (join_plain pck) by (done || by vm_compute).
      rewrite join_plain.
      - apply chars_inj. subst base. rewrite !chars_app. simpl.
        rewrite <- !app_assoc. done.
      - by destruct pck.
      - apply bool_decide_eq_false. intros [k Hk].
        rewrite !chars_app in Hk.
        change (Str.chars "User/SublimeLinter")
          with (Str.chars "User/SublimeLinte" ++ ["r"%char]) in Hk.
        rewrite !app_assoc in Hk. apply app_inj_tail in Hk as [_ Hk]. discriminate.
      - apply not_startswith_sep. by apply xml_file_nosep. }
    pose proof (xml_pass_cases xself xtext w) as H.
    destruct (xml_document xself xtext) as [doc|].
    2:{ destruct H as (e & He). by rewrite He in E. }
    destruct H as (w1 & He & _ & Hwr & Honly & Hp). rewrite He in E.
    injection E as <-. specialize (Hp Hpref).
    rewrite mod_scheme_path_basename, Hrel in Hp by done.
    rewrite packages_relative_path_user in Hp.
    2:{ rewrite <- mod_scheme_path_basename by done. unfold mod_scheme_path.
        rewrite basename_join by by apply xml_file_nosep. by apply xml_file_nosep. }
    2:{ by destruct (scheme_name (paths xself)). }
    rewrite Hpath in Hwr. split_and!; [done|done|].
    intros p Hw. apply Honly in Hw as ->.
    eexists. split; [done|].
    exists ("User/SublimeLinter/" +:+ base). split; [done|].
    rewrite Hpath. apply bool_decide_eq_true. exists (Str.chars pck).
    by rewrite !chars_app.
  - intros Hpref w' E Hwr.
    destruct (json_pass_cases jself jtext w)
      as [[e He]|[[He _]|(w1 & kept & other & He & _ & _ & _ & _ & _ & Hp)]];
      rewrite He in E; [done| |].
    + injection E as <-. by apply not_wrote_refl in Hwr.
    + injection E as <-. by apply Hp.
Qed.

(** ** Sanity checks of the embedding *)

Example dyn_pat_matches : Re.re_match DYN_PAT "sublimelinter.gutter.style_001" = true.
Proof. vm_compute. reflexivity. Qed.

Example dyn_pat_static : Re.re_match DYN_PAT "sublimelinter.mark.error" = false.
Proof. vm_compute. reflexivity. Qed.

Example dyn_pat_two_digits : Re.re_match DYN_PAT "sublimelinter.gutter.style_01" = false.
Proof. vm_compute. reflexivity. Qed.

Example dyn_pat_search_inside :
  Re.re_match DYN_PAT "comment sublimelinter.gutter.style_001" = false
  ∧ Re.re_search DYN_PAT "comment sublimelinter.gutter.style_001" = true.
Proof. split; vm_compute; reflexivity. Qed.

Example split_scopes : Str.split "  comment   string.quoted " = ["comment"; "string.quoted"].
Proof. vm_compute. reflexivity. Qed.

Example packages_relative_path_example :
  packages_relative_path "User/SublimeLinter/Monokai (SL).hidden-tmTheme"
  = "Packages/User/SublimeLinter/Monokai (SL).hidden-tmTheme".
Proof. vm_compute. reflexivity. Qed.

(** ** Where the specification and the code part ways *)

(** the pass of [ex_static_only] over [ex_derived_world] has nothing to add
    and returns at once *)
Lemma ex_skipped_pass :
  json_generate_color_scheme_async ex_static_only ex_original ex_derived_world
  = Ok tt ex_derived_world.
Proof. vm_compute. reflexivity. Qed.

Lemma ex_stale_rule_dynamic : dynamic_rule ex_stale_rule.
Proof.
  exists "sublimelinter.gutter.style_007". split; vm_compute; reflexivity.
Qed.

(** C2 as stated fails: the derived document on disk holds a dynamic rule
    of an earlier pass; the new pass has no dynamic node and finds its
    static scope in the original theme, so it returns without writing, and
    the stale rule is still in the document although it is none of the
    current dynamic rules. *)
Lemma stale_rule_survives_skipped_pass :
  ¬ no_stale_dynamic_rule ex_static_only
      (world_of (json_generate_color_scheme_async ex_static_only ex_original
                   ex_derived_world)).
Proof.
  rewrite ex_skipped_pass. simpl. intros H.
  specialize (H (Theme (Some [ex_user_rule; ex_stale_rule]) ∅)
                [ex_user_rule; ex_stale_rule] ex_stale_rule).
  assert (ex_stale_rule ∈ values (dynamic_nodes ex_static_only)) as Hin.
  { apply H.
    - vm_compute. reflexivity.
    - reflexivity.
    - right. left.
    - apply ex_stale_rule_dynamic. }
  replace (values (dynamic_nodes ex_static_only)) with (@nil rule) in Hin
    by (vm_compute; reflexivity).
  by apply elem_of_nil in Hin.
Qed.

(** C7 as stated fails: a pass with a dynamic node to add ends without
    writing when it raises.  On a theme of an extension it does not know the
    pass raises [Exception] (l.294-295); over a file at the derived path
    that has no ["rules"] key it raises [KeyError] (l.314). *)
Lemma pass_with_something_to_add_raises :
  (json_generate_color_scheme_async ex_json_txt ex_text_resource ex_world_txt
     = Raised Exception ex_world_txt
   ∧ ¬ fast_path_as_worded ex_json_txt ex_text_resource ex_world_txt)
  ∧ (json_generate_color_scheme_async ex_dynamic ex_original ex_foreign_world
       = Raised KeyError ex_foreign_world
     ∧ ¬ fast_path_as_worded ex_dynamic ex_original ex_foreign_world).
Proof.
  assert (dynamic_nodes ex_json_txt ≠ ∅) as Hdyn_txt.
  { intros E. apply (f_equal size) in E. vm_compute in E. discriminate E. }
  assert (dynamic_nodes ex_dynamic ≠ ∅) as Hdyn.
  { intros E. apply (f_equal size) in E. vm_compute in E. discriminate E. }
  assert (json_generate_color_scheme_async ex_json_txt ex_text_resource ex_world_txt
          = Raised Exception ex_world_txt) as E1 by (vm_compute; reflexivity).
  assert (json_generate_color_scheme_async ex_dynamic ex_original ex_foreign_world
          = Raised KeyError ex_foreign_world) as E2 by (vm_compute; reflexivity).
  split; (split; [done|]); unfold fast_path_as_worded; intros [_ H].
  - rewrite E1 in H. eapply not_wrote_refl. apply H. by left.
  - rewrite E2 in H. eapply not_wrote_refl. apply H. by left.
Qed.

(** C5 as stated fails for the JSON engine: the pass writes
    [/st/Packages/User/Monokai.sublime-color-scheme] and the preference
    afterwards is the original theme of the default package. *)
Lemma json_pref_is_original_theme :
  ¬ switched_to_written ex_world
      (world_of (json_generate_color_scheme_async ex_dynamic ex_original ex_world)).
Proof.
  intros H.
  destruct (H "/st/Packages/User/Monokai.sublime-color-scheme")
    as (v & Hv & rel & Hrel & Hend).
  - unfold wrote.
    replace (new_events ex_world _)
      with [FileWrite "/st/Packages/User/Monokai.sublime-color-scheme";
            Printf "Old scheme path detected. Pass."]
      by (vm_compute; reflexivity).
    left.
  - vm_compute in Hv. injection Hv as <-.
    vm_compute in Hrel. injection Hrel as Hrel. subst rel.
    vm_compute in Hend. discriminate.
Qed.

(** C8 as stated fails for the XML engine: with the extension [.txt] its
    pass does not raise; it writes the derived file and switches the
    preference. *)
Lemma xml_pass_ignores_extension :
  unrecognized (ext (paths ex_xml_txt))
  ∧ ¬ raises (xml_generate_color_scheme_async ex_xml_txt ex_text_resource ex_world_txt)
  ∧ wrote ex_world_txt
      (world_of (xml_generate_color_scheme_async ex_xml_txt ex_text_resource ex_world_txt))
      "/st/Packages/User/SublimeLinter/Plain (SL).hidden-tmTheme".
Proof.
  split_and!.
  - split; [discriminate | vm_compute; reflexivity].
  - intros (e & w & H). vm_compute in H. discriminate.
  - unfold wrote.
    replace (new_events ex_world_txt _)
      with [FileWrite "/st/Packages/User/SublimeLinter/Plain (SL).hidden-tmTheme";
            Printf "New scheme path detected. Updating.";
            PrefSet "color_scheme"
              "Packages/User/SublimeLinter/Plain (SL).hidden-tmTheme";
            SaveSettings "Preferences.sublime-settings"]
      by (vm_compute; reflexivity).
    left.
Qed.

(** ** The theorems at sample inputs *)

Lemma parse_scheme_json_diff_witness :
  parse_scheme_json (ScopeDict (static_nodes ex_static_only))
    ([ex_user_rule; {[ "scope" := "comment   sublimelinter.mark.error" ]}]
     ++ [ex_stale_rule])
  = Return ∅.
Proof.
  apply (proj2 (proj2 (proj2
           (parse_scheme_json_diff (static_nodes ex_static_only)
              [ex_user_rule; {[ "scope" := "comment   sublimelinter.mark.error" ]}])))).
  - discriminate.
  - apply (bool_decide_unpack _). vm_compute. exact I.
Defined.

Lemma stale_dynamic_rules_purged_witness :
  files ex_derived_world !! new_scheme_path ex_dynamic
    = Some (JsonFile (Theme (Some [ex_user_rule; ex_stale_rule]) ∅))
  ∧ ∃ w', json_generate_color_scheme_async ex_dynamic ex_original ex_derived_world
            = Ok tt w'
          ∧ files w' !! new_scheme_path ex_dynamic
            = Some (JsonFile
                      (Theme (Some (remove_dyn_rules [ex_user_rule; ex_stale_rule]
                                    ++ values (dynamic_nodes ex_dynamic))) ∅))
          ∧ no_stale_dynamic_rule ex_dynamic w'.
Proof.
  assert (files ex_derived_world !! new_scheme_path ex_dynamic
          = Some (JsonFile (Theme (Some [ex_user_rule; ex_stale_rule]) ∅))) as Hf.
  { vm_compute. reflexivity. }
  split; [exact Hf|].
  destruct (stale_dynamic_rules_purged_on_write ex_dynamic ex_original ex_derived_world
              [ex_user_rule; ex_stale_rule] ∅ Hf) as (Hwritten & Hwrites & _).
  destruct (Hwrites (Theme (Some [ {[ "scope" := "comment"; "foreground" := "#75715E" ]};
                   {[ "scope" := "sublimelinter.mark.error";
                      "foreground" := "#FF0000" ]} ]) ∅) eq_refl eq_refl)
    as (w' & E & Hw).
  { intros H. vm_compute in H. discriminate. }
  exists w'. split; [exact E|].
  destruct (Hwritten w' E Hw) as (H1 & _ & H3). split; [exact H1 | exact H3].
Defined.

Lemma assemble_node_classifies_witness :
  dynamic_nodes (json_assemble_node (Scheme_init "" ex_paths)
                   "sublimelinter.gutter.style_001" ∅ None)
    = {[ "sublimelinter.gutter.style_001" :=
           husk "sublimelinter.gutter.style_001" ∅ None ]}
  ∧ static_nodes (xml_assemble_node (Scheme_init "" ex_paths)
                    "sublimelinter.mark.error" ∅ None)
    = {[ "sublimelinter.mark.error" := xml_node "sublimelinter.mark.error" ∅ None ]}.
Proof.
  split.
  - refine (proj1 (proj1 (proj1
      (assemble_node_classifies (Scheme_init "" ex_paths) (Scheme_init "" ex_paths)
         "sublimelinter.gutter.style_001" ∅ None) _))).
    exists "gutter", "001", "". split; [reflexivity|].
    split; [discriminate|]. split; [|split; [simpl; lia|]];
      vm_compute; repeat constructor.
  - refine (proj1 (proj2 (proj2
      (assemble_node_classifies (Scheme_init "" ex_paths) (Scheme_init "" ex_paths)
         "sublimelinter.mark.error" ∅ None) _))).
    intros H%DYN_PAT_match. vm_compute in H. discriminate.
Defined.

Lemma active_scheme_after_write_witness :
  ∃ w', xml_generate_color_scheme_async ex_xml ex_text_resource ex_world_tm = Ok tt w'
        ∧ wrote ex_world_tm w'
            "/st/Packages/User/SublimeLinter/Monokai (SL).hidden-tmTheme"
        ∧ prefs w' !! "color_scheme"
          = Some "Packages/User/SublimeLinter/Monokai (SL).hidden-tmTheme".
Proof.
  eexists. split; [vm_compute; reflexivity|].
  assert ("/"%char ∉ Str.chars (scheme_name (paths ex_xml))) as Hname.
  { apply (bool_decide_unpack _). vm_compute. exact I. }
  assert (Str.endswith "/st/Packages" "/" = false) as Hend.
  { vm_compute. reflexivity. }
  assert ("/st/Packages" ≠ "") as Hpck by discriminate.
  destruct (active_scheme_after_write ex_dynamic ex_xml ex_original ex_text_resource
              ex_world_tm "/st/Packages" Hpck Hend eq_refl eq_refl Hname) as [Hxml _].
  refine (let H := Hxml _ _ _ in conj (proj1 H) (proj1 (proj2 H))).
  - vm_compute. reflexivity.
  - vm_compute. reflexivity.
Defined.

Lemma derived_file_names_witness :
  Path.basename (mod_scheme_path ex_xml) = "Monokai (SL).hidden-tmTheme"
  ∧ Path.basename (new_scheme_path ex_dynamic) = "Monokai.sublime-color-scheme".
Proof.
  assert ("/"%char ∉ Str.chars (scheme_name (paths ex_xml))) as Hx.
  { apply (bool_decide_unpack _). vm_compute. exact I. }
  assert ("/"%char ∉ Str.chars (scheme_name (paths ex_dynamic))) as Hj.
  { apply (bool_decide_unpack _). vm_compute. exact I. }
  destruct (derived_file_names ex_dynamic ex_xml Hx Hj) as ([H1 _] & H2 & _).
  split; [exact H1 | exact H2].
Defined.

Lemma json_fast_path_witness :
  json_generate_color_scheme_async ex_static_only ex_original ex_world = Ok tt ex_world
  ∧ ∃ w', json_generate_color_scheme_async ex_dynamic ex_original ex_world = Ok tt w'
          ∧ wrote ex_world w' (new_scheme_path ex_dynamic).
Proof.
  split.
  - apply (proj1 (json_fast_path ex_static_only ex_original ex_world)).
    exists (ScopeDict ∅). split; [vm_compute; reflexivity|].
    split; vm_compute; reflexivity.
  - destruct (proj1 (proj2 (json_fast_path ex_dynamic ex_original ex_world))
                (ScopeDict ∅)) as (w' & E & Hw & _).
    + vm_compute. reflexivity.
    + right. intros H. vm_compute in H. discriminate.
    + vm_compute. reflexivity.
    + exists w'. split; [exact E | exact Hw].
Defined.

Lemma json_unrecognized_extension_witness :
  unrecognized (ext (paths ex_json_txt))
  ∧ json_generate_color_scheme_async ex_json_txt ex_text_resource ex_world_txt
    = Raised Exception ex_world_txt.
Proof.
  assert (unrecognized (ext (paths ex_json_txt))) as H.
  { split; [discriminate | vm_compute; reflexivity]. }
  split; [exact H|].
  exact (json_unrecognized_extension_raises ex_json_txt ex_text_resource ex_world_txt H).
Defined.

Lemma set_scheme_path_witness :
  prefs (world_of (set_scheme_path ex_dynamic (scheme ex_dynamic) ex_world))
    = prefs ex_world
  ∧ new_events ex_world
      (world_of (set_scheme_path ex_dynamic
                   "Packages/User/SublimeLinter/Monokai (SL).hidden-tmTheme" ex_world))
    = [Printf "New scheme path detected. Updating.";
       PrefSet "color_scheme" "Packages/User/SublimeLinter/Monokai (SL).hidden-tmTheme";
       SaveSettings "Preferences.sublime-settings"].
Proof.
  split.
  - exact (proj1 (proj1 (proj2 (set_scheme_path_only_if_different ex_dynamic
                                  (scheme ex_dynamic) ex_world)) eq_refl)).
  - refine (proj2 (proj2 (proj2 (set_scheme_path_only_if_different ex_dynamic
      "Packages/User/SublimeLinter/Monokai (SL).hidden-tmTheme" ex_world)) _)).
    discriminate.
Defined.

Lemma remove_dyn_rules_witness :
  (({[ "name" := "no scope" ]} : rule)
     ∉ remove_dyn_rules [ex_user_rule; {[ "name" := "no scope" ]}; ex_stale_rule])
  ∧ remove_dyn_rules [ex_user_rule; {[ "name" := "no scope" ]}; ex_stale_rule]
    = [ex_user_rule].
Proof.
  split.
  - refine (proj2 (proj1 (proj2 (proj2
      (remove_dyn_rules_drops_scopeless
         [ex_user_rule; {[ "name" := "no scope" ]}; ex_stale_rule]))) _ _)).
    vm_compute. reflexivity.
  - vm_compute. reflexivity.
Defined.

(** * Further properties of the module *)

(** ** The structured differ on a list of scopes *)

Lemma parse_loop_None_iff D U :
  parse_loop U D = None ↔ D ≠ [] ∧ U ⊆ scopes_declared_in D.
Proof.
  split.
  - intros [Hne H]%parse_loop_None. split; [done|]. set_solver.
  - intros [Hne H]. rewrite <- (app_nil_r D). by apply parse_loop_covered.
Qed.

Lemma parse_scheme_json_list_cases (l : list string) (D : list rule) :
  parse_scheme_json (ScopeList l) D
  = if parse_loop (list_to_set l) D is None then Return ∅ else Raise AttributeError.
Proof. unfold parse_scheme_json. simpl. by destruct (parse_loop _ _). Qed.

(** X1.  Given the list of scopes [parse_scheme_xml] returns,
    [parse_scheme_json] answers the empty dict when the rules are not empty
    and declare every scope of the list, and raises [AttributeError] in
    every other case, an empty list of scopes with no rules included. *)
Theorem parse_scheme_json_on_list (l : list string) (D : list rule) :
  (D ≠ [] ∧ list_to_set l ⊆ scopes_declared_in D →
     parse_scheme_json (ScopeList l) D = Return ∅)
  ∧ (¬ (D ≠ [] ∧ list_to_set l ⊆ scopes_declared_in D) →
     parse_scheme_json (ScopeList l) D = Raise AttributeError)
  ∧ parse_scheme_json (ScopeList l) [] = Raise AttributeError.
Proof.
  rewrite !parse_scheme_json_list_cases. split_and!.
  - intros H. apply parse_loop_None_iff in H. by rewrite H.
  - intros H. destruct (parse_loop (list_to_set l) D) eqn:E; [done|].
    by apply parse_loop_None_iff in E.
  - done.
Qed.

Lemma parse_scheme_json_on_list_witness :
  parse_scheme_json (ScopeList ["sublimelinter.mark.error"])
    [ {[ "scope" := "comment" ]} ] = Raise AttributeError
  ∧ parse_scheme_json (ScopeList ["sublimelinter.mark.error"])
      [ {[ "scope" := "comment sublimelinter.mark.error" ]} ] = Return ∅.
Proof.
  split.
  - apply (proj1 (proj2 (parse_scheme_json_on_list _ _))).
    intros [_ H]. apply (bool_decide_pack _) in H. vm_compute in H. exact H.
  - apply (proj1 (parse_scheme_json_on_list _ _)). split; [discriminate|].
    apply (bool_decide_unpack _). vm_compute. exact I.
Defined.

(** ** How a JSON pass fails *)

Lemma not_skip_iff (self : Scheme rule) unfound :
  negb (scopes_truthy unfound) && bool_decide (dynamic_nodes self = ∅) = false
  ↔ scopes_truthy unfound = true ∨ dynamic_nodes self ≠ ∅.
Proof.
  rewrite andb_false_iff, negb_false_iff, bool_decide_eq_false. tauto.
Qed.

(** X2.  A prior derived file that is a JSON document without a ["rules"]
    key makes a JSON pass that has something to add raise [KeyError]
    ([theme["rules"].clear()]); nothing is written, logged or switched. *)
Theorem json_pass_prior_file_without_rules
    (self : Scheme rule) (scheme_text : resource) (w : world)
    (unfound : scopes) (other : gmap string string) :
  find_unfound self scheme_text = Return unfound →
  scopes_truthy unfound = true ∨ dynamic_nodes self ≠ ∅ →
  files w !! new_scheme_path self = Some (JsonFile (Theme None other)) →
  json_generate_color_scheme_async self scheme_text w = Raised KeyError w.
Proof.
  intros Hu Hadd%not_skip_iff Hf. rewrite json_generate_unfold. unfold json_outcome.
  destruct (find_unfound self scheme_text) as [u|e]; [|done]. injection Hu as ->.
  by rewrite Hadd, Hf.
Qed.

Lemma json_pass_prior_file_without_rules_witness :
  json_generate_color_scheme_async ex_dynamic ex_original
    (World {[ new_scheme_path ex_dynamic :=
                JsonFile (Theme None {[ "variables" := "{}" ]}) ]} ex_prefs [])
  = Raised KeyError
      (World {[ new_scheme_path ex_dynamic :=
                  JsonFile (Theme None {[ "variables" := "{}" ]}) ]} ex_prefs []).
Proof.
  apply (json_pass_prior_file_without_rules ex_dynamic ex_original _ (ScopeDict ∅)
           {[ "variables" := "{}" ]}).
  - vm_compute. reflexivity.
  - right. intros H. apply (f_equal size) in H. vm_compute in H. discriminate H.
  - vm_compute. reflexivity.
Defined.

Lemma find_unfound_tmTheme self scheme_text unfound :
  ext (paths self) ≠ ".sublime-color-scheme" →
  find_unfound self scheme_text = Return unfound →
  ∃ text xml, scheme_text = TextResource text xml
              ∧ unfound = ScopeList (parse_scheme_xml (keys (static_nodes self)) text).
Proof.
  intros Hext. unfold find_unfound.
  destruct (String.eqb_spec (ext (paths self)) ".sublime-color-scheme"); [done|].
  destruct (Str.endswith _ _); [|done].
  destruct scheme_text as [text xml|doc]; [|done]. intros [= <-]. eauto.
Qed.

(** X3.  In the JSON engine with a tmTheme original, the missing static
    scopes are a list.  If a prior derived document has rules and they do not
    declare every missing scope, the pass raises [AttributeError] and leaves
    the world as it is; if they declare them all, the pass writes. *)
Theorem json_pass_tmTheme_recheck
    (self : Scheme rule) (text : string) (xml : option element) (w : world)
    (old : list rule) (other : gmap string string) :
  ext (paths self) ≠ ".sublime-color-scheme" →
  Str.endswith (ext (paths self)) "tmTheme" = true →
  files w !! new_scheme_path self = Some (JsonFile (Theme (Some old) other)) →
  old ≠ [] →
  let missing := parse_scheme_xml (keys (static_nodes self)) text in
  missing ≠ [] →
  (¬ list_to_set missing ⊆ scopes_declared_in old →
     json_generate_color_scheme_async self (TextResource text xml) w
       = Raised AttributeError w)
  ∧ (list_to_set missing ⊆ scopes_declared_in old →
     ∃ w', json_generate_color_scheme_async self (TextResource text xml) w = Ok tt w'
           ∧ files w' !! new_scheme_path self
             = Some (JsonFile (Theme (Some (remove_dyn_rules old
                                            ++ values (dynamic_nodes self))) other))).
Proof.
  intros Hext Hend Hf Hold missing Hmiss.
  assert (find_unfound self (TextResource text xml) = Return (ScopeList missing)) as Hu.
  { unfold find_unfound. rewrite Hend.
    by destruct (String.eqb_spec (ext (paths self)) ".sublime-color-scheme"). }
  assert (scopes_truthy (ScopeList missing) = true) as Ht.
  { simpl. by apply bool_decide_eq_true. }
  rewrite json_generate_unfold. unfold json_outcome.
  destruct (find_unfound self (TextResource text xml)) as [u|e]; [|done].
  injection Hu as ->.
  rewrite Hf, Ht. simpl negb. cbn [andb].
  rewrite (bool_decide_eq_true_2 (old ≠ [])) by done. cbn [andb].
  rewrite parse_scheme_json_list_cases. split.
  - intros H. destruct (parse_loop (list_to_set missing) old) eqn:E; [done|].
    by apply parse_loop_None_iff in E as [_ ?].
  - intros H. rewrite (proj2 (parse_loop_None_iff old _)) by done. unfold json_finish.
    edestruct (finish_spec self) as (w1 & -> & Hw1 & _); [apply notes_no_write|].
    exists w1. split; [done|]. by rewrite Hw1, lookup_insert_eq.
Qed.

Lemma json_pass_tmTheme_recheck_witness :
  json_generate_color_scheme_async ex_json_tm ex_tm_resource ex_world_after_first_pass
  = Raised AttributeError ex_world_after_first_pass.
Proof.
  refine (proj1 (json_pass_tmTheme_recheck ex_json_tm ex_tm_text (Some ex_tm_plist)
                   ex_world_after_first_pass (values (dynamic_nodes ex_json_tm)) ∅
                   _ _ _ _ _) _).
  - intros H. vm_compute in H. discriminate H.
  - vm_compute. reflexivity.
  - vm_compute. reflexivity.
  - intros H. apply (f_equal length) in H. vm_compute in H. discriminate H.
  - vm_compute. discriminate.
  - intros H. apply (bool_decide_pack _) in H. vm_compute in H. exact H.
Defined.

(** ** What a pass leaves alone *)

Lemma json_outcome_shape self scheme_text w :
  (∃ e, json_generate_color_scheme_async self scheme_text w = Raised e w)
  ∨ json_generate_color_scheme_async self scheme_text w = Ok tt w
  ∨ ∃ notes kept other,
      (∀ p, FileWrite p ∉ notes)
      ∧ json_generate_color_scheme_async self scheme_text w
        = json_finish self notes kept other w.
Proof.
  rewrite json_generate_unfold. unfold json_outcome.
  destruct (find_unfound self scheme_text) as [unfound|e]; [|eauto].
  destruct (negb _ && _); [eauto|].
  destruct (files w !! new_scheme_path self) as [[[[old|] other]|pre plist]|];
    [|eauto|eauto|].
  - destruct (_ && _).
    + destruct (parse_scheme_json unfound old) as [u'|e]; [|eauto].
      right. right. eexists _, _, _. split; [|done]. apply notes_no_write.
    + right. right. eexists _, _, _. split; [|done]. intros p. apply not_elem_of_nil.
  - right. right. eexists _, _, _. split; [|done]. intros p. apply not_elem_of_nil.
Qed.




(** ** The style array of a plist *)

Lemma arrays_update nodes cs :
  match update_first (λ a, let 'Element ta txa csa := a in
                           if String.eqb ta "array"
                           then Some (Element ta txa (csa ++ nodes)) else None) cs with
  | None => arrays_of cs = []
  | Some cs' => ∃ a rest, arrays_of cs = a :: rest
                          ∧ arrays_of cs' = extended a nodes :: rest
                          ∧ length cs' = length cs
  end.
Proof.
  unfold arrays_of. induction cs as [|[ta txa csa] cs IH]; simpl; [done|].
  destruct (String.eqb_spec ta "array") as [->|Hne].
  - exists (Element "array" txa csa), (filter (λ a, tag a = "array") cs).
    by rewrite !filter_cons_True by done.
  - destruct (update_first _ cs) as [cs'|]; simpl.
    + destruct IH as (a & rest & H1 & H2 & H3). exists a, rest.
      rewrite !filter_cons_False by done. split_and!; [done|done|]. simpl. by rewrite H3.
    + by rewrite filter_cons_False by done.
Qed.

Lemma dicts_update nodes cs :
  let arrays := λ cs, mbind (λ d, arrays_of (children d)) (filter (λ d, tag d = "dict") cs) in
  match update_first (λ d,
      let 'Element td txd csd := d in
      if String.eqb td "dict" then
        Element td txd <$>
          update_first (λ a,
            let 'Element ta txa csa := a in
            if String.eqb ta "array" then Some (Element ta txa (csa ++ nodes))
            else None) csd
      else None) cs with
  | None => arrays cs = []
  | Some cs' => ∃ a rest, arrays cs = a :: rest
                          ∧ arrays cs' = extended a nodes :: rest
                          ∧ length cs' = length cs
  end.
Proof.
  intros arrays. subst arrays. induction cs as [|[td txd csd] cs IH]; [done|]. simpl in *.
  destruct (String.eqb_spec td "dict") as [->|Hne].
  - pose proof (arrays_update nodes csd) as Ha.
    destruct (update_first _ csd) as [csd'|]; simpl in *.
    + destruct Ha as (a & rest & H1 & H2 & H3).
      exists a, (rest ++ mbind (λ d, arrays_of (children d))
                           (filter (λ d, tag d = "dict") cs)).
      rewrite ?filter_cons_True by done. simpl. rewrite H1, H2. done.
    + destruct (update_first _ cs) as [cs'|]; simpl in *.
      * destruct IH as (a & rest & H1 & H2 & H3). exists a, rest.
        rewrite ?filter_cons_True by done. simpl. rewrite Ha. simpl.
        split_and!; [done|done|]. by rewrite H3.
      * rewrite ?filter_cons_True by done. simpl. rewrite Ha. exact IH.
  - destruct (update_first _ cs) as [cs'|]; simpl in *.
    + destruct IH as (a & rest & H1 & H2 & H3). exists a, rest.
      rewrite ?filter_cons_False by done. split_and!; [done|done|]. by rewrite H3.
    + by rewrite ?filter_cons_False by done.
Qed.

Lemma extend_styles_cases plist nodes :
  match extend_styles plist nodes with
  | None => find_dict_array plist = None
  | Some plist' =>
      ∃ a, find_dict_array plist = Some a
           ∧ find_dict_array plist' = Some (extended a nodes)
           ∧ tag plist' = tag plist
           ∧ text_of plist' = text_of plist
           ∧ length (children plist') = length (children plist)
  end.
Proof.
  destruct plist as [t tx cs]. unfold extend_styles, find_dict_array.
  pose proof (dicts_update nodes cs) as H. simpl in H.
  destruct (update_first _ cs) as [cs'|]; simpl.
  - destruct H as (a & rest & H1 & H2 & H3). exists a.
    unfold arrays_of in *. by rewrite H1, H2.
  - unfold arrays_of in *. by rewrite H.
Qed.

Lemma update_first_at {A} (f : A → option A) (l : list A) i x y :
  l !! i = Some x → f x = Some y →
  (∀ j z, (j < i)%nat → l !! j = Some z → f z = None) →
  update_first f l = Some (<[i := y]> l).
Proof.
  revert i. induction l as [|h l IH]; intros i Hi Hx Hbefore; [done|].
  destruct i as [|i]; simpl in *.
  - injection Hi as ->. by rewrite Hx.
  - rewrite (Hbefore 0%nat h) by (lia || done).
    rewrite (IH i Hi Hx); [done|].
    intros j z Hj Hz. apply (Hbefore (S j) z); [lia | done].
Qed.

Lemma update_first_none {A} (f : A → option A) (l : list A) :
  (∀ x, x ∈ l → f x = None) → update_first f l = None.
Proof.
  induction l as [|h l IH]; intros H; [done|]. simpl.
  rewrite (H h) by left. rewrite IH; [done|].
  intros x Hx. apply H. by right.
Qed.

(** the array [find] returns is the one extended, in place *)
Lemma extend_styles_first plist nodes i j d a :
  first_dict_array plist i j d a →
  extend_styles plist nodes = Some (replace_at plist i j d (extended a nodes)).
Proof.
  intros (Hd & Htd & Ha & Hta & Hbefore_d & Hbefore_a).
  destruct plist as [t tx cs]. unfold extend_styles, replace_at. simpl in *.
  erewrite update_first_at; [done | exact Hd | |].
  - destruct d as [td txd csd]. simpl in *. subst td. simpl.
    erewrite update_first_at; [done | exact Ha | |].
    + destruct a as [ta txa csa]. simpl in *. by subst ta.
    + intros j' [ta' txa' csa'] Hj' Hl. specialize (Hbefore_a _ _ Hj' Hl). simpl in *.
      by destruct (String.eqb_spec ta' "array").
  - intros i' [td' txd' csd'] Hi' Hl.
    destruct (String.eqb_spec td' "dict") as [->|]; [|done].
    rewrite update_first_none; [done|].
    intros [ta' txa' csa'] Hin. specialize (Hbefore_d _ _ _ Hi' Hl eq_refl Hin).
    simpl in *. by destruct (String.eqb_spec ta' "array").
Qed.

Lemma head_filter_position {A} (P : A → Prop) `{!∀ x, Decision (P x)} (l : list A) x :
  head (filter P l) = Some x →
  ∃ i, l !! i = Some x ∧ P x ∧ ∀ j y, (j < i)%nat → l !! j = Some y → ¬ P y.
Proof.
  induction l as [|h l IH]; [done|]. intros Hhd.
  destruct (decide (P h)) as [Hh|Hh].
  - rewrite filter_cons_True in Hhd by done. injection Hhd as ->.
    exists 0%nat. split_and!; [done|done|]. intros j y Hj. lia.
  - rewrite filter_cons_False in Hhd by done.
    destruct (IH Hhd) as (i & Hi & Hx & Hbefore). exists (S i). split_and!; [done|done|].
    intros [|j] y Hj Hy; simpl in Hy.
    + by injection Hy as <-.
    + apply (Hbefore j); [lia | done].
Qed.

Lemma find_dict_array_position plist a :
  find_dict_array plist = Some a → ∃ i j d, first_dict_array plist i j d a.
Proof.
  destruct plist as [t tx cs]. unfold find_dict_array, first_dict_array. simpl.
  induction cs as [|c cs IH]; [done|]. intros H.
  assert (∀ i j d,
            cs !! i = Some d ∧ tag d = "dict" ∧ children d !! j = Some a ∧ tag a = "array"
            ∧ (∀ i' d' a', (i' < i)%nat → cs !! i' = Some d' → tag d' = "dict" →
                           a' ∈ children d' → tag a' ≠ "array")
            ∧ (∀ j' a', (j' < j)%nat → children d !! j' = Some a' → tag a' ≠ "array") →
            (tag c = "dict" → ∀ a', a' ∈ children c → tag a' ≠ "array") →
            ∃ i j d,
              (c :: cs) !! i = Some d ∧ tag d = "dict" ∧ children d !! j = Some a
              ∧ tag a = "array"
              ∧ (∀ i' d' a', (i' < i)%nat → (c :: cs) !! i' = Some d' → tag d' = "dict" →
                             a' ∈ children d' → tag a' ≠ "array")
              ∧ (∀ j' a', (j' < j)%nat → children d !! j' = Some a' → tag a' ≠ "array"))
    as Hshift.
  { intros i j d (H1 & H2 & H3 & H4 & H5 & H6) Hc. exists (S i), j, d.
    split_and!; try done.
    intros [|i'] d' a' Hi' Hl Hd' Hin; simpl in Hl.
    - injection Hl as <-. by apply Hc.
    - apply (H5 i' d' a'); [lia|done..]. }
  destruct (decide (tag c = "dict")) as [Hc|Hc].
  - rewrite filter_cons_True in H by done. simpl in H.
    destruct (filter (λ a, tag a = "array") (children c)) as [|a0 l0] eqn:E.
    + simpl in H. destruct (IH H) as (i & j & d & Hi). apply (Hshift i j d Hi).
      intros _ a' Hin Ha'.
      assert (a' ∈ filter (λ a, tag a = "array") (children c)) as Hf
        by (by apply list_elem_of_filter).
      rewrite E in Hf. by apply elem_of_nil in Hf.
    + simpl in H. injection H as ->.
      destruct (head_filter_position (λ a, tag a = "array") (children c) a)
        as (j & Hj & Hta & Hbefore); [by rewrite E|].
      exists 0%nat, j, c. split_and!; try done. intros i' d' a' Hi'. lia.
  - rewrite filter_cons_False in H by done.
    destruct (IH H) as (i & j & d & Hi). apply (Hshift i j d Hi). done.
Qed.

Lemma first_dict_array_unique plist i j d a i' j' d' a' :
  first_dict_array plist i j d a → first_dict_array plist i' j' d' a' →
  i = i' ∧ j = j' ∧ d = d' ∧ a = a'.
Proof.
  intros (Hd & Htd & Ha & Hta & Hbd & Hba) (Hd' & Htd' & Ha' & Hta' & Hbd' & Hba').
  assert (i = i') as <-.
  { destruct (lt_eq_lt_dec i i') as [[Hlt | ->] | Hlt]; [|done|]; exfalso.
    - apply (Hbd' i d a Hlt Hd Htd); [|done]. by eapply list_elem_of_lookup_2.
    - apply (Hbd i' d' a' Hlt Hd' Htd'); [|done]. by eapply list_elem_of_lookup_2. }
  rewrite Hd in Hd'. injection Hd' as <-.
  assert (j = j') as <-.
  { destruct (lt_eq_lt_dec j j') as [[Hlt | ->] | Hlt]; [|done|]; exfalso.
    - by apply (Hba' j a Hlt Ha).
    - by apply (Hba j' a' Hlt Ha'). }
  rewrite Ha in Ha'. by injection Ha' as <-.
Qed.

Lemma first_dict_array_found plist i j d a :
  first_dict_array plist i j d a → find_dict_array plist = Some a.
Proof.
  intros H. pose proof (extend_styles_first plist [] i j d a H) as E.
  pose proof (extend_styles_cases plist []) as Hc. rewrite E in Hc.
  destruct Hc as (a0 & Ha0 & _). rewrite Ha0.
  destruct (find_dict_array_position plist a0 Ha0) as (i0 & j0 & d0 & H0).
  destruct (first_dict_array_unique _ _ _ _ _ _ _ _ _ H H0) as (_ & _ & _ & ->). done.
Qed.

(** X6.  [styles = plist.find('./dict/array'); styles.extend(nodes)] fails
    exactly when the plist has no [array] under a [dict] of its root.
    Otherwise [find] returns the first [array] child of the first [dict]
    child that has one, and the tree afterwards is the tree before with that
    one element replaced, at its place, by itself with the nodes appended
    after its own children: nothing else changes, and [find] returns the
    extended array. *)
Theorem extend_styles_appends_to_first_array (plist : element) (nodes : list element) :
  (extend_styles plist nodes = None ↔ find_dict_array plist = None)
  ∧ (∀ a, find_dict_array plist = Some a → ∃ i j d, first_dict_array plist i j d a)
  ∧ (∀ i j d a, first_dict_array plist i j d a →
       find_dict_array plist = Some a
       ∧ extend_styles plist nodes = Some (replace_at plist i j d (extended a nodes))
       ∧ find_dict_array (replace_at plist i j d (extended a nodes))
         = Some (extended a nodes)).
Proof.
  split_and!.
  - pose proof (extend_styles_cases plist nodes) as H.
    destruct (extend_styles plist nodes) as [plist'|].
    + destruct H as (a & Ha & H). split; [done|]. by rewrite Ha.
    + done.
  - apply find_dict_array_position.
  - intros i j d a H. pose proof (first_dict_array_found _ _ _ _ _ H) as Hfind.
    pose proof (extend_styles_first plist nodes i j d a H) as E.
    split_and!; [done|done|].
    pose proof (extend_styles_cases plist nodes) as Hc. rewrite E in Hc.
    destruct Hc as (a0 & Ha0 & Hfind' & _). rewrite Hfind in Ha0. by injection Ha0 as <-.
Qed.

Lemma ex_plist_array :
  first_dict_array ex_plist 0 3 (Element "dict" None
       [Element "key" (Some "name") []; Element "string" (Some "Plain") [];
        Element "key" (Some "settings") []; Element "array" None []])
    (Element "array" None []).
Proof.
  split_and!; [done..| |].
  - intros i' d' a' Hi'. lia.
  - intros [|[|[|j']]] a' Hj' Ha'; [| | |lia]; simpl in Ha'; by injection Ha' as <-.
Qed.

Lemma extend_styles_witness :
  extend_styles ex_plist [ex_node]
  = Some (Element "plist" None
            [Element "dict" None
               [Element "key" (Some "name") []; Element "string" (Some "Plain") [];
                Element "key" (Some "settings") [];
                Element "array" None [ex_node]]]).
Proof.
  exact (proj1 (proj2 (proj2 (proj2
           (extend_styles_appends_to_first_array ex_plist [ex_node])) _ _ _ _ ex_plist_array))).
Defined.

Lemma values_length {A} (m : gmap string A) : length (values m) = size m.
Proof. unfold values. by rewrite length_fmap, length_map_to_list. Qed.

(** X7.  The XML engine writes the preamble and the original plist in which
    the style array (the first [array] child of the first [dict] child that
    has one) has the current dynamic nodes appended after its own entries,
    one entry per dynamic node; the rest of the tree is the original.  It
    raises, writing nothing, when the original is not text ([TypeError]),
    does not parse ([ParseError]) or has no style array
    ([AttributeError]). *)
Theorem xml_pass_document
    (self : Scheme element) (scheme_text : resource) (w : world) :
  (∀ text plist i j d a,
     scheme_text = TextResource text (Some plist) →
     first_dict_array plist i j d a →
     let styles := extended a (values (dynamic_nodes self)) in
     ∃ w',
       xml_generate_color_scheme_async self scheme_text w = Ok tt w'
       ∧ files w' = <[mod_scheme_path self :=
                        XmlFile COLOR_SCHEME_PREAMBLE (replace_at plist i j d styles)]>
                      (files w)
       ∧ children styles = children a ++ values (dynamic_nodes self)
       ∧ length (children styles) = length (children a) + size (dynamic_nodes self))
  ∧ (∀ text plist,
       scheme_text = TextResource text (Some plist) →
       find_dict_array plist = None →
       xml_generate_color_scheme_async self scheme_text w = Raised AttributeError w)
  ∧ (∀ text, scheme_text = TextResource text None →
       xml_generate_color_scheme_async self scheme_text w = Raised ParseError w)
  ∧ (∀ doc, scheme_text = JsonResource doc →
       xml_generate_color_scheme_async self scheme_text w = Raised TypeError w).
Proof.
  split_and!.
  - intros text plist i j d a -> Ha styles.
    pose proof (xml_pass_cases self (TextResource text (Some plist)) w) as H.
    unfold xml_document in H.
    rewrite (extend_styles_first _ _ _ _ _ _ Ha) in H.
    destruct H as (w' & E & Hf & _). exists w'.
    split_and!; [done|done|done|].
    subst styles. simpl. by rewrite length_app, values_length.
  - intros text plist -> Hnone. rewrite xml_generate_unfold. unfold xml_outcome.
    pose proof (extend_styles_cases plist (values (dynamic_nodes self))) as Hx.
    destruct (extend_styles plist _) as [plist'|]; [|done].
    destruct Hx as (a & Ha & _). congruence.
  - intros text ->. by rewrite xml_generate_unfold.
  - intros doc ->. by rewrite xml_generate_unfold.
Qed.

Lemma xml_pass_document_witness :
  ∃ w', xml_generate_color_scheme_async ex_xml ex_text_resource ex_world_tm = Ok tt w'
        ∧ files w' !! "/st/Packages/User/SublimeLinter/Monokai (SL).hidden-tmTheme"
          = Some (XmlFile COLOR_SCHEME_PREAMBLE
                    (Element "plist" None
                       [Element "dict" None
                          [Element "key" (Some "name") [];
                           Element "string" (Some "Plain") [];
                           Element "key" (Some "settings") [];
                           Element "array" None [ex_node]]])).
Proof.
  destruct (proj1 (xml_pass_document ex_xml ex_text_resource ex_world_tm)
              _ _ _ _ _ _ eq_refl ex_plist_array) as (w' & E & Hf & _).
  exists w'. split; [exact E|]. rewrite Hf. vm_compute. reflexivity.
Defined.

(** ** The registries *)

Lemma assembled_recorded self : assembled self → recorded self.
Proof. induction 1; by constructor. Qed.

Lemma not_dynamic_scope scope : Re.re_match DYN_PAT scope = false → ¬ dynamic_scope scope.
Proof. intros H Hd%DYN_PAT_match. congruence. Qed.

(** X8.  However many nodes have been assembled, the two registries split
    the scopes by the dynamic pattern: every key of [dynamic_nodes] matches
    it, no key of [static_nodes] does, so no scope is in both. *)
Theorem registries_split_scopes {node : Type} (self : Scheme node) :
  recorded self →
  (∀ k, is_Some (dynamic_nodes self !! k) → dynamic_scope k)
  ∧ (∀ k, is_Some (static_nodes self !! k) → ¬ dynamic_scope k)
  ∧ (∀ k, ¬ (is_Some (dynamic_nodes self !! k) ∧ is_Some (static_nodes self !! k))).
Proof.
  intros H.
  assert ((∀ k, is_Some (dynamic_nodes self !! k) → dynamic_scope k)
          ∧ (∀ k, is_Some (static_nodes self !! k) → ¬ dynamic_scope k)) as [Hd Hs].
  { induction H as [|self scope n _ [IHd IHs]]; simpl.
    - split; intros k; rewrite lookup_empty; by intros [? ?].
    - unfold record_node. destruct (Re.re_match DYN_PAT scope) eqn:E; simpl.
      + split; [|done]. intros k. destruct (decide (scope = k)) as [<-|Hne].
        * intros _. by apply DYN_PAT_match.
        * rewrite lookup_insert_ne by done. apply IHd.
      + split; [done|]. intros k. destruct (decide (scope = k)) as [<-|Hne].
        * intros _. by apply not_dynamic_scope.
        * rewrite lookup_insert_ne by done. apply IHs. }
  split_and!; [done|done|]. intros k [H1 H2]. apply (Hs k H2). by apply Hd.
Qed.

Lemma registries_split_scopes_witness :
  recorded ex_dynamic
  ∧ dynamic_scope "sublimelinter.gutter.style_001"
  ∧ ¬ dynamic_scope "sublimelinter.mark.error".
Proof.
  assert (recorded ex_dynamic) as H.
  { unfold ex_dynamic, ex_static_only, json_assemble_node.
    apply recorded_node, recorded_node, recorded_empty. }
  split; [exact H|].
  destruct (registries_split_scopes ex_dynamic H) as (Hd & Hs & _). split.
  - apply Hd. vm_compute. eexists. reflexivity.
  - apply Hs. vm_compute. eexists. reflexivity.
Defined.

(** X9.  [assemble_node] changes nothing but the node of its own scope:
    the nodes of all other scopes, the scheme and the paths stay as they
    are; and assembling a scope again replaces the earlier node, so the last
    assembly wins. *)
Theorem assemble_node_last_wins {node : Type}
    (self : Scheme node) (scope : string) (n1 n2 : node) :
  (∀ k, k ≠ scope →
     dynamic_nodes (record_node self scope n1) !! k = dynamic_nodes self !! k
     ∧ static_nodes (record_node self scope n1) !! k = static_nodes self !! k)
  ∧ scheme (record_node self scope n1) = scheme self
  ∧ paths (record_node self scope n1) = paths self
  ∧ record_node (record_node self scope n1) scope n2 = record_node self scope n2.
Proof.
  unfold record_node. destruct (Re.re_match DYN_PAT scope) eqn:E; simpl; rewrite ?E.
  - split_and!; [|done|done|].
    + intros k Hk. by rewrite lookup_insert_ne.
    + simpl. by rewrite insert_insert_eq.
  - split_and!; [|done|done|].
    + intros k Hk. by rewrite lookup_insert_ne.
    + simpl. by rewrite insert_insert_eq.
Qed.

(** the dict [assemble_node] builds, as a map *)
Lemma husk_union scope input_dict name :
  husk scope input_dict name
  = filter (λ kv, kv.1 ∈ used_keys) input_dict
    ∪ <["name" := node_name scope name]> (<["scope" := scope]> ∅).
Proof.
  unfold husk.
  apply (map_fold_weak_ind (λ (r : rule) (m : gmap string string),
           r = filter (λ kv, kv.1 ∈ used_keys) m
               ∪ <["name" := node_name scope name]> (<["scope" := scope]> ∅))).
  - by rewrite map_filter_empty, (left_id_L ∅ (∪)).
  - intros i x m r Hi ->. case_bool_decide as Hu.
    + rewrite map_filter_insert_True by done. by rewrite insert_union_l.
    + rewrite map_filter_insert_False by done. by rewrite delete_id.
Qed.

(** X10.  The rule of the JSON engine carries the scope, a name (the scope
    itself when no name or an empty one is given), the style attributes
    [foreground], [background] and [font_style] that the input has, with
    their values unchanged, and nothing else: any other key of the input is
    dropped, and the input cannot override [scope] or [name]. *)
Theorem husk_fields (scope : string) (input_dict : gmap string string)
    (name : option string) :
  husk scope input_dict name !! "scope" = Some scope
  ∧ husk scope input_dict name !! "name" = Some (node_name scope name)
  ∧ (node_name scope None = scope ∧ node_name scope (Some "") = scope
     ∧ ∀ n, n ≠ "" → node_name scope (Some n) = n)
  ∧ (∀ k, k ∈ used_keys → husk scope input_dict name !! k = input_dict !! k)
  ∧ (∀ k, k ≠ "scope" → k ≠ "name" → k ∉ used_keys →
          husk scope input_dict name !! k = None).
Proof.
  rewrite husk_union.
  assert (∀ k, k ∈ used_keys → k ≠ "scope" ∧ k ≠ "name") as Hused.
  { intros k Hk. unfold used_keys in Hk. rewrite !elem_of_cons, elem_of_nil in Hk.
    split; intros ->; naive_solver. }
  assert (∀ k, k ∉ used_keys →
            filter (λ kv : string * string, kv.1 ∈ used_keys) input_dict !! k = None)
    as Hnot.
  { intros k Hk. apply map_lookup_filter_None. right. intros x _. done. }
  split_and!.
  - rewrite lookup_union_r by (apply Hnot; intros H%Hused; naive_solver).
    by rewrite lookup_insert_ne, lookup_insert_eq.
  - rewrite lookup_union_r by (apply Hnot; intros H%Hused; naive_solver).
    by rewrite lookup_insert_eq.
  - done.
  - done.
  - intros n Hn. simpl. by destruct n.
  - intros k Hk. destruct (Hused k Hk) as [H1 H2].
    destruct (input_dict !! k) as [v|] eqn:Ev.
    + apply lookup_union_Some_l. by apply map_lookup_filter_Some.
    + rewrite lookup_union_r.
      * by rewrite !lookup_insert_ne, lookup_empty.
      * apply map_lookup_filter_None. by left.
  - intros k H1 H2 Hk. rewrite lookup_union_r by by apply Hnot.
    by rewrite !lookup_insert_ne, lookup_empty.
Qed.

(** ** The purge *)

Lemma remove_dyn_rules_sublist l : remove_dyn_rules l `sublist_of` l.
Proof.
  induction l as [|r l IH]; simpl; [done|].
  destruct (keeps r); by constructor.
Qed.

(** X11.  [remove_dyn_rules] returns a sub-list of its input (order kept,
    nothing added), purging again changes nothing, and it removes in full
    what a pass appended: for an assembled registry, the purge of the kept
    rules followed by the dynamic nodes is the purge of the kept rules. *)
Theorem remove_dyn_rules_undoes_append (self : Scheme rule) (l : list rule) :
  remove_dyn_rules l `sublist_of` l
  ∧ remove_dyn_rules (remove_dyn_rules l) = remove_dyn_rules l
  ∧ (assembled self →
     remove_dyn_rules (l ++ values (dynamic_nodes self)) = remove_dyn_rules l).
Proof.
  split_and!.
  - apply remove_dyn_rules_sublist.
  - apply remove_dyn_rules_idemp.
  - intros Ha. by rewrite remove_dyn_rules_app, remove_dyn_rules_values, app_nil_r.
Qed.

Lemma remove_dyn_rules_undoes_append_witness :
  remove_dyn_rules ([ex_user_rule] ++ values (dynamic_nodes ex_dynamic))
  = remove_dyn_rules [ex_user_rule].
Proof.
  apply (proj2 (proj2 (remove_dyn_rules_undoes_append ex_dynamic [ex_user_rule]))).
  unfold ex_dynamic, ex_static_only. apply assembled_node, assembled_node, assembled_empty.
Defined.

(** X12.  The purge looks for the dynamic pattern anywhere in the ["scope"]
    field ([re.search]), while [assemble_node] looks at its start
    ([re.match]): a rule whose scope field mentions a dynamic scope after
    other text, as in a list of selectors, is removed by [remove_dyn_rules]
    wherever it stands in the rules. *)
Theorem remove_dyn_rules_drops_mentions
    (rules0 : list rule) (r : rule) (pre scope post : string) :
  dynamic_scope scope →
  r !! "scope" = Some (pre +:+ scope +:+ post) →
  r ∉ remove_dyn_rules rules0.
Proof.
  intros Hd%DYN_PAT_match Hr.
  apply ReFacts.re_match_lang in Hd as (x & rest & Hs & Hx).
  rewrite elem_of_remove_dyn_rules. intros [_ (s & Hs' & Hsearch)].
  rewrite Hr in Hs'. injection Hs' as <-.
  assert (Re.re_search DYN_PAT (pre +:+ scope +:+ post) = true) as Ht; [|congruence].
  apply ReFacts.re_search_lang. exists (Str.chars pre), x, (rest ++ Str.chars post).
  split; [|done]. rewrite !chars_app, Hs. by rewrite <- !app_assoc.
Qed.

Lemma remove_dyn_rules_drops_mentions_witness :
  ({[ "scope" := "comment, sublimelinter.gutter.style_001" ]} : rule)
    ∉ remove_dyn_rules [ {[ "scope" := "comment, sublimelinter.gutter.style_001" ]} ].
Proof.
  apply (remove_dyn_rules_drops_mentions _ _ "comment, " "sublimelinter.gutter.style_001" "").
  - exists "gutter", "001", "". split; [reflexivity|].
    split; [discriminate|]. split; [|split; [simpl; lia|]];
      vm_compute; repeat constructor.
  - vm_compute. reflexivity.
Defined.

(** ** The text-scan differ *)

Lemma lang_seq_cons r rs s :
  Re.lang (Re.seq (r :: rs)) s →
  ∃ s1 s2, s = s1 ++ s2 ∧ Re.lang r s1 ∧ Re.lang (Re.seq rs) s2.
Proof. apply ReFacts.lang_cat_inv. Qed.

Lemma lang_seq_concat rs ps :
  Forall2 Re.lang rs ps → Re.lang (Re.seq rs) (concat ps).
Proof.
  induction 1 as [|r p rs ps Hr _ IH]; simpl; [constructor|]. by constructor.
Qed.

Lemma lang_lit s x : Re.lang (Re.lit s) x ↔ x = Str.chars s.
Proof. apply ReFacts.lang_lit_chars. Qed.

Lemma contains_app text pre s post :
  Str.chars text = pre ++ Str.chars s ++ post → contains text s.
Proof. intros H. by exists pre, post. Qed.

(** what a match of [MARK_COLOR_RE] holds *)
Lemma MARK_COLOR_RE_found scope text :
  Re.re_search (MARK_COLOR_RE scope) text = true →
  contains text ("<string>sublimelinter." +:+ scope +:+ "</string>")
  ∧ contains text "<key>foreground</key>".
Proof.
  intros (pre & x & post & Ht & H)%ReFacts.re_search_lang.
  unfold MARK_COLOR_RE in H. cbv zeta in H.
  apply lang_seq_cons in H as (w1 & x1 & -> & _ & H).
  apply lang_seq_cons in H as (a & x2 & -> & Ha%lang_lit & H).
  apply lang_seq_cons in H as (b & x3 & -> & Hb%lang_lit & H).
  apply lang_seq_cons in H as (c & x4 & -> & Hc%lang_lit & H).
  subst a b c. split.
  - exists (pre ++ w1), (x4 ++ post). rewrite Ht, !chars_app.
    by rewrite <- !app_assoc.
  - apply lang_seq_cons in H as (p5 & y5 & -> & _ & H).
    apply lang_seq_cons in H as (p6 & y6 & -> & _ & H).
    apply lang_seq_cons in H as (p7 & y7 & -> & _ & H).
    apply lang_seq_cons in H as (p8 & y8 & -> & _ & H).
    apply lang_seq_cons in H as (p9 & y9 & -> & _ & H).
    apply lang_seq_cons in H as (p10 & y10 & -> & _ & H).
    apply lang_seq_cons in H as (p11 & y11 & -> & _ & H).
    apply lang_seq_cons in H as (p12 & y12 & -> & _ & H).
    apply lang_seq_cons in H as (p13 & y13 & -> & _ & H).
    apply lang_seq_cons in H as (p14 & y14 & -> & _ & H).
    apply lang_seq_cons in H as (p15 & y15 & -> & _ & H).
    apply lang_seq_cons in H as (p16 & y16 & -> & _ & H).
    apply lang_seq_cons in H as (k & y17 & -> & Hk%lang_lit & H).
    subst k.
    exists (pre ++ w1 ++ Str.chars "<string>sublimelinter." ++ Str.chars scope
            ++ Str.chars "</string>" ++ p5 ++ p6 ++ p7 ++ p8 ++ p9 ++ p10 ++ p11
            ++ p12 ++ p13 ++ p14 ++ p15 ++ p16), (y17 ++ post).
    rewrite Ht. by rewrite <- !app_assoc.
Qed.

Lemma parse_scheme_xml_elem nodes text scope :
  scope ∈ parse_scheme_xml nodes text
  ↔ scope ∈ nodes ∧ Re.re_search (MARK_COLOR_RE scope) text = false.
Proof. unfold parse_scheme_xml. rewrite list_elem_of_filter. tauto. Qed.

Lemma not_contains_empty s : s ≠ "" → ¬ contains "" s.
Proof.
  intros Hs (pre & post & H). simpl in H. symmetry in H.
  apply app_eq_nil in H as [_ H]. apply app_eq_nil in H as [H _].
  destruct s; [done | discriminate].
Qed.

(** X13.  [parse_scheme_xml] reports the given scopes in their order, each
    one whose settings block the text lacks.  A scope is reported whenever
    the text does not hold the string element
    [<string>sublimelinter.<scope></string>] (the pattern puts
    [sublimelinter.] before the scope it is given) or holds no
    [<key>foreground</key>]; on an empty text every scope is reported. *)
Theorem parse_scheme_xml_reports (nodes : list string) (text : string) :
  parse_scheme_xml nodes text `sublist_of` nodes
  ∧ (∀ scope, scope ∈ nodes →
       ¬ contains text ("<string>sublimelinter." +:+ scope +:+ "</string>") →
       scope ∈ parse_scheme_xml nodes text)
  ∧ (∀ scope, scope ∈ nodes →
       ¬ contains text "<key>foreground</key>" →
       scope ∈ parse_scheme_xml nodes text)
  ∧ parse_scheme_xml nodes "" = nodes.
Proof.
  split_and!.
  - unfold parse_scheme_xml. apply sublist_filter.
  - intros scope Hin Hno. apply parse_scheme_xml_elem. split; [done|].
    destruct (Re.re_search _ _) eqn:E; [|done].
    apply MARK_COLOR_RE_found in E as [E _]. done.
  - intros scope Hin Hno. apply parse_scheme_xml_elem. split; [done|].
    destruct (Re.re_search _ _) eqn:E; [|done].
    apply MARK_COLOR_RE_found in E as [_ E]. done.
  - unfold parse_scheme_xml. induction nodes as [|scope nodes IH]; [done|].
    rewrite filter_cons_True; [by rewrite IH|].
    destruct (Re.re_search _ _) eqn:E; [|done].
    apply MARK_COLOR_RE_found in E as [_ E]. by apply not_contains_empty in E.
Qed.

Lemma parse_scheme_xml_reports_witness :
  "sublimelinter.mark.error"
    ∈ parse_scheme_xml ["sublimelinter.mark.error"]
        (mark_block "mark.warning" "FF0000").
Proof.
  apply (proj1 (proj2 (parse_scheme_xml_reports ["sublimelinter.mark.error"]
                         (mark_block "mark.warning" "FF0000")))).
  - left.
  - intros (pre & post & H).
    assert (Re.re_search (Re.lit "<string>sublimelinter.sublimelinter.mark.error</string>")
              (mark_block "mark.warning" "FF0000") = true) as Hs.
    { apply ReFacts.re_search_lang.
      exists pre,
        (Str.chars "<string>sublimelinter.sublimelinter.mark.error</string>"), post.
      split; [exact H|]. by apply lang_lit. }
    vm_compute in Hs. discriminate.
Defined.

(** X14.  A scope is not reported when the text holds its block in the
    form [MARK_COLOR_RE] describes: the string element with
    [sublimelinter.] before the scope, the settings key, and a dict whose
    first entry is a foreground colour, one per line. *)
Theorem parse_scheme_xml_finds_block
    (nodes : list string) (scope colour pre post : string) :
  colour ≠ "" → "010"%char ∉ Str.chars colour →
  scope ∉ parse_scheme_xml nodes (pre +:+ mark_block scope colour +:+ post).
Proof.
  intros Hne Hnl. rewrite parse_scheme_xml_elem. intros [_ H].
  assert (Re.re_search (MARK_COLOR_RE scope) (pre +:+ mark_block scope colour +:+ post)
          = true) as Ht; [|congruence].
  apply ReFacts.re_search_lang.
  exists (Str.chars pre), (Str.chars (mark_block scope colour)), (Str.chars post).
  split; [by rewrite !chars_app|].
  unfold MARK_COLOR_RE. cbv zeta.
  set (nl := ["010"%char]).
  replace (Str.chars (mark_block scope colour)) with
    (concat [ []; Str.chars "<string>sublimelinter."; Str.chars scope;
              Str.chars "</string>"; []; nl;
              []; Str.chars "<key>settings</key>"; []; nl;
              []; Str.chars "<dict>"; []; nl;
              [];
              []; Str.chars "<key>foreground</key>"; []; nl;
              []; Str.chars "<string>";
              Str.chars "#"; Str.chars colour; Str.chars "</string>"; []; nl ]).
  2:{ unfold mark_block, lf. rewrite !chars_app. simpl. rewrite <- ?app_assoc.
      simpl. by rewrite ?app_nil_r. }
  assert (Re.lang (Re.Star (Re.Class Str.isspace)) []) as Hws by constructor.
  assert (Re.lang (Re.Cat (Re.opt (Re.chr "013")) (Re.chr "010")) nl) as Hnlr.
  { apply (Re.lang_cat _ _ [] nl); [apply Re.lang_alt_r; constructor|].
    by apply ReFacts.lang_chr. }
  apply lang_seq_concat.
  repeat (apply Forall2_cons; split;
          [first [exact Hws | exact Hnlr | by apply lang_lit | idtac]|]);
    [| |apply Forall2_nil_2].
  - constructor.
  - apply lang_plus_class. split; [by destruct colour|].
    apply Forall_forall. intros c Hc. apply negb_true_iff.
    destruct (Ascii.eqb_spec c "010"); [by subst|done].
Qed.

Lemma parse_scheme_xml_finds_block_witness :
  parse_scheme_xml ["mark.error"] ("<plist>" +:+ mark_block "mark.error" "FF0000" +:+ "</plist>")
  = [].
Proof.
  apply elem_of_nil_inv. intros scope Hin.
  assert (scope = "mark.error") as ->.
  { apply parse_scheme_xml_elem in Hin as [Hin _].
    by apply list_elem_of_singleton in Hin. }
  revert Hin. apply parse_scheme_xml_finds_block.
  - discriminate.
  - apply (bool_decide_unpack _). vm_compute. exact I.
Defined.

(** ** Resolving the original theme *)

Lemma prefix_cons_inv_eq {A} (x y : A) (l k : list A) :
  x :: l `prefix_of` y :: k → x = y ∧ l `prefix_of` k.
Proof. intros [m Hm]. injection Hm as -> ->. split; [done|]. by exists m. Qed.

(** where no marker starts, the engine finds no match *)
Lemma markers_no_match s : no_marker_at s → ReSub.match_length MARKERS s = None.
Proof.
  intros (H1 & H2 & H3). unfold ReSub.match_length.
  cut (ReSub.pmatch (S (length s)) MARKERS s Some = None); [by intros ->|].
  unfold MARKERS. cbn -[Ascii.eqb].
  assert (∀ (c1 c2 : ascii) l k, c1 = c2 → l `prefix_of` k → c1 :: l `prefix_of` c2 :: k)
    as Hcons.
  { intros c1 c2 l k -> [m ->]. by exists m. }
  repeat match goal with
         | |- context [match ?l with [] => _ | _ :: _ => _ end] =>
             is_var l; destruct l as [|? ?]; cbn -[Ascii.eqb]; try done
         | |- context [Ascii.eqb ?a ?b] =>
             destruct (Ascii.eqb_spec a b); cbn -[Ascii.eqb]; try done
         end.
  all: exfalso; try congruence; subst.
  all: first [ apply H1; simpl; repeat (apply Hcons; [done|]); apply prefix_nil
             | apply H2; simpl; repeat (apply Hcons; [done|]); apply prefix_nil
             | apply H3; simpl; repeat (apply Hcons; [done|]); apply prefix_nil ].
Qed.

Lemma delete_go_sublist pat s : ∀ skip, ReSub.delete_go pat skip s `sublist_of` s.
Proof.
  induction s as [|c s IH]; intros skip; simpl; [done|].
  destruct skip as [|n]; [|by constructor].
  destruct (ReSub.match_length pat (c :: s)) as [[|n]|]; by constructor.
Qed.

Lemma delete_go_marker_free name tail :
  Forall (λ i, no_marker_at (drop i (name ++ tail))) (seq 0 (length name)) →
  ReSub.delete_go MARKERS 0 (name ++ tail) = name ++ ReSub.delete_go MARKERS 0 tail.
Proof.
  induction name as [|c name IH]; intros H; [done|].
  simpl in H. apply Forall_cons in H as [H0 H].
  change ((c :: name) ++ tail) with (c :: (name ++ tail)).
  cbn [ReSub.delete_go]. simpl in H0. rewrite markers_no_match by done.
  cbn [app]. f_equal. apply IH.
  apply Forall_forall. intros i Hi.
  rewrite Forall_forall in H. specialize (H (S i)). simpl in H. apply H.
  apply elem_of_seq in Hi. apply elem_of_seq. lia.
Qed.

Lemma re_delete_marker_free name tail :
  marker_free name tail →
  ReSub.re_delete MARKERS (name +:+ tail) = name +:+ ReSub.re_delete MARKERS tail.
Proof.
  unfold marker_free, ReSub.re_delete. intros H. apply chars_inj.
  rewrite chars_app in H. rewrite !chars_app, !chars_of_chars.
  rewrite <- length_chars in H. by apply delete_go_marker_free.
Qed.

(** X15.  [re.sub(r" ?\(SL\) ?|hidden-", "", file)] only deletes characters
    of the file name, and it maps the name the XML engine derives back to
    the original's: for a base name in which no marker starts,
    [<name> (SL).hidden-tmTheme] becomes [<name>.tmTheme], and
    [<name>.sublime-color-scheme], the name the JSON engine writes, stays as
    it is. *)
Theorem markers_removed_from_derived_names (name : string) :
  (∀ file, Str.chars (ReSub.re_delete MARKERS file) `sublist_of` Str.chars file)
  ∧ (marker_free name " (SL).hidden-tmTheme" →
     ReSub.re_delete MARKERS (name +:+ " (SL).hidden-tmTheme") = name +:+ ".tmTheme")
  ∧ (marker_free name ".sublime-color-scheme" →
     ReSub.re_delete MARKERS (name +:+ ".sublime-color-scheme")
     = name +:+ ".sublime-color-scheme").
Proof.
  split_and!.
  - intros file. unfold ReSub.re_delete. rewrite chars_of_chars. apply delete_go_sublist.
  - intros H. rewrite re_delete_marker_free by done. f_equal.
  - intros H. rewrite re_delete_marker_free by done. f_equal.
Qed.

Lemma markers_removed_witness :
  ReSub.re_delete MARKERS ("Solarized-dark" +:+ " (SL).hidden-tmTheme")
  = "Solarized-dark" +:+ ".tmTheme".
Proof.
  apply (proj1 (proj2 (markers_removed_from_derived_names "Solarized-dark"))).
  apply (bool_decide_unpack _). vm_compute. exact I.
Defined.

Lemma not_user_head find_result :
  match not_user find_result with
  | [] => ∀ t, t ∈ find_result → isin "Packages/User/" t = true
  | t :: _ => t ∈ find_result ∧ isin "Packages/User/" t = false
              ∧ ∃ before after, find_result = before ++ t :: after
                  ∧ ∀ u, u ∈ before → isin "Packages/User/" u = true
  end.
Proof.
  unfold not_user. induction find_result as [|u l IH]; simpl.
  - intros t Ht. by apply elem_of_nil in Ht.
  - destruct (isin "Packages/User/" u) eqn:E.
    + rewrite filter_cons_False by (by rewrite E).
      destruct (filter _ l) as [|t l'].
      * intros t [->|Ht]%elem_of_cons; auto.
      * destruct IH as (H1 & H2 & before & after & -> & H3).
        split_and!; [by right|done|].
        exists (u :: before), after. split; [done|].
        intros v [->|Hv]%elem_of_cons; auto.
    + rewrite filter_cons_True by done. split_and!; [by left|done|].
      exists [], l. split; [done|]. intros v Hv. by apply elem_of_nil in Hv.
Qed.

(** X16.  [get_original_theme] answers the first resource, among those the
    host finds for the file name without its markers, that is not under
    [Packages/User/]; when the host finds none, or only such resources, it
    answers the path it was given.  So its answer is the path it was given
    or a resource the search produced outside [Packages/User/]. *)
Theorem get_original_theme_result
    (find : string → list string) (current_scheme_path : string) :
  let pattern := ReSub.re_delete MARKERS (Path.basename current_scheme_path) in
  let found := find pattern in
  let result := get_original_theme find current_scheme_path in
  ((∀ t, t ∈ found → isin "Packages/User/" t = true) → result = current_scheme_path)
  ∧ (∀ before t after,
       found = before ++ t :: after →
       (∀ u, u ∈ before → isin "Packages/User/" u = true) →
       isin "Packages/User/" t = false →
       result = t)
  ∧ (result = current_scheme_path
     ∨ (result ∈ found ∧ isin "Packages/User/" result = false)).
Proof.
  intros pattern found result. subst result. unfold get_original_theme.
  fold pattern. fold found. fold (not_user found).
  pose proof (not_user_head found) as H.
  destruct (not_user found) as [|t l].
  - split_and!; [done| |by left].
    intros before t after -> _ Ht. rewrite H in Ht; [done|].
    apply elem_of_app. right. by left.
  - destruct H as (Hin & Hnot & before & after & Hfound & Hbefore). split_and!.
    + intros Hall. rewrite Hall in Hnot; done.
    + intros before' t' after' Hfound' Hbefore' Ht'.
      rewrite Hfound in Hfound'. clear Hfound Hin.
      revert before' Hfound' Hbefore'.
      induction before as [|b before IH]; intros [|b' before']; simpl;
        intros Heq Hb'.
      * by injection Heq.
      * injection Heq as -> _. rewrite Hb' in Hnot; [done | by left].
      * injection Heq as <- _. rewrite Hbefore in Ht'; [done | by left].
      * injection Heq as _ Heq. apply (IH (λ u Hu, Hbefore u (proj2 (elem_of_cons _ _ _) (or_intror Hu))) before' Heq).
        intros u Hu. apply Hb'. by right.
    + right. done.
Qed.

Lemma get_original_theme_witness :
  get_original_theme
    (λ pattern, if String.eqb pattern "Monokai.tmTheme"
                then ["Packages/User/Monokai.tmTheme";
                      "Packages/Color Scheme - Legacy/Monokai.tmTheme"]
                else [])
    "Packages/User/SublimeLinter/Monokai (SL).hidden-tmTheme"
  = "Packages/Color Scheme - Legacy/Monokai.tmTheme".
Proof.
  refine (proj1 (proj2 (get_original_theme_result _ _))
            ["Packages/User/Monokai.tmTheme"]
            "Packages/Color Scheme - Legacy/Monokai.tmTheme" [] _ _ _).
  - vm_compute. reflexivity.
  - intros u Hu. apply list_elem_of_singleton in Hu as ->. vm_compute. reflexivity.
  - vm_compute. reflexivity.
Defined.

Lemma basename_dir_file dir file :
  "/"%char ∉ Str.chars file → Path.basename (dir +:+ "/" +:+ file) = file.
Proof.
  intros H. unfold Path.basename. rewrite !chars_app. simpl.
  rewrite basename_go_sep by done. apply of_chars_chars.
Qed.

Lemma not_user_first before t after :
  (∀ u, u ∈ before → isin "Packages/User/" u = true) →
  isin "Packages/User/" t = false →
  not_user (before ++ t :: after) = t :: not_user after.
Proof.
  intros Hbefore Ht. unfold not_user. induction before as [|b before IH]; simpl.
  - by rewrite filter_cons_True.
  - rewrite filter_cons_False by (rewrite Hbefore; [done | by left]).
    apply IH. intros u Hu. apply Hbefore. by right.
Qed.

Lemma not_user_nil found :
  (∀ t, t ∈ found → isin "Packages/User/" t = true) → not_user found = [].
Proof.
  intros H. unfold not_user. induction found as [|t found IH]; [done|].
  rewrite filter_cons_False by (rewrite H; [done | by left]).
  apply IH. intros u Hu. apply H. by right.
Qed.

(** the search a pass makes when the preference is a derived XML theme *)
Lemma get_original_theme_derived find dir name :
  "/"%char ∉ Str.chars name →
  marker_free name " (SL).hidden-tmTheme" →
  get_original_theme find (dir +:+ "/" +:+ name +:+ " (SL).hidden-tmTheme")
  = match not_user (find (name +:+ ".tmTheme")) with
    | [] => dir +:+ "/" +:+ name +:+ " (SL).hidden-tmTheme"
    | t :: _ => t
    end.
Proof.
  intros Hname Hfree.
  assert (Path.basename (dir +:+ "/" +:+ name +:+ " (SL).hidden-tmTheme")
          = name +:+ " (SL).hidden-tmTheme") as Hbase.
  { apply basename_dir_file. rewrite chars_app, elem_of_app. intros [?|Hc]; [done|].
    vm_compute in Hc. repeat (apply elem_of_cons in Hc as [Hc|Hc]; [discriminate|]).
    by apply elem_of_nil in Hc. }
  unfold get_original_theme. rewrite Hbase, re_delete_marker_free by done.
  change (ReSub.re_delete MARKERS " (SL).hidden-tmTheme") with ".tmTheme".
  done.
Qed.

(** X17.  Started from the preference an XML pass leaves,
    [<dir>/<name> (SL).hidden-tmTheme] with a name that holds no ["/"] and
    in which no marker starts, [get_original_theme] searches for
    [<name>.tmTheme].  When the host lists a resource of that name outside
    [Packages/User/], the answer is the first such resource, and the pass
    is derived from the original again; when every resource it lists is
    under [Packages/User/], the original itself included, or it lists none,
    the answer is the derived theme, and the pass is derived from the
    derivative. *)
Theorem derived_xml_scheme_resolves_to_original
    (find : string → list string) (dir name : string) :
  "/"%char ∉ Str.chars name →
  marker_free name " (SL).hidden-tmTheme" →
  let derived := dir +:+ "/" +:+ name +:+ " (SL).hidden-tmTheme" in
  (∀ before original after,
     find (name +:+ ".tmTheme") = before ++ original :: after →
     (∀ u, u ∈ before → isin "Packages/User/" u = true) →
     isin "Packages/User/" original = false →
     get_original_theme find derived = original)
  ∧ ((∀ t, t ∈ find (name +:+ ".tmTheme") → isin "Packages/User/" t = true) →
     get_original_theme find derived = derived).
Proof.
  intros Hname Hfree derived. subst derived.
  rewrite get_original_theme_derived by done. split.
  - intros before original after -> Hbefore Horig.
    by rewrite not_user_first.
  - intros Hall. by rewrite not_user_nil.
Qed.

Lemma derived_xml_scheme_resolves_witness :
  get_original_theme
    (λ pattern, if String.eqb pattern "Monokai.tmTheme"
                then ["Packages/User/Monokai.tmTheme";
                      "Packages/Color Scheme - Legacy/Monokai.tmTheme"]
                else [])
    ("Packages/User/SublimeLinter" +:+ "/" +:+ "Monokai" +:+ " (SL).hidden-tmTheme")
  = "Packages/Color Scheme - Legacy/Monokai.tmTheme"
  ∧ get_original_theme (find_resources ex_user_host)
      ("Packages/User/SublimeLinter" +:+ "/" +:+ "My" +:+ " (SL).hidden-tmTheme")
    = "Packages/User/SublimeLinter" +:+ "/" +:+ "My" +:+ " (SL).hidden-tmTheme".
Proof.
  split.
  - apply (proj1 (derived_xml_scheme_resolves_to_original _ _ "Monokai"
                    ltac:(apply (bool_decide_unpack _); vm_compute; exact I)
                    ltac:(apply (bool_decide_unpack _); vm_compute; exact I))
             ["Packages/User/Monokai.tmTheme"] _ []).
    + vm_compute. reflexivity.
    + intros u Hu. apply list_elem_of_singleton in Hu as ->. vm_compute. reflexivity.
    + vm_compute. reflexivity.
  - apply (proj2 (derived_xml_scheme_resolves_to_original _ _ "My"
                    ltac:(apply (bool_decide_unpack _); vm_compute; exact I)
                    ltac:(apply (bool_decide_unpack _); vm_compute; exact I))).
    intros t Ht. change (find_resources ex_user_host ("My" +:+ ".tmTheme"))
      with ["Packages/User/My.tmTheme"] in Ht.
    apply list_elem_of_singleton in Ht as ->. vm_compute. reflexivity.
Defined.

(** ** The paths of a pass *)

Lemma rfind_go_spec c s : ∀ i found d,
  rfind_go c i found s = Some d →
  (found = Some d ∧ c ∉ s)
  ∨ (∃ j, d = i + j ∧ s !! j = Some c ∧ c ∉ drop (S j) s).
Proof.
  induction s as [|x s IH]; intros i found d; simpl.
  - intros ->. left. split; [done | apply not_elem_of_nil].
  - intros H. apply IH in H as [[Hf Hc]|(j & -> & Hj & Hd)].
    + destruct (Ascii.eqb_spec x c) as [->|Hne].
      * injection Hf as <-. right. exists 0. split; [lia|]. by rewrite drop_0.
      * left. split; [done|]. apply not_elem_of_cons. split; [congruence | done].
    + right. exists (S j). split; [lia|]. done.
Qed.

Lemma rfind_spec c s d :
  rfind c s = Some d → s !! d = Some c ∧ c ∉ drop (S d) s.
Proof.
  intros H. apply rfind_go_spec in H as [[? _]|(j & -> & ? & ?)]; [done|]. done.
Qed.

Lemma splitext_spec p name e :
  splitext p = (name, e) →
  name +:+ e = p
  ∧ (e = "" ∨ ∃ e', e = "." +:+ e' ∧ "."%char ∉ Str.chars e')
  ∧ ("/"%char ∉ Str.chars p → "/"%char ∉ Str.chars name).
Proof.
  unfold splitext. destruct (rfind "." (Str.chars p)) as [d|] eqn:Ed.
  2:{ intros [= <- <-]. split_and!; [|by left|done].
      apply chars_inj. by rewrite chars_app, app_nil_r. }
  destruct (_ && _).
  2:{ intros [= <- <-]. split_and!; [|by left|done].
      apply chars_inj. by rewrite chars_app, app_nil_r. }
  intros [= <- <-]. apply rfind_spec in Ed as [Hd Hafter]. split_and!.
  - apply chars_inj. by rewrite chars_app, !chars_of_chars, take_drop.
  - right. exists (Str.of_chars (drop (S d) (Str.chars p))).
    rewrite chars_of_chars. split; [|done]. apply chars_inj.
    rewrite chars_app, !chars_of_chars. simpl.
    by rewrite (drop_S _ _ _ Hd).
  - intros Hp. rewrite chars_of_chars. intros Hin. apply Hp.
    apply elem_of_take in Hin as (i & Hi & _). by apply list_elem_of_lookup_2 in Hi.
Qed.

Lemma basename_go_no_sep p : ∀ cur,
  "/"%char ∉ cur → "/"%char ∉ Path.basename_go cur p.
Proof.
  induction p as [|c p IH]; intros cur Hcur; simpl; [done|].
  destruct (Ascii.eqb_spec c "/") as [->|Hne].
  - apply IH. apply not_elem_of_nil.
  - apply IH. rewrite elem_of_app, list_elem_of_singleton. intros [?|?]; congruence.
Qed.

Lemma basename_no_sep p : "/"%char ∉ Str.chars (Path.basename p).
Proof.
  unfold Path.basename. rewrite chars_of_chars. apply basename_go_no_sep, not_elem_of_nil.
Qed.

(** X18.  When [get_settings] stores the settings of a pass it leaves the
    registries and the world alone and the paths fit together: the scheme
    is the [color_scheme] preference, the original theme is what
    [get_original_theme] answers for it, name and extension put together
    give the original's file name, the name holds no ["/"], the extension
    is empty or starts at the last dot, and the plugin's directory is
    [User/SublimeLinter] under the packages directory. *)
Theorem get_settings_paths {node : Type}
    (h : host) (self self' : Scheme node) (w w' : world) :
  preferences_file h ≠ Some false →
  get_settings h self w = Ok self' w' →
  w' = w
  ∧ static_nodes self' = static_nodes self
  ∧ dynamic_nodes self' = dynamic_nodes self
  ∧ prefs w !! "color_scheme" = Some (scheme self')
  ∧ scheme_orig (paths self') = get_original_theme (find_resources h) (scheme self')
  ∧ scheme_name (paths self') +:+ ext (paths self')
    = Path.basename (scheme_orig (paths self'))
  ∧ ("/"%char ∉ Str.chars (scheme_name (paths self')))
  ∧ (ext (paths self') = ""
     ∨ ∃ e, ext (paths self') = "." +:+ e ∧ "."%char ∉ Str.chars e)
  ∧ usr_dir_rel (paths self') = "User/SublimeLinter"
  ∧ usr_dir_abs (paths self') = Path.join (packages_path h) "User/SublimeLinter"
  ∧ usr_dir (paths self') = usr_dir (paths self).
Proof.
  intros Hvalid. unfold get_settings.
  assert (∀ X : M (Scheme node),
            match preferences_file h with Some false => X | _ =>
              λ w, match prefs w !! "color_scheme" with
                   | None => Raised AttributeError w
                   | Some scheme0 =>
                       let scheme_orig0 := get_original_theme (find_resources h) scheme0 in
                       let scheme_base := Path.basename scheme_orig0 in
                       let '(scheme_name0, ext0) := splitext scheme_base in
                       let usr_dir_rel0 := Path.join "User" "SublimeLinter" in
                       let usr_dir_abs0 := Path.join (packages_path h) usr_dir_rel0 in
                       Ok (MkScheme (static_nodes self) (dynamic_nodes self) scheme0
                             (Paths (usr_dir (paths self)) usr_dir_rel0 usr_dir_abs0
                                scheme_orig0 scheme_name0 ext0)) w
                   end
            end w
            = match prefs w !! "color_scheme" with
              | None => Raised AttributeError w
              | Some scheme0 =>
                  let scheme_orig0 := get_original_theme (find_resources h) scheme0 in
                  let scheme_base := Path.basename scheme_orig0 in
                  let '(scheme_name0, ext0) := splitext scheme_base in
                  let usr_dir_rel0 := Path.join "User" "SublimeLinter" in
                  let usr_dir_abs0 := Path.join (packages_path h) usr_dir_rel0 in
                  Ok (MkScheme (static_nodes self) (dynamic_nodes self) scheme0
                        (Paths (usr_dir (paths self)) usr_dir_rel0 usr_dir_abs0
                           scheme_orig0 scheme_name0 ext0)) w
              end) as Hcase.
  { intros X. by destruct (preferences_file h) as [[]|]. }
  rewrite Hcase. clear Hcase.
  destruct (prefs w !! "color_scheme") as [scheme0|]; [|done]. cbv zeta.
  destruct (splitext (Path.basename (get_original_theme (find_resources h) scheme0)))
    as [name0 ext0] eqn:Es.
  intros [= <- <-]. simpl.
  apply splitext_spec in Es as (H1 & H2 & H3).
  split_and!; try done.
  apply H3, basename_no_sep.
Qed.

(** X19.  With a preferences file that does not decode, [get_settings]
    logs one line and returns the instance as it was, scheme and paths of
    an earlier pass included, without reading the preference; otherwise,
    when no [color_scheme] preference is set, it raises [AttributeError]
    with the files, the preferences and the log untouched.  (What the
    instance holds after the exception is not stated: l.95-96 have stored
    the new [prefs] and [None] as [scheme] by then.) *)
Theorem get_settings_edge_cases {node : Type}
    (h : host) (self : Scheme node) (w : world) :
  (preferences_file h = Some false →
     get_settings h self w
     = Ok self (World (files w) (prefs w)
                  (log w ++ [Printf "generate_color_scheme: Preferences.sublime-settings invalid, aborting"])))
  ∧ (preferences_file h ≠ Some false →
     prefs w !! "color_scheme" = None →
     get_settings h self w = Raised AttributeError w).
Proof.
  unfold get_settings. split.
  - intros ->. run_M. done.
  - intros Hv Hp. destruct (preferences_file h) as [[]|]; [|done|]; by rewrite Hp.
Qed.

Lemma get_settings_edge_cases_witness :
  get_settings (Host "/st/Packages" (λ _, []) None)
    (Scheme_init "" ex_paths : Scheme rule) (World ∅ ∅ [])
  = Raised AttributeError (World ∅ ∅ []).
Proof.
  apply (proj2 (get_settings_edge_cases (Host "/st/Packages" (λ _, []) None) _ _));
    [discriminate | reflexivity].
Defined.

Lemma get_settings_paths_witness :
  ∃ self' : Scheme rule,
    get_settings (Host "/st/Packages" (λ _, []) (Some true))
      (Scheme_init "" ex_paths) ex_world_tm
    = Ok self' ex_world_tm
    ∧ scheme_name (paths self') +:+ ext (paths self') = "Monokai.tmTheme"
    ∧ "/"%char ∉ Str.chars (scheme_name (paths self')).
Proof.
  assert (∃ self' : Scheme rule,
            get_settings (Host "/st/Packages" (λ _, []) (Some true))
              (Scheme_init "" ex_paths) ex_world_tm = Ok self' ex_world_tm
            ∧ Path.basename (scheme_orig (paths self')) = "Monokai.tmTheme")
    as (self' & E & Hb).
  { eexists. split; vm_compute; reflexivity. }
  exists self'. split; [exact E|].
  assert (preferences_file (Host "/st/Packages" (λ _, []) (Some true)) ≠ Some false)
    as Hv by discriminate.
  destruct (get_settings_paths (Host "/st/Packages" (λ _, []) (Some true))
              (Scheme_init "" ex_paths) self' ex_world_tm ex_world_tm Hv E)
    as (_ & _ & _ & _ & _ & H6 & H7 & _).
  split; [by rewrite H6 | exact H7].
Defined.

(** ** What a pass logs *)

Lemma finish_events {node} (self : Scheme node) target path c notes w :
  new_events w (world_of (set_scheme_path self target
                            (World (<[path := c]> (files w)) (prefs w)
                               (log w ++ notes ++ [FileWrite path]))))
  = notes ++ [FileWrite path] ++ switch_events self target.
Proof.
  unfold set_scheme_path, switch_events.
  destruct (decide (target ≠ scheme self)) as [Hne|Heq]; run_M.
  - rewrite decide_False by done. apply new_events_app_l. simpl.
    by rewrite <- !app_assoc.
  - apply dec_stable in Heq. rewrite decide_True by done. apply new_events_app_l.
    simpl. by rewrite <- !app_assoc.
Qed.

(** X20.  The XML engine reports missing static scopes and writes all the
    same: the pass logs the notice listing the scopes [parse_scheme_xml]
    did not find (no notice when all are found), then writes the derived
    file, then switches the preference.  The static nodes themselves are
    never put into the document. *)
Theorem xml_pass_reports_and_writes
    (self : Scheme element) (text : string) (plist plist' : element) (w : world) :
  extend_styles plist (values (dynamic_nodes self)) = Some plist' →
  let unfound := parse_scheme_xml (keys (static_nodes self)) text in
  let w' := world_of (xml_generate_color_scheme_async self
                        (TextResource text (Some plist)) w) in
  new_events w w'
  = (if bool_decide (unfound ≠ []) then [notice_event unfound] else [])
    ++ [FileWrite (mod_scheme_path self)]
    ++ switch_events self (scheme_path_rel self)
  ∧ files w' !! mod_scheme_path self = Some (XmlFile COLOR_SCHEME_PREAMBLE plist').
Proof.
  intros Hx unfound w'. subst w'. rewrite xml_generate_unfold. unfold xml_outcome.
  rewrite Hx. unfold xml_finish. split; [apply finish_events|].
  edestruct (finish_spec self) as (w1 & -> & Hw1 & _); [apply notes_no_write|].
  simpl. by rewrite Hw1, lookup_insert_eq.
Qed.

Lemma xml_pass_reports_witness :
  new_events ex_world_tm
    (world_of (xml_generate_color_scheme_async
                 (xml_assemble_node ex_xml "sublimelinter.mark.error"
                    {[ "foreground" := "#ff0000" ]} None)
                 ex_tm_resource ex_world_tm))
  = [notice_event ["sublimelinter.mark.error"];
     FileWrite "/st/Packages/User/SublimeLinter/Monokai (SL).hidden-tmTheme";
     Printf "New scheme path detected. Updating.";
     PrefSet "color_scheme" "Packages/User/SublimeLinter/Monokai (SL).hidden-tmTheme";
     SaveSettings "Preferences.sublime-settings"].
Proof.
  set (self := xml_assemble_node ex_xml "sublimelinter.mark.error"
                 {[ "foreground" := "#ff0000" ]} None).
  assert (∃ plist', extend_styles ex_tm_plist (values (dynamic_nodes self)) = Some plist')
    as [plist' Hx].
  { eexists. vm_compute. reflexivity. }
  unfold ex_tm_resource.
  rewrite (proj1 (xml_pass_reports_and_writes self ex_tm_text ex_tm_plist plist'
                    ex_world_tm Hx)).
  vm_compute. reflexivity.
Defined.

Lemma assembled_static self :
  assembled self →
  ∀ k v, static_nodes self !! k = Some v →
         v !! "scope" = Some k ∧ Re.re_match DYN_PAT k = false.
Proof.
  induction 1 as [|self scope input_dict name _ IH]; intros k v; simpl.
  - by rewrite lookup_empty.
  - unfold json_assemble_node, record_node.
    destruct (Re.re_match DYN_PAT scope) eqn:E; simpl; [apply IH|].
    destruct (decide (scope = k)) as [->|Hne].
    + rewrite lookup_insert_eq. intros [= <-]. split; [apply husk_scope | done].
    + rewrite lookup_insert_ne by done. apply IH.
Qed.

(** X21.  The first derived document of the JSON engine: without a prior
    derived file, a pass with something to add writes the dynamic nodes as
    the only rules and logs no notice, even when static scopes are missing.
    No static node is among the rules, and when only static scopes are
    missing the document is written with an empty list of rules. *)
Theorem json_first_document
    (self : Scheme rule) (scheme_text : resource) (unfound : scopes) (w : world) :
  assembled self →
  find_unfound self scheme_text = Return unfound →
  scopes_truthy unfound = true ∨ dynamic_nodes self ≠ ∅ →
  files w !! new_scheme_path self = None →
  let w' := world_of (json_generate_color_scheme_async self scheme_text w) in
  files w' !! new_scheme_path self
    = Some (JsonFile (Theme (Some (values (dynamic_nodes self))) ∅))
  ∧ new_events w w'
    = [FileWrite (new_scheme_path self)]
      ++ switch_events self (scheme_orig (paths self))
  ∧ (∀ r, r ∈ values (static_nodes self) → r ∉ values (dynamic_nodes self))
  ∧ (dynamic_nodes self = ∅ →
     files w' !! new_scheme_path self = Some (JsonFile (Theme (Some []) ∅))).
Proof.
  intros Ha Hu Hadd%not_skip_iff Hf w'. subst w'.
  rewrite json_generate_unfold. unfold json_outcome.
  destruct (find_unfound self scheme_text) as [u|e]; [|done]. injection Hu as ->.
  rewrite Hadd, Hf. unfold json_finish.
  assert (files (world_of (set_scheme_path self (scheme_orig (paths self))
            (World (<[new_scheme_path self :=
                        JsonFile (Theme (Some ([] ++ values (dynamic_nodes self))) ∅)]>
                      (files w)) (prefs w)
               (log w ++ [] ++ [FileWrite (new_scheme_path self)]))))
          !! new_scheme_path self
          = Some (JsonFile (Theme (Some (values (dynamic_nodes self))) ∅))) as Hfile.
  { edestruct (finish_spec self) as (w1 & -> & Hw1 & _);
      [intros p; apply not_elem_of_nil|].
    simpl. by rewrite Hw1, lookup_insert_eq. }
  split_and!.
  - exact Hfile.
  - apply (finish_events self _ _ _ []).
  - intros r Hs Hd. unfold values in Hs, Hd.
    apply list_elem_of_fmap in Hs as ([k v] & -> & Hkv%elem_of_map_to_list).
    apply list_elem_of_fmap in Hd as ([k' v'] & Heq & Hkv'%elem_of_map_to_list).
    simpl in *. subst v'.
    destruct (assembled_static self Ha k v Hkv) as [Hk Hm].
    destruct (assembled_dynamic self Ha k' v Hkv') as [Hk' Hm'].
    rewrite Hk in Hk'. injection Hk' as ->. congruence.
  - intros Hd. rewrite Hfile, Hd. done.
Qed.


Lemma json_first_document_witness :
  files (world_of (json_generate_color_scheme_async ex_static_only ex_original_bare
                     ex_world))
    !! new_scheme_path ex_static_only
  = Some (JsonFile (Theme (Some []) ∅)).
Proof.
  assert (assembled ex_static_only) as Ha.
  { unfold ex_static_only. apply assembled_node, assembled_empty. }
  refine (proj2 (proj2 (proj2
            (json_first_document ex_static_only ex_original_bare
               (ScopeDict (static_nodes ex_static_only)) ex_world Ha _ _ _))) _).
  - vm_compute. reflexivity.
  - left. vm_compute. reflexivity.
  - vm_compute. reflexivity.
  - vm_compute. reflexivity.
Defined.

(** X22.  With a .sublime-color-scheme original and a prior derived
    document that has rules, the JSON engine reports a static scope only if
    neither the original theme nor the prior document declares it: the pass
    logs one notice listing those scopes (none when there are none), then
    writes, then switches. *)
Theorem json_pass_reports_twice_missing
    (self : Scheme rule) (doc : theme) (w : world)
    (old : list rule) (other : gmap string string) :
  ext (paths self) = ".sublime-color-scheme" →
  files w !! new_scheme_path self = Some (JsonFile (Theme (Some old) other)) →
  old ≠ [] →
  let declared := scopes_declared_in (default [] (rules doc)) ∪ scopes_declared_in old in
  let missing := filter (λ kv, kv.1 ∉ declared) (static_nodes self) in
  filter (λ kv, kv.1 ∉ scopes_declared_in (default [] (rules doc))) (static_nodes self) ≠ ∅
    ∨ dynamic_nodes self ≠ ∅ →
  new_events w (world_of (json_generate_color_scheme_async self (JsonResource doc) w))
  = (if bool_decide (missing ≠ ∅) then [notice_event (keys missing)] else [])
    ++ [FileWrite (new_scheme_path self)]
    ++ switch_events self (scheme_orig (paths self)).
Proof.
  intros Hext Hf Hold declared missing Hadd.
  set (first := filter (λ kv : string * rule,
                          kv.1 ∉ scopes_declared_in (default [] (rules doc)))
                  (static_nodes self)) in *.
  assert (find_unfound self (JsonResource doc) = Return (ScopeDict first)) as Hu.
  { unfold find_unfound. rewrite Hext. simpl. by rewrite parse_scheme_json_restrict. }
  assert (filter (λ kv : string * rule, kv.1 ∉ scopes_declared_in old) first = missing)
    as Hmissing.
  { subst first missing declared. rewrite map_filter_filter.
    apply map_filter_ext. intros i x _. simpl. set_solver. }
  rewrite json_generate_unfold. unfold json_outcome.
  destruct (find_unfound self (JsonResource doc)) as [u|e]; [|done]. injection Hu as ->.
  assert (scopes_truthy (ScopeDict first) = bool_decide (first ≠ ∅)) as Ht by done.
  replace (negb (scopes_truthy (ScopeDict first)) && bool_decide (dynamic_nodes self = ∅))
    with false.
  2:{ symmetry. apply not_skip_iff. rewrite Ht. destruct Hadd as [H|H]; [left|by right].
      by apply bool_decide_eq_true. }
  rewrite Hf, Ht, (bool_decide_eq_true_2 (old ≠ [])) by done. cbn [andb].
  case_bool_decide as Hfirst.
  - rewrite parse_scheme_json_restrict, Hmissing. unfold json_finish.
    apply finish_events.
  - assert (missing = ∅) as ->.
    { rewrite <- Hmissing, Hfirst. apply map_filter_empty. }
    rewrite bool_decide_eq_false_2 by (intros H; by apply H).
    unfold json_finish. apply (finish_events self _ _ _ []).
Qed.

Lemma json_pass_reports_twice_missing_witness :
  new_events ex_derived_world
    (world_of (json_generate_color_scheme_async ex_dynamic ex_original_bare
                 ex_derived_world))
  = [notice_event ["sublimelinter.mark.error"];
     FileWrite "/st/Packages/User/Monokai.sublime-color-scheme";
     Printf "Old scheme path detected. Pass."].
Proof.
  unfold ex_original_bare.
  rewrite (json_pass_reports_twice_missing ex_dynamic
             (Theme (Some [ {[ "scope" := "comment"; "foreground" := "#75715E" ]} ]) ∅)
             ex_derived_world [ex_user_rule; ex_stale_rule] ∅).
  - vm_compute. reflexivity.
  - reflexivity.
  - vm_compute. reflexivity.
  - intros H. apply (f_equal length) in H. vm_compute in H. discriminate H.
  - right. intros H. apply (f_equal size) in H. vm_compute in H. discriminate H.
Defined.

(** ** More of the theorems at sample inputs *)


Lemma assemble_node_last_wins_witness :
  json_assemble_node
    (json_assemble_node ex_static_only "sublimelinter.gutter.style_001"
       {[ "foreground" := "#000000" ]} None)
    "sublimelinter.gutter.style_001" {[ "foreground" := "#00FF00" ]} None
  = ex_dynamic.
Proof.
  unfold ex_dynamic, json_assemble_node.
  exact (proj2 (proj2 (proj2 (assemble_node_last_wins ex_static_only
                                "sublimelinter.gutter.style_001" _ _)))).
Defined.

Lemma husk_fields_witness :
  husk "sublimelinter.mark.error"
    {[ "foreground" := "#FF0000"; "mark_style" := "outline" ]} None !! "mark_style"
  = None.
Proof.
  apply (proj2 (proj2 (proj2 (proj2
           (husk_fields "sublimelinter.mark.error"
              {[ "foreground" := "#FF0000"; "mark_style" := "outline" ]} None))))).
  - discriminate.
  - discriminate.
  - apply (bool_decide_unpack _). vm_compute. exact I.
Defined.
(** * Two passes in succession *)

Lemma get_settings_stores {node} (h : host) (self : Scheme node) w s :
  preferences_file h ≠ Some false →
  prefs w !! "color_scheme" = Some s →
  get_settings h (update_paths h self) w
  = Ok (MkScheme (static_nodes self) (dynamic_nodes self) s (settings_of h s)) w.
Proof.
  intros Hv Hs. unfold get_settings, settings_of.
  destruct (preferences_file h) as [[]|]; [|done|]; rewrite Hs; simpl;
    by destruct (splitext _).
Qed.

Lemma get_settings_raises {node} (h : host) (self : Scheme node) w :
  preferences_file h ≠ Some false →
  prefs w !! "color_scheme" = None →
  get_settings h self w = Raised AttributeError w.
Proof.
  intros Hv Hs. unfold get_settings.
  destruct (preferences_file h) as [[]|]; [|done|]; by rewrite Hs.
Qed.

(** a pass of [generate] with a valid preferences file *)
Lemma generate_run {node} (pass : Scheme node → M unit) h self w s :
  preferences_file h ≠ Some false →
  prefs w !! "color_scheme" = Some s →
  generate pass h self w
  = let self1 := MkScheme (static_nodes self) (dynamic_nodes self) s (settings_of h s) in
    if Str.truthy s then
      match pass self1 w with
      | Ok _ w' => Ok self1 w'
      | Raised e w' => Raised e w'
      end
    else Ok self1 w.
Proof.
  intros Hv Hs. unfold generate, mbind, M_bind.
  rewrite (get_settings_stores h self w s Hv Hs). simpl.
  destruct (Str.truthy s); [|done]. by destruct (pass _ w).
Qed.

Lemma generate_inv {node} (pass : Scheme node → M unit) h self w self1 w1 :
  preferences_file h ≠ Some false →
  generate pass h self w = Ok self1 w1 →
  ∃ s, prefs w !! "color_scheme" = Some s
       ∧ self1 = MkScheme (static_nodes self) (dynamic_nodes self) s (settings_of h s)
       ∧ (if Str.truthy s then pass self1 w = Ok tt w1 else w1 = w).
Proof.
  intros Hv. destruct (prefs w !! "color_scheme") as [s|] eqn:Hs.
  - rewrite (generate_run pass h self w s Hv Hs). cbv zeta.
    destruct (Str.truthy s) eqn:Ht.
    + destruct (pass _ w) as [[] w'|e w'] eqn:Hp; [|done].
      intros [= <- <-]. exists s. by rewrite Ht.
    + intros [= <- <-]. exists s. by rewrite Ht.
  - unfold generate, mbind, M_bind. by rewrite get_settings_raises.
Qed.

Lemma settings_of_name_nosep h s : "/"%char ∉ Str.chars (scheme_name (settings_of h s)).
Proof.
  unfold settings_of. destruct (splitext _) as [n e] eqn:Es. simpl.
  apply splitext_spec in Es as (_ & _ & H). apply H, basename_no_sep.
Qed.

Lemma settings_of_orig h s :
  scheme_orig (settings_of h s) = get_original_theme (find_resources h) s.
Proof. unfold settings_of. by destruct (splitext _). Qed.

Lemma settings_of_usr_dir_rel h s : usr_dir_rel (settings_of h s) = "User/SublimeLinter".
Proof. unfold settings_of. by destruct (splitext _). Qed.

Lemma settings_of_same h h' s s' :
  packages_path h' = packages_path h →
  get_original_theme (find_resources h') s' = get_original_theme (find_resources h) s →
  settings_of h' s' = settings_of h s.
Proof. intros Hp Ho. unfold settings_of. by rewrite Hp, Ho. Qed.

Lemma assembled_settings self s p :
  assembled self → assembled (MkScheme (static_nodes self) (dynamic_nodes self) s p).
Proof.
  induction 1 as [s0 p0|self scope d name _ IH]; simpl.
  - apply (assembled_empty s p).
  - replace (MkScheme _ _ s p)
      with (json_assemble_node
              (MkScheme (static_nodes self) (dynamic_nodes self) s p) scope d name).
    + by constructor.
    + unfold json_assemble_node, record_node. by destruct (Re.re_match DYN_PAT scope).
Qed.

Lemma set_scheme_path_same {node} (self : Scheme node) w :
  set_scheme_path self (scheme self) w
  = Ok tt (World (files w) (prefs w) (log w ++ [Printf "Old scheme path detected. Pass."])).
Proof. unfold set_scheme_path. destruct (decide _); [done|]. by run_M. Qed.

(** the preference an XML pass switches to *)
Lemma scheme_path_rel_derived (self : Scheme element) :
  "/"%char ∉ Str.chars (scheme_name (paths self)) →
  usr_dir_rel (paths self) = "User/SublimeLinter" →
  scheme_path_rel self
  = "Packages/User/SublimeLinter" +:+ "/" +:+ scheme_name (paths self)
    +:+ " (SL).hidden-tmTheme".
Proof.
  intros Hname Hrel. unfold scheme_path_rel.
  rewrite mod_scheme_path_basename, Hrel by done.
  rewrite packages_relative_path_user; [done| |].
  - rewrite chars_app, elem_of_app. intros [?|Hc]; [done|].
    vm_compute in Hc. repeat (apply elem_of_cons in Hc as [Hc|Hc]; [discriminate|]).
    by apply elem_of_nil in Hc.
  - intros E. apply (f_equal String.length) in E.
    rewrite <- !length_chars, chars_app, length_app in E. simpl in E. lia.
Qed.

(** an XML pass on an instance whose scheme is the derived theme already:
    it rewrites the derived file and leaves the preference *)
Lemma xml_pass_settled (self : Scheme element) text plist doc w :
  extend_styles plist (values (dynamic_nodes self)) = Some doc →
  scheme self = scheme_path_rel self →
  ∃ w', xml_generate_color_scheme_async self (TextResource text (Some plist)) w = Ok tt w'
        ∧ files w' = <[mod_scheme_path self := XmlFile COLOR_SCHEME_PREAMBLE doc]> (files w)
        ∧ prefs w' = prefs w
        ∧ wrote w w' (mod_scheme_path self).
Proof.
  intros Hdoc Hs. rewrite xml_generate_unfold. unfold xml_outcome. rewrite Hdoc.
  unfold xml_finish. fold (scheme_path_rel self). rewrite <- Hs, set_scheme_path_same.
  eexists. split; [done|]. simpl. split_and!; [done|done|].
  unfold wrote, new_events. simpl. rewrite <- app_assoc, drop_app_length.
  rewrite !elem_of_app. left. right. by left.
Qed.

(** The second of two XML passes, the paths resolved anew: when the host
    lists the original first among the resources of its name outside the
    user directory, the pass resolves the paths of the first pass again and
    rewrites the same file with the same document. *)
Lemma xml_generate_twice h h' l l' (self self1 : Scheme element) w w1 :
  packages_path h' = packages_path h →
  preferences_file h ≠ Some false →
  preferences_file h' ≠ Some false →
  xml_generate h l self w = Ok self1 w1 →
  scheme self1 ≠ "" →
  marker_free (scheme_name (paths self1)) " (SL).hidden-tmTheme" →
  found_first h' (scheme_name (paths self1) +:+ ".tmTheme") (scheme_orig (paths self1)) →
  l' w1 (scheme_orig (paths self1)) = l w (scheme_orig (paths self1)) →
  ∃ self2 w2,
    xml_generate h' l' self1 w1 = Ok self2 w2
    ∧ files w2 = files w1
    ∧ prefs w2 = prefs w1
    ∧ paths self2 = paths self1
    ∧ static_nodes self2 = static_nodes self1
    ∧ dynamic_nodes self2 = dynamic_nodes self1
    ∧ wrote w w1 (mod_scheme_path self1)
    ∧ wrote w1 w2 (mod_scheme_path self1)
    ∧ ∃ text plist doc,
        l w (scheme_orig (paths self1)) = Some (TextResource text (Some plist))
        ∧ extend_styles plist (values (dynamic_nodes self1)) = Some doc
        ∧ files w2 !! mod_scheme_path self1 = Some (XmlFile COLOR_SCHEME_PREAMBLE doc).
Proof.
  intros Hpk Hv Hv' H1 Hs Hfree Hfound Hload.
  apply generate_inv in H1 as (s & Hpref & -> & Hpass); [|done].
  set (self1 := MkScheme (static_nodes self) (dynamic_nodes self) s (settings_of h s)) in *.
  simpl in Hs. assert (Str.truthy s = true) as Ht by (by destruct s).
  rewrite Ht in Hpass.
  unfold xml_pass, load_resource, mbind, M_bind in Hpass.
  destruct (l w (scheme_orig (paths self1))) as [r|] eqn:Hl; [|done].
  pose proof (xml_pass_cases self1 r w) as Hc.
  destruct (xml_document self1 r) as [doc|] eqn:Hdoc.
  2:{ destruct Hc as (e & He). by rewrite He in Hpass. }
  destruct Hc as (w1' & E & Hf1 & Hw1 & _ & Hp1). rewrite E in Hpass.
  injection Hpass as ->. specialize (Hp1 Hpref).
  fold (scheme_path_rel self1) in Hp1.
  pose proof (settings_of_name_nosep h s) as Hname.
  rewrite (scheme_path_rel_derived self1) in Hp1
    by (done || apply settings_of_usr_dir_rel).
  set (rel := "Packages/User/SublimeLinter" +:+ "/" +:+ scheme_name (paths self1)
              +:+ " (SL).hidden-tmTheme") in *.
  (* the second pass resolves the same paths *)
  assert (get_original_theme (find_resources h') rel
          = get_original_theme (find_resources h) s) as Horig.
  { unfold rel. rewrite get_original_theme_derived by done.
    unfold found_first in Hfound. destruct (not_user _) as [|t ts]; [done|].
    injection Hfound as ->. apply settings_of_orig. }
  unfold xml_generate.
  rewrite (generate_run (xml_pass l') h' self1 w1 rel Hv' Hp1). cbv zeta.
  rewrite (settings_of_same h h' s rel Hpk Horig).
  change (static_nodes self1) with (static_nodes self).
  change (dynamic_nodes self1) with (dynamic_nodes self).
  set (self2 := MkScheme (static_nodes self) (dynamic_nodes self) rel (settings_of h s)).
  replace (Str.truthy rel) with true by done.
  unfold xml_pass, load_resource, mbind, M_bind.
  change (scheme_orig (paths self2)) with (scheme_orig (paths self1)).
  rewrite Hload.
  destruct r as [text [plist|]|?]; [|done..]. simpl in Hdoc.
  destruct (xml_pass_settled self2 text plist doc w1 Hdoc) as (w2 & E2 & Hf2 & Hp2 & Hw2).
  { symmetry. apply (scheme_path_rel_derived self2); [done | apply settings_of_usr_dir_rel]. }
  rewrite E2. exists self2, w2. split_and!; try done.
  - rewrite Hf2, Hf1. apply insert_insert_eq.
  - exists text, plist, doc. split_and!; [done|done|].
    rewrite Hf2. apply lookup_insert_eq.
Qed.

(** a JSON pass on an instance whose scheme is the original theme leaves
    the preferences as they are *)
Lemma json_pass_prefs_settled (self : Scheme rule) scheme_text w :
  scheme self = scheme_orig (paths self) →
  prefs (world_of (json_generate_color_scheme_async self scheme_text w)) = prefs w.
Proof.
  intros Hs.
  destruct (json_outcome_shape self scheme_text w)
    as [[e He]|[He|(notes & kept & other & _ & He)]]; rewrite He; [done..|].
  unfold json_finish. by rewrite <- Hs, set_scheme_path_same.
Qed.

(** The second of two JSON passes on a .sublime-color-scheme original, the
    paths resolved anew: when the host resolves the original theme to
    itself, the pass rewrites the document of the first pass as it is. *)
Lemma json_generate_twice h h' l l' (self self1 : Scheme rule) w w1 :
  assembled self →
  packages_path h' = packages_path h →
  preferences_file h ≠ Some false →
  preferences_file h' ≠ Some false →
  json_generate h l self w = Ok self1 w1 →
  wrote w w1 (new_scheme_path self1) →
  ext (paths self1) = ".sublime-color-scheme" →
  get_original_theme (find_resources h') (scheme_orig (paths self1))
    = scheme_orig (paths self1) →
  l' w1 (scheme_orig (paths self1)) = l w (scheme_orig (paths self1)) →
  ∃ self2 w2,
    json_generate h' l' self1 w1 = Ok self2 w2
    ∧ files w2 = files w1
    ∧ prefs w2 = prefs w1
    ∧ paths self2 = paths self1
    ∧ static_nodes self2 = static_nodes self1
    ∧ dynamic_nodes self2 = dynamic_nodes self1
    ∧ ∃ kept other,
        remove_dyn_rules kept = kept
        ∧ files w2 !! new_scheme_path self1
          = Some (JsonFile (Theme (Some (kept ++ values (dynamic_nodes self1))) other)).
Proof.
  intros Ha Hpk Hv Hv' H1 Hw Hext Hres Hload.
  apply generate_inv in H1 as (s & Hpref & -> & Hpass); [|done].
  set (self1 := MkScheme (static_nodes self) (dynamic_nodes self) s (settings_of h s)) in *.
  destruct (Str.truthy s) eqn:Ht.
  2:{ subst w1. by apply not_wrote_refl in Hw. }
  set (o := scheme_orig (paths self1)) in *.
  assert (get_original_theme (find_resources h) s = o) as Ho
    by (symmetry; apply settings_of_orig).
  unfold json_pass, load_resource, mbind, M_bind in Hpass. simpl in Hpass.
  rewrite Ho in Hpass.
  destruct (l w o) as [r|] eqn:Hl; [|done].
  destruct (json_pass_cases self1 r w)
    as [[e He]|[[He _]|(w1' & kept & other & E & Hadd & Hprior & Hf1 & _ & _ & Hp1)]].
  { by rewrite He in Hpass. }
  { rewrite He in Hpass. injection Hpass as <-. by apply not_wrote_refl in Hw. }
  rewrite E in Hpass. injection Hpass as ->. specialize (Hp1 Hpref). fold o in Hp1.
  (* what the first pass decided *)
  destruct (find_unfound self1 r) as [unfound|e] eqn:Hu.
  2:{ rewrite json_generate_unfold in E. unfold json_outcome in E. by rewrite Hu in E. }
  assert (negb (scopes_truthy unfound) && bool_decide (dynamic_nodes self1 = ∅) = false)
    as Hskip.
  { destruct (negb _ && _) eqn:Eb; [|done]. exfalso. apply Hadd. exists unfound.
    apply andb_true_iff in Eb as [Hb1%negb_true_iff Hb2%bool_decide_eq_true]. done. }
  assert (remove_dyn_rules kept = kept) as Hkept.
  { destruct (files w !! new_scheme_path self1) as [c|].
    - destruct Hprior as (old & _ & ->). apply remove_dyn_rules_idemp.
    - by destruct Hprior as [-> _]. }
  (* the second pass resolves the same paths *)
  unfold json_generate.
  rewrite (generate_run (json_pass h' l') h' self1 w1 o Hv' Hp1). cbv zeta.
  assert (get_original_theme (find_resources h') o
          = get_original_theme (find_resources h) s) as Horig by congruence.
  rewrite (settings_of_same h h' s o Hpk Horig).
  change (static_nodes self1) with (static_nodes self).
  change (dynamic_nodes self1) with (dynamic_nodes self).
  set (self2 := MkScheme (static_nodes self) (dynamic_nodes self) o (settings_of h s)).
  assert (files w1 !! new_scheme_path self1
          = Some (JsonFile (Theme (Some (kept ++ values (dynamic_nodes self1))) other)))
    as Hdoc by (by rewrite Hf1, lookup_insert_eq).
  destruct (Str.truthy o); [|exists self2, w1; split_and!; eauto].
  unfold json_pass, load_resource, mbind, M_bind.
  change (scheme self2) with o. rewrite Hres, Hload.
  destruct (json_second_pass self2 r unfound w1 kept other) as [Hsame Hok].
  { by apply assembled_settings. }
  { exact Hu. }
  { exact Hskip. }
  { exact Hdoc. }
  { exact Hkept. }
  destruct Hok as (w2 & E2); [by apply (find_unfound_json_ext self1 r)|].
  rewrite E2 in Hsame |- *. simpl in Hsame. exists self2, w2. split_and!; try done.
  - pose proof (json_pass_prefs_settled self2 r w1 eq_refl) as Hp2.
    by rewrite E2 in Hp2.
  - exists kept, other. by rewrite Hsame.
Qed.

(** C4, amended.  Two passes in succession, each resolving its paths anew
    from the [color_scheme] preference, with the same registries and an
    unchanged original theme.  When the second pass resolves the original
    theme the first pass resolved, it completes and leaves the derived files
    and the preferences exactly as the first pass left them: it writes the
    same document over the first one, the original entries followed by each
    dynamic node once.  The XML engine resolves the same original when the
    host lists it first, outside the user directory, among the resources
    called [<name>.tmTheme], no marker starting in [<name>]; the JSON
    engine, on a .sublime-color-scheme original, when the host resolves the
    original's own path to itself. *)
Theorem generation_idempotent
    (h h' : host) (l l' : loader)
    (xself : Scheme element) (jself : Scheme rule) (w : world) :
  packages_path h' = packages_path h →
  preferences_file h ≠ Some false →
  preferences_file h' ≠ Some false →
  (∀ xself1 w1,
     xml_generate h l xself w = Ok xself1 w1 →
     scheme xself1 ≠ "" →
     let original := scheme_orig (paths xself1) in
     let name := scheme_name (paths xself1) in
     marker_free name " (SL).hidden-tmTheme" →
     found_first h' (name +:+ ".tmTheme") original →
     l' w1 original = l w original →
     ∃ xself2 w2,
       xml_generate h' l' xself1 w1 = Ok xself2 w2
       ∧ files w2 = files w1
       ∧ prefs w2 = prefs w1
       ∧ paths xself2 = paths xself1
       ∧ wrote w1 w2 (mod_scheme_path xself1)
       ∧ ∃ text plist doc,
           l w original = Some (TextResource text (Some plist))
           ∧ extend_styles plist (values (dynamic_nodes xself)) = Some doc
           ∧ files w2 !! mod_scheme_path xself1
             = Some (XmlFile COLOR_SCHEME_PREAMBLE doc))
  ∧ (∀ jself1 w1,
       assembled jself →
       json_generate h l jself w = Ok jself1 w1 →
       wrote w w1 (new_scheme_path jself1) →
       ext (paths jself1) = ".sublime-color-scheme" →
       let original := scheme_orig (paths jself1) in
       get_original_theme (find_resources h') original = original →
       l' w1 original = l w original →
       ∃ jself2 w2,
         json_generate h' l' jself1 w1 = Ok jself2 w2
         ∧ files w2 = files w1
         ∧ prefs w2 = prefs w1
         ∧ paths jself2 = paths jself1
         ∧ ∃ kept other,
             remove_dyn_rules kept = kept
             ∧ files w2 !! new_scheme_path jself1
               = Some (JsonFile (Theme (Some (kept ++ values (dynamic_nodes jself)))
                                   other))).
Proof.
  intros Hpk Hv Hv'. split.
  - intros xself1 w1 H1 Hs original name Hfree Hfound Hload.
    destruct (xml_generate_twice h h' l l' xself xself1 w w1)
      as (xself2 & w2 & E2 & Hf & Hp & Hpaths & _ & _ & _ & Hw2 & text & plist & doc
          & Hl & Hdoc & Hfile); try done.
    exists xself2, w2. split_and!; try done.
    exists text, plist, doc. split_and!; try done.
    apply generate_inv in H1 as (s & _ & -> & _); done.
  - intros jself1 w1 Ha H1 Hw Hext original Hres Hload.
    destruct (json_generate_twice h h' l l' jself jself1 w w1)
      as (jself2 & w2 & E2 & Hf & Hp & Hpaths & _ & _ & kept & other & Hkept & Hfile);
      try done.
    exists jself2, w2. split_and!; try done.
    exists kept, other. split; [done|].
    apply generate_inv in H1 as (s & _ & -> & _); done.
Qed.

Lemma generation_idempotent_witness :
  (∃ self1 w1 self2 w2,
     xml_generate ex_package_host ex_package_loader ex_fresh_xml ex_tm_prefs_world
       = Ok self1 w1
     ∧ xml_generate ex_package_host ex_package_loader self1 w1 = Ok self2 w2
     ∧ files w2 = files w1
     ∧ prefs w2 !! "color_scheme"
       = Some "Packages/User/SublimeLinter/Monokai (SL).hidden-tmTheme")
  ∧ (∃ self1 w1 self2 w2,
       json_generate ex_package_host ex_package_loader ex_fresh_json ex_world
         = Ok self1 w1
       ∧ json_generate ex_package_host ex_package_loader self1 w1 = Ok self2 w2
       ∧ files w2 = files w1
       ∧ files w1 !! "/st/Packages/User/Monokai.sublime-color-scheme"
         = Some (JsonFile (Theme (Some (values (dynamic_nodes ex_fresh_json))) ∅))).
Proof.
  pose proof (generation_idempotent ex_package_host ex_package_host
                ex_package_loader ex_package_loader ex_fresh_xml ex_fresh_json)
    as H.
  split.
  - set (self1 := MkScheme (static_nodes ex_fresh_xml) (dynamic_nodes ex_fresh_xml)
                    "Packages/Color Scheme - Legacy/Monokai.tmTheme"
                    (settings_of ex_package_host
                       "Packages/Color Scheme - Legacy/Monokai.tmTheme")).
    set (w1 := world_of (xml_generate ex_package_host ex_package_loader ex_fresh_xml
                           ex_tm_prefs_world)).
    assert (xml_generate ex_package_host ex_package_loader ex_fresh_xml ex_tm_prefs_world
            = Ok self1 w1) as E1 by (vm_compute; reflexivity).
    destruct (proj1 (H ex_tm_prefs_world eq_refl ltac:(discriminate) ltac:(discriminate))
                self1 w1 E1)
      as (self2 & w2 & E2 & Hf & Hp & _).
    + discriminate.
    + apply (bool_decide_unpack _). vm_compute. exact I.
    + vm_compute. reflexivity.
    + reflexivity.
    + exists self1, w1, self2, w2. split_and!; [done|done|done|].
      rewrite Hp. vm_compute. reflexivity.
  - set (self1 := MkScheme (static_nodes ex_fresh_json) (dynamic_nodes ex_fresh_json)
                    "Packages/Color Scheme - Default/Monokai.sublime-color-scheme"
                    (settings_of ex_package_host
                       "Packages/Color Scheme - Default/Monokai.sublime-color-scheme")).
    set (w1 := world_of (json_generate ex_package_host ex_package_loader ex_fresh_json
                           ex_world)).
    assert (json_generate ex_package_host ex_package_loader ex_fresh_json ex_world
            = Ok self1 w1) as E1 by (vm_compute; reflexivity).
    destruct (proj2 (H ex_world eq_refl ltac:(discriminate) ltac:(discriminate))
                self1 w1)
      as (self2 & w2 & E2 & Hf & _).
    + unfold ex_fresh_json. apply assembled_node, assembled_node, assembled_empty.
    + exact E1.
    + unfold wrote.
      replace (new_events ex_world w1)
        with [FileWrite "/st/Packages/User/Monokai.sublime-color-scheme";
              Printf "Old scheme path detected. Pass."]
        by (vm_compute; reflexivity).
      left.
    + vm_compute. reflexivity.
    + vm_compute. reflexivity.
    + reflexivity.
    + exists self1, w1, self2, w2. split_and!; [done|done|done|].
      vm_compute. reflexivity.
Defined.

(** ** A theme of the user directory *)

(** the first pass over the user's [My.tmTheme] derives
    [My (SL).hidden-tmTheme] from it and switches the preference *)
Lemma ex_user_first_pass :
  ∃ self1 w1,
    xml_generate ex_user_host (disk_loader "/st/Packages") ex_fresh_xml ex_user_world
      = Ok self1 w1
    ∧ scheme_orig (paths self1) = "Packages/User/My.tmTheme"
    ∧ new_events ex_user_world w1
      = [FileWrite "/st/Packages/User/SublimeLinter/My (SL).hidden-tmTheme";
         Printf "New scheme path detected. Updating.";
         PrefSet "color_scheme" "Packages/User/SublimeLinter/My (SL).hidden-tmTheme";
         SaveSettings "Preferences.sublime-settings"]
    ∧ files w1 !! "/st/Packages/User/SublimeLinter/My (SL).hidden-tmTheme"
      = Some (XmlFile COLOR_SCHEME_PREAMBLE
                (Element "plist" None
                   [Element "dict" None
                      [Element "key" (Some "settings") [];
                       Element "array" None [ex_node]]]))
    ∧ files w1 !! "/st/Packages/User/SublimeLinter/My (SL) (SL).hidden-tmTheme" = None
    (* the second pass takes the derived theme for the original *)
    ∧ ∃ self2 w2,
        xml_generate ex_user_host (disk_loader "/st/Packages") self1 w1 = Ok self2 w2
        ∧ scheme_orig (paths self2)
          = "Packages/User/SublimeLinter/My (SL).hidden-tmTheme"
        ∧ new_events w1 w2
          = [FileWrite "/st/Packages/User/SublimeLinter/My (SL) (SL).hidden-tmTheme";
             Printf "New scheme path detected. Updating.";
             PrefSet "color_scheme"
               "Packages/User/SublimeLinter/My (SL) (SL).hidden-tmTheme";
             SaveSettings "Preferences.sublime-settings"]
        ∧ files w2 !! "/st/Packages/User/SublimeLinter/My (SL) (SL).hidden-tmTheme"
          = Some (XmlFile COLOR_SCHEME_PREAMBLE
                    (Element "plist" None
                       [Element "dict" None
                          [Element "key" (Some "settings") [];
                           Element "array" None [ex_node; ex_node]]])).
Proof.
  eexists _, _. split; [vm_compute; reflexivity|].
  split_and!; [vm_compute; reflexivity..|].
  eexists _, _. split; [vm_compute; reflexivity|].
  split_and!; vm_compute; reflexivity.
Qed.

(** C4 as stated fails for a theme of the user directory:
    [get_original_theme] leaves out every resource under [Packages/User/],
    so the second pass finds no original and takes the derived theme, the
    preference of the first pass, for it.  It writes
    [My (SL) (SL).hidden-tmTheme], a second derived file, which holds the
    dynamic node twice. *)
Lemma second_xml_pass_derives_from_derivative :
  ¬ second_pass_same_output (xml_generate ex_user_host (disk_loader "/st/Packages"))
      ex_fresh_xml ex_user_world.
Proof.
  intros H.
  destruct ex_user_first_pass as (self1 & w1 & E1 & _ & _ & _ & Hnone & self2 & w2 & E2
                                  & _ & _ & Hsome).
  specialize (H self1 w1 E1). rewrite E2 in H. simpl in H.
  rewrite H in Hsome. by rewrite Hsome in Hnone.
Qed.

(** C6 as stated fails twice.  For the JSON engine the derived file of
    [Monokai] is [Monokai.sublime-color-scheme], which carries no [(SL)]
    mark.  And repeated passes need not overwrite one file: over a theme of
    the user directory the first XML pass writes [My (SL).hidden-tmTheme]
    and the second, which resolves the base name [My (SL)], writes
    [My (SL) (SL).hidden-tmTheme] beside it. *)
Lemma json_name_unmarked_and_xml_files_accumulate :
  ¬ sl_marked (scheme_name (paths ex_dynamic)) (new_scheme_path ex_dynamic)
  ∧ ¬ passes_overwrite_one_file
        (xml_generate ex_user_host (disk_loader "/st/Packages"))
        ex_fresh_xml ex_user_world.
Proof.
  split.
  - intros [suffix H]. vm_compute in H. congruence.
  - intros H.
    destruct ex_user_first_pass as (self1 & w1 & E1 & _ & Hw1 & _ & _ & self2 & w2 & E2
                                    & _ & Hw2 & _).
    specialize (H self1 w1
                  "/st/Packages/User/SublimeLinter/My (SL).hidden-tmTheme"
                  "/st/Packages/User/SublimeLinter/My (SL) (SL).hidden-tmTheme" E1).
    rewrite E2 in H. simpl in H. unfold wrote in H. rewrite Hw1, Hw2 in H.
    assert ("/st/Packages/User/SublimeLinter/My (SL) (SL).hidden-tmTheme"
            = "/st/Packages/User/SublimeLinter/My (SL).hidden-tmTheme") as E
      by (apply H; left).
    discriminate E.
Qed.
